(** * gnatpython: terminals.c (mod_term) and winlow.c (mod_win)

    A shallow embedding of the C functions of the two extension modules
    and the properties of their specification.

    - [PE]       : [is_gui_app], [AbsoluteSeek], [ReadBytes] (terminals.c)
    - [CmdLine]  : the command line built by [nt_spawnve] (terminals.c)
    - [Poll]     : the two [__gnat_expect_poll] (terminals.c)
    - [Reap]     : the two [gvd_waitpid] (terminals.c)
    - [Pty]      : [allocate_pty_desc], [gvd_new_tty] (terminals.c)
    - [WinLow]   : [move_away], [is_dir_empty], [safe_unlink] (winlow.c)
    - [WinLowRuns] : what a run of [safe_unlink] holds, [py_safe_unlink]
    - [PyPoll]   : [poll], the Python entry of the select-based poll
    - [Tty]      : [child_setup_tty], the communication set-up and
                   [non_blocking_spawn] of the POSIX build (terminals.c)
    - [PEReads]  : the decision of [is_gui_app] from its buffers
    - [Console]  : [gvd_interrupt_pid] of the Windows build (terminals.c)

    Operating-system services are not part of the repository.  Each is
    an explicit argument of the embedding: a file system, an oracle
    answering system calls, a stream of [select] outcomes.  The C
    functions are then ordinary functions of their arguments and of that
    environment, and the calls they make are recorded.  What an array
    that is not initialised holds is an argument too, and a store
    outside an array is an outcome of its own.

    The definitions come first; the properties follow, in one module
    of facts for each module of definitions. *)

From Stdlib Require Import Ascii String.
From Stdlib Require Import ZArith List Bool Lia Arith Permutation FinFun.
Import ListNotations.

Local Open Scope Z_scope.

(** C strings are lists of characters; the terminating NUL is implicit. *)
Definition cstring := list ascii.

Definition cstr (s : string) : cstring := list_ascii_of_string s.

(* ================================================================== *)
(** * is_gui_app: subsystem of an executable, from its PE headers      *)
(* ================================================================== *)

Module PE.

(** Constants of winnt.h. *)
Definition IMAGE_DOS_SIGNATURE : Z := 0x5A4D.
Definition IMAGE_NT_SIGNATURE : Z := 0x00004550.
Definition IMAGE_SIZEOF_FILE_HEADER : nat := 20.
Definition IMAGE_SIZEOF_NT_OPTIONAL_HEADER : nat := 224.
Definition sizeof_IMAGE_DOS_HEADER : nat := 64.
Definition sizeof_MoreDosHeader : nat := 64.
Definition sizeof_ULONG : nat := 4.

Definition IMAGE_SUBSYSTEM_UNKNOWN : Z := 0.
Definition IMAGE_SUBSYSTEM_NATIVE : Z := 1.
Definition IMAGE_SUBSYSTEM_WINDOWS_GUI : Z := 2.
Definition IMAGE_SUBSYSTEM_WINDOWS_CUI : Z := 3.
Definition IMAGE_SUBSYSTEM_OS2_CUI : Z := 5.
Definition IMAGE_SUBSYSTEM_POSIX_CUI : Z := 7.

(** Field offsets inside the structures of winnt.h. *)
Definition offsetof_e_magic : nat := 0.
Definition offsetof_e_lfanew : nat := 60.
Definition offsetof_Subsystem : nat := 68.

(** A byte is a [Z] in [0, 256); a file is its bytes. *)
Definition bytes := list Z.

(** The file system as [CreateFile] sees it: [None] when the file cannot
    be opened for reading. *)
Definition filesystem := cstring -> option bytes.

(** Little-endian unsigned value of a byte sequence. *)
Fixpoint le_uint (bs : bytes) : Z :=
  match bs with
  | [] => 0
  | b :: r => b mod 256 + 256 * le_uint r
  end.

Definition field (buf : bytes) (off size : nat) : Z :=
  le_uint (firstn size (skipn off buf)).

(** A 32-bit value read as the signed [LONG] it is declared as. *)
Definition as_LONG (v : Z) : Z :=
  if v <? 2 ^ 31 then v else v - 2 ^ 32.

(** An open file: content and file pointer. *)
Record HANDLE := { content : bytes; fptr : nat }.

(** [ReadBytes (hFile, buffer, size)]: [ReadFile] copies what is left of
    the file, at most [size] bytes, over the beginning of [buffer]; the
    rest of [buffer] keeps what it held.  The function reports nothing
    (it is [VOID], and its assignment [size = 0] is to its own
    parameter), so a short read leaves the caller with the old bytes. *)
Definition ReadBytes (h : HANDLE) (buffer : bytes) (size : nat)
  : HANDLE * bytes :=
  let got := firstn size (skipn (fptr h) (content h)) in
  ({| content := content h; fptr := (fptr h + length got)%nat |},
   got ++ skipn (length got) buffer).

(** [SetFilePointer (hFile, offset, NULL, FILE_BEGIN)]: with no high
    part the distance is a signed 32-bit value; a negative one fails
    with 0xFFFFFFFF and leaves the pointer where it was. *)
Definition SetFilePointer (h : HANDLE) (offset : Z) : HANDLE * Z :=
  if as_LONG offset <? 0 then (h, 0xFFFFFFFF)
  else ({| content := content h; fptr := Z.to_nat offset |}, offset).

(** [AbsoluteSeek]: returns a [DWORD], so its [-1] is 0xFFFFFFFF. *)
Definition AbsoluteSeek (h : HANDLE) (offset : Z) : HANDLE * Z :=
  let '(h', newOffset) := SetFilePointer h offset in
  if newOffset =? 0xFFFFFFFF then (h', (-1) mod 2 ^ 32) else (h', newOffset).

(** The automatic variables of [is_gui_app] are not initialised: what
    they hold before the reads is whatever the stack held. *)
Record frame := {
  image_dos_header : bytes;
  ntSignature : bytes;
  image_optional_header : bytes
}.

(** The name handed to [CreateFile]: when [exe] is longer than two
    characters and starts with a quote, its first and last characters
    are dropped. *)
Definition dquote : ascii := "034"%char.

Definition exe_file (exe : cstring) : cstring :=
  let nlen := length exe in
  if (2 <? nlen)%nat then
    match exe with
    | c :: rest => if Ascii.eqb c dquote then firstn (nlen - 2) rest else exe
    | [] => exe
    end
  else exe.

(** The [switch] on [image_optional_header.Subsystem]. *)
Definition subsystem_switch (Subsystem : Z) : Z :=
  if Subsystem =? IMAGE_SUBSYSTEM_UNKNOWN then 1
  else if Subsystem =? IMAGE_SUBSYSTEM_NATIVE then 1
  else if Subsystem =? IMAGE_SUBSYSTEM_WINDOWS_GUI then 1
  else if Subsystem =? IMAGE_SUBSYSTEM_WINDOWS_CUI then 0
  else if Subsystem =? IMAGE_SUBSYSTEM_OS2_CUI then 0
  else if Subsystem =? IMAGE_SUBSYSTEM_POSIX_CUI then 0
  else 1.

(** [is_gui_app (exe)]: 1 for a GUI executable, 0 for a console one,
    -1 when the file cannot be opened or a signature is missing. *)
Definition is_gui_app (fs : filesystem) (stack : frame) (exe : cstring) : Z :=
  match fs (exe_file exe) with
  | None => -1
  | Some image =>
    let hImage := {| content := image; fptr := 0 |} in
    let '(hImage, dos) :=
      ReadBytes hImage (image_dos_header stack) sizeof_IMAGE_DOS_HEADER in
    if negb (IMAGE_DOS_SIGNATURE =? field dos offsetof_e_magic 2) then -1
    else
      let '(hImage, _) := ReadBytes hImage [] sizeof_MoreDosHeader in
      let '(hImage, off) :=
        AbsoluteSeek hImage (field dos offsetof_e_lfanew 4) in
      let CoffHeaderOffset := (off + Z.of_nat sizeof_ULONG) mod 2 ^ 32 in
      if CoffHeaderOffset <? 0 then -1
      else
        let '(hImage, sig) :=
          ReadBytes hImage (ntSignature stack) sizeof_ULONG in
        if negb (IMAGE_NT_SIGNATURE =? field sig 0 4) then -1
        else
          let '(hImage, _) := ReadBytes hImage [] IMAGE_SIZEOF_FILE_HEADER in
          let '(hImage, opt) :=
            ReadBytes hImage (image_optional_header stack)
                      IMAGE_SIZEOF_NT_OPTIONAL_HEADER in
          subsystem_switch (field opt offsetof_Subsystem 2)
  end.

(** ** What the headers of an image say, read straight from its bytes. *)






(** ** Two file systems to try the function on *)

(** No file can be opened. *)
Definition no_file : filesystem := fun _ => None.

Definition empty_frame : frame :=
  {| image_dos_header := []; ntSignature := [];
     image_optional_header := [] |}.

(** The headers of a console executable: MZ, [e_lfanew] = 64, PE\0\0,
    a file header, an optional header with Subsystem = WINDOWS_CUI. *)
Definition console_image : bytes :=
  [0x4D; 0x5A] ++ repeat 0 58 ++ [64; 0; 0; 0]
  ++ [0x50; 0x45; 0; 0] ++ repeat 0 20
  ++ repeat 0 68 ++ [3; 0] ++ repeat 0 154.

(** A frame in which an earlier call has left the headers of a console
    executable. *)
Definition stale_console_frame : frame :=
  {| image_dos_header := [0x4D; 0x5A] ++ repeat 0 62;
     ntSignature := [0x50; 0x45; 0; 0];
     image_optional_header := repeat 0 68 ++ [3; 0] ++ repeat 0 154 |}.

(** A file system in which every name is an empty file. *)
Definition empty_files : filesystem := fun _ => Some [].


End PE.

(* ================================================================== *)
(** * nt_spawnve: the command line handed to CreateProcess             *)
(* ================================================================== *)

Module CmdLine.

Definition dquote : ascii := PE.dquote.
Definition space : ascii := " "%char.
Definition tab : ascii := "009"%char.

(** [const char escape_char = '\\';] *)
Definition escape_char : ascii := "\"%char.

(** The test of both passes: [*p] is the escape character, and the
    escape character is not the quote. *)
Definition is_escape (c : ascii) : bool :=
  Ascii.eqb c escape_char && negb (Ascii.eqb escape_char dquote).

(** ** First pass: the size of the buffer

    The [int] counters are natural numbers here: they count characters
    of strings that are in memory. *)

(** The [for ( ; *p; p++)] loop of the first pass over one argument;
    its state is [arglen], [need_quotes] and [escape_char_run]. *)
Fixpoint measure_chars (p : cstring) (arglen : nat) (need_quotes : bool)
  (escape_char_run : nat) : nat * bool * nat :=
  match p with
  | [] => (arglen, need_quotes, escape_char_run)
  | c :: p' =>
    let '(arglen, need_quotes) :=
      if Ascii.eqb c dquote then
        let arglen := S arglen in
        (if (0 <? escape_char_run)%nat
         then (arglen + escape_char_run)%nat else arglen, true)
      else if Ascii.eqb c space || Ascii.eqb c tab then (arglen, true)
      else (arglen, need_quotes) in
    measure_chars p' arglen need_quotes
      (if is_escape c then S escape_char_run else 0%nat)
  end.

(** One turn of the [while ( *targ )] loop of the first pass. *)
Definition measure_arg (arglen : nat) (arg : cstring) : nat :=
  let need_quotes := match arg with [] => true | _ => false end in
  let '(arglen, need_quotes, escape_char_run) :=
    measure_chars arg arglen need_quotes 0 in
  let arglen :=
    if need_quotes then
      let arglen := (arglen + 2)%nat in
      if (0 <? escape_char_run)%nat
      then (arglen + escape_char_run)%nat else arglen
    else arglen in
  (arglen + length arg + 1)%nat.

Definition measure_argv (argv : list cstring) : nat :=
  fold_left measure_arg argv 0%nat.

(** ** Second pass: the characters written through [parg] *)

(** [need_quotes] as the second pass computes it. *)
Definition need_quotes (arg : cstring) : bool :=
  fold_left
    (fun nq c =>
       if Ascii.eqb c space || Ascii.eqb c tab || Ascii.eqb c dquote
       then true else nq)
    arg
    (match arg with [] => true | _ => false end).

(** The [for ( ; *p; p++)] loop that copies a quoted argument, followed
    by the loop that doubles the escape characters before the enclosing
    quote.  Before a quote, the inner [while (escape_char_run > 0)]
    writes [escape_char_run] escape characters and leaves the counter
    at 0; one more escape character is written for the quote itself. *)
Fixpoint quote_chars (p : cstring) (escape_char_run : nat) : cstring :=
  match p with
  | [] => repeat escape_char escape_char_run
  | c :: p' =>
    let '(escapes, escape_char_run) :=
      if Ascii.eqb c dquote
      then (repeat escape_char escape_char_run ++ [escape_char], 0%nat)
      else ([], escape_char_run) in
    escapes
    ++ c :: quote_chars p'
              (if is_escape c then S escape_char_run else 0%nat)
  end.

(** What one turn of the second [while ( *targ )] loop writes, the
    separating space excluded. *)
Definition write_arg (arg : cstring) : cstring :=
  if need_quotes arg then dquote :: quote_chars arg 0 ++ [dquote]
  else arg.

Definition write_argv (argv : list cstring) : cstring :=
  concat (map (fun arg => write_arg arg ++ [space]) argv).

(** What [nt_spawnve] has decided by the time it calls [CreateProcess]. *)
Record spawn := {
  cmdline : cstring;      (* the buffer, up to its NUL *)
  arglen : nat;           (* malloc (arglen + 1) *)
  is_gui : Z;
  use_cmd : bool
}.

(** [nt_spawnve] up to the end of the command line.  [argv] ends with a
    null pointer, so an empty [argv] has a null [argv[0]]: [is_gui_app]
    takes its [strlen], and there is no result.  The last character
    written is the space after the last argument; [*--parg = '\0']
    replaces it. *)
Definition nt_spawnve (fs : PE.filesystem) (stack : PE.frame)
  (argv : list cstring) : option spawn :=
  match argv with
  | [] => None
  | exe :: _ =>
    let arglen := measure_argv argv in
    let is_gui := PE.is_gui_app fs stack exe in
    let '(is_gui, arglen, use_cmd) :=
      if is_gui =? -1 then (0, (arglen + 7)%nat, true)
      else (is_gui, arglen, false) in
    let written :=
      (if use_cmd then cstr "cmd /c " else []) ++ write_argv argv in
    Some {| cmdline := removelast written;
            arglen := arglen;
            is_gui := is_gui;
            use_cmd := use_cmd |}
  end.

(** ** Argument splitting in the child

    The child's C runtime splits its command line by the rules Microsoft
    documents for C programs: arguments are separated by spaces and
    tabs; a quote opens or closes a quoted part, in which spaces and
    tabs are ordinary; [2n] backslashes before a quote give [n]
    backslashes and the quote delimits; [2n+1] backslashes before a
    quote give [n] backslashes and a literal quote; backslashes not
    before a quote stand for themselves.  The runtimes differ on two
    quotes in a row inside a quoted part, and all three behaviours are
    covered.  This is the rule for the arguments after the program
    name, which is read by a rule of its own (see [parse_name]). *)

Inductive two_quotes :=
| TwoQuotesPlain      (* the first closes, the second opens *)
| TwoQuotesStay       (* a literal quote; the quoted part goes on *)
| TwoQuotesLeave.     (* a literal quote; the quoted part ends *)

Definition is_blank (c : ascii) : bool :=
  Ascii.eqb c space || Ascii.eqb c tab.

Definition so_far (cur : option cstring) : cstring :=
  match cur with Some a => a | None => [] end.

(** [parse rule s inquote numslash cur]: [cur] is the argument being
    collected ([None] between arguments), [numslash] the backslashes
    seen and not yet copied. *)
Fixpoint parse (rule : two_quotes) (s : cstring) (inquote : bool)
  (numslash : nat) (cur : option cstring) : list cstring :=
  match s with
  | [] =>
    match cur with
    | None => []
    | Some a => [a ++ repeat escape_char numslash]
    end
  | c :: s' =>
    if Ascii.eqb c escape_char then
      parse rule s' inquote (S numslash) (Some (so_far cur))
    else if Ascii.eqb c dquote then
      let a := so_far cur ++ repeat escape_char (Nat.div2 numslash) in
      if Nat.even numslash then
        match rule, inquote, s' with
        | TwoQuotesStay, true, c' :: s'' =>
          if Ascii.eqb c' dquote
          then parse rule s'' true 0 (Some (a ++ [dquote]))
          else parse rule s' (negb inquote) 0 (Some a)
        | TwoQuotesLeave, true, c' :: s'' =>
          if Ascii.eqb c' dquote
          then parse rule s'' false 0 (Some (a ++ [dquote]))
          else parse rule s' (negb inquote) 0 (Some a)
        | _, _, _ => parse rule s' (negb inquote) 0 (Some a)
        end
      else parse rule s' inquote 0 (Some (a ++ [dquote]))
    else if is_blank c && negb inquote then
      match cur with
      | None => parse rule s' false 0 None
      | Some a =>
        (a ++ repeat escape_char numslash) :: parse rule s' false 0 None
      end
    else
      parse rule s' inquote 0
            (Some (so_far cur ++ repeat escape_char numslash ++ [c]))
  end.

(** The program name is read by a simpler rule: a quote opens or closes
    a quoted part and is dropped, a backslash is an ordinary character,
    and the name ends at the first blank outside quotes.  The value is
    the name and what follows that blank. *)
Fixpoint parse_name (s : cstring) (inquote : bool) : cstring * cstring :=
  match s with
  | [] => ([], [])
  | c :: s' =>
    if Ascii.eqb c dquote then parse_name s' (negb inquote)
    else if is_blank c && negb inquote then ([], s')
    else let '(name, rest) := parse_name s' inquote in (c :: name, rest)
  end.

(** The command line split with the program name read by its own rule
    and the other arguments by the general one. *)
Definition parse_cmdline_with_name (rule : two_quotes) (s : cstring)
  : list cstring :=
  let '(name, rest) := parse_name s false in
  name :: parse rule rest false 0 None.

(** The number of escape characters an argument ends with, [n] being
    the number that precede it. *)
Fixpoint trailing_escapes (p : cstring) (n : nat) : nat :=
  match p with
  | [] => n
  | c :: p' => trailing_escapes p' (if is_escape c then S n else 0%nat)
  end.

Definition has_quote (p : cstring) : bool :=
  existsb (fun c => Ascii.eqb c dquote) p.

(** Empty, or containing a space, a tab or a quote. *)
Definition must_quote (arg : cstring) : bool :=
  match arg with
  | [] => true
  | _ => existsb (fun c => Ascii.eqb c space || Ascii.eqb c tab
                           || Ascii.eqb c dquote) arg
  end.

(** A program name that the rule for program names gives back: it has
    no quote and, when it is written between quotes, it does not end
    with an escape character. *)
Definition plain_program_name (exe : cstring) : Prop :=
  has_quote exe = false
  /\ (must_quote exe = true -> trailing_escapes exe 0 = 0%nat).

(** ** The quoting in the words of the specification

    An argument is a sequence of runs: some escape characters (possibly
    none) followed by one other character, and a last run followed by
    the end of the argument. *)

Fixpoint runs (p : cstring) (n : nat) : list (nat * option ascii) :=
  match p with
  | [] => [(n, None)]
  | c :: p' =>
    if Ascii.eqb c escape_char then runs p' (S n)
    else (n, Some c) :: runs p' 0
  end.

(** A run as it stands in the argument. *)
Definition plain_run (r : nat * option ascii) : cstring :=
  repeat escape_char (fst r)
  ++ match snd r with Some c => [c] | None => [] end.

(** A run as the specification wants it inside the quotes: doubled
    before an embedded quote, which gets its own escape character;
    doubled before the closing quote; as it is otherwise. *)
Definition quoted_run (r : nat * option ascii) : cstring :=
  match snd r with
  | Some c =>
    if Ascii.eqb c dquote
    then repeat escape_char (2 * fst r) ++ [escape_char; dquote]
    else repeat escape_char (fst r) ++ [c]
  | None => repeat escape_char (2 * fst r)
  end.

(** The arguments one after the other with a space between two. *)
Fixpoint join (l : list cstring) : cstring :=
  match l with
  | [] => []
  | a :: r =>
    match r with
    | [] => a
    | _ :: _ => a ++ space :: join r
    end
  end.

(** What follows an argument in the command line: nothing, or the
    space that separates it from the next one. *)
Definition ends_arg (rest : cstring) : Prop :=
  rest = [] \/ exists rest', rest = space :: rest'.

(** The splitter when the argument [a] is complete and [rest] follows:
    [a] is given out, and the splitting goes on after the space. *)
Definition give (rule : two_quotes) (rest : cstring) (a : cstring)
  : list cstring :=
  match rest with
  | [] => [a]
  | _ :: rest' => a :: parse rule rest' false 0 None
  end.

(** A program name given between quotes, as [is_gui_app] accepts it. *)
Definition quoted_name : cstring :=
  dquote :: cstr "C:\a b\p.exe" ++ [dquote].

End CmdLine.

(* ================================================================== *)
(** * __gnat_expect_poll: readiness of several descriptors             *)
(* ================================================================== *)

Module Poll.

(** [is_set[i] = v], inside the array. *)
Fixpoint store (l : list Z) (i : nat) (v : Z) : list Z :=
  match l, i with
  | [], _ => []
  | _ :: r, O => v :: r
  | x :: r, S i' => x :: store r i' v
  end.

(** ** The select-based implementation *)

Module Posix.

(** An [fd_set] has one bit for each descriptor from 0 to
    [FD_SETSIZE] - 1. *)
Definition fd_set := Z -> bool.

Definition FD_ZERO : fd_set := fun _ => false.

(** [FD_SET (fd, &s)] checks no bound: for a descriptor that is
    negative or not below [FD_SETSIZE] the bit written is outside the
    set, and there is no set to go on with. *)
Definition FD_SET (FD_SETSIZE fd : Z) (s : fd_set) : option fd_set :=
  if (0 <=? fd) && (fd <? FD_SETSIZE)
  then Some (fun x => (x =? fd) || s x)
  else None.

Definition FD_ISSET (fd : Z) (s : fd_set) : bool := s fd.

(** What the descriptors are like when a call to [select] comes back. *)
Inductive select_outcome :=
| SelectError
| SelectReturns (readable exceptional : Z -> bool).

(** The last argument of [select]: a null pointer, or [tv]. *)
Record timeval := { tv_sec : Z; tv_usec : Z }.

Record select_call := { nfds : Z; timeout_arg : option timeval }.

(** [select (nfds, &rset, NULL, &eset, timeout)]: the descriptors below
    [nfds] are examined; each set keeps its members that are ready, and
    the value is the number of members left in the two sets together.
    On error the value is -1 and the sets are as they were. *)
Definition members (n : Z) (s : fd_set) : list Z :=
  filter s (map Z.of_nat (seq 0 (Z.to_nat n))).

Definition select (o : select_outcome) (n : Z) (rset eset : fd_set)
  : Z * fd_set * fd_set :=
  match o with
  | SelectError => (-1, rset, eset)
  | SelectReturns readable exceptional =>
    let rset' := fun fd => rset fd && readable fd in
    let eset' := fun fd => eset fd && exceptional fd in
    (Z.of_nat (length (members n rset') + length (members n eset')),
     rset', eset')
  end.

(** The [for] loop that fills the two sets and raises [max_fd];
    [None] when a descriptor is written outside a set. *)
Fixpoint fill_sets (FD_SETSIZE : Z) (fd : list Z) (rset eset : fd_set)
  (max_fd : Z) : option (fd_set * fd_set * Z) :=
  match fd with
  | [] => Some (rset, eset, max_fd)
  | f :: rest =>
    match FD_SET FD_SETSIZE f rset, FD_SET FD_SETSIZE f eset with
    | Some rset, Some eset =>
      fill_sets FD_SETSIZE rest rset eset
                (if max_fd <? f then f else max_fd)
    | _, _ => None
    end
  end.

(** The [for] loop that writes [is_set]; [received] is whether some
    descriptor was found in [rset]. *)
Definition mark (fd : list Z) (rset : fd_set) : list Z :=
  map (fun f => if FD_ISSET f rset then 1 else 0) fd.

Definition received (fd : list Z) (rset : fd_set) : bool :=
  existsb (fun f => FD_ISSET f rset) fd.

(** The [__hpux__] loop over the exception set.  [close_request f] is
    whether [TIOCREQCHECK] finds a [TIOCCLOSE] request on [f].  The
    value is [None] when the function returns -1 from inside the loop,
    and the decremented [ready] otherwise. *)
Fixpoint hpux_requests (fd : list Z) (eset : fd_set) (recv : bool)
  (close_request : Z -> bool) (ready : Z) : option Z :=
  match fd with
  | [] => Some ready
  | f :: rest =>
    if FD_ISSET f eset then
      if negb recv && close_request f then None
      else hpux_requests rest eset recv close_request (ready - 1)
    else hpux_requests rest eset recv close_request ready
  end.

(** The build: [__hpux__] defined or not, what the pty driver answers
    there, and the size of an [fd_set]. *)
Record build := {
  hpux : bool;
  close_request : Z -> bool;
  FD_SETSIZE : Z
}.

Record result := {
  value : Z;                    (* the [int] returned *)
  is_set : list Z;              (* the caller's array afterwards *)
  calls : list select_call      (* the calls to [select], in order *)
}.

(** The function returns, or it has written outside a set. *)
Inductive outcome :=
| Returns (r : result)
| Outside.

(** A turn of the loop from the call to [select] on: the call, the
    array, the [__hpux__] part.  The first component is [None] when
    the function returns -1 from inside the [__hpux__] loop, and is
    [ready] as the test of the [while] finds it otherwise; the second
    is the array. *)
Definition after_select (b : build) (o : select_outcome) (fd : list Z)
  (nfds : Z) (rset eset : fd_set) (is_set0 : list Z)
  : option Z * list Z :=
  let '(ready, rset, eset) := select o nfds rset eset in
  if 0 <? ready then
    let is_set1 := mark fd rset in
    if hpux b then
      (hpux_requests fd eset (received fd rset) (close_request b) ready,
       is_set1)
    else (Some ready, is_set1)
  else (Some ready, is_set0).

(** The [do ... while] loop.  The environment is the outcomes of the
    successive calls to [select]; when they run out before the loop
    ends the call has not returned.  [timeout] is an [int]; [/] and [%]
    truncate toward zero. *)
Fixpoint poll_loop (b : build) (env : list select_outcome) (fd : list Z)
  (timeout : Z) (tv : timeval) (max_fd : Z) (is_set0 : list Z)
  (made : list select_call) : option outcome :=
  match fill_sets (FD_SETSIZE b) fd FD_ZERO FD_ZERO max_fd with
  | None => Some Outside
  | Some (rset, eset, max_fd) =>
    match env with
    | [] => None
    | o :: env' =>
      let arg := if timeout =? -1 then None else Some tv in
      let made := made ++ [{| nfds := max_fd + 1; timeout_arg := arg |}] in
      match after_select b o fd (max_fd + 1) rset eset is_set0 with
      | (None, is_set1) =>
        Some (Returns {| value := -1; is_set := is_set1; calls := made |})
      | (Some ready, is_set1) =>
        if (timeout =? -1) && (ready =? 0)
        then poll_loop b env' fd timeout tv max_fd is_set1 made
        else Some (Returns {| value := ready; is_set := is_set1;
                              calls := made |})
      end
    end
  end.

Definition expect_poll (b : build) (env : list select_outcome)
  (fd : list Z) (timeout : Z) (is_set0 : list Z) : option outcome :=
  poll_loop b env fd timeout
            {| tv_sec := Z.quot timeout 1000;
               tv_usec := Z.rem timeout 1000 * 1000 |}
            0 is_set0 [].

(** [ready] as the test of the [while] finds it in a turn whose call
    to [select] has the outcome [o]; [None] when the turn returns from
    inside the [__hpux__] loop. *)
Definition ready_at (b : build) (o : select_outcome) (fd : list Z)
  : option Z :=
  match fill_sets (FD_SETSIZE b) fd FD_ZERO FD_ZERO 0 with
  | Some (rset, eset, max_fd) =>
    fst (after_select b o fd (max_fd + 1) rset eset [])
  | None => None
  end.

(** The outcome of the call to [select] after which the function
    returned: the last one made. *)
Definition final_outcome (env : list select_outcome) (r : result)
  : select_outcome :=
  nth (length (calls r) - 1) env SelectError.

(** The array that has 1 exactly where the descriptor is ready. *)
Definition flags (ready : Z -> bool) (fd : list Z) : list Z :=
  map (fun f => if ready f then 1 else 0) fd.

Definition nothing : Z -> bool := fun _ => false.

(** The descriptor is one an [fd_set] has a bit for. *)
Definition inside (b : build) (f : Z) : Prop := 0 <= f < FD_SETSIZE b.

(** A build without the [__hpux__] part, with sets of 1024 bits. *)
Definition linux : build :=
  {| hpux := false; close_request := nothing; FD_SETSIZE := 1024 |}.

End Posix.

(** ** The PeekNamedPipe-based implementation *)

Module Win.

Definition MAX_DELAY : Z := 100.

(** One look at the pipes: for each descriptor, [None] when
    [PeekNamedPipe] fails, or the number of bytes available. *)
Definition pipes := Z -> option Z.

Inductive peeked :=
| PeekFailed
| Available (i : nat)
| Nothing.

(** The [for] loop over the handles: it stops at the first failure or
    at the first pipe with data. *)
Fixpoint peek (p : pipes) (fd : list Z) (i : nat) : peeked :=
  match fd with
  | [] => Nothing
  | f :: rest =>
    match p f with
    | None => PeekFailed
    | Some avail => if 0 <? avail then Available i else peek p rest (S i)
    end
  end.

Record result := {
  value : Z;
  is_set : list Z;
  slept : list Z               (* the arguments of [Sleep], in order *)
}.

(** The function returns, or the subtraction [timeout -= delay] has
    left the range of [int]. *)
Inductive outcome :=
| Returns (r : result)
| Overflow.

Definition INT_MIN : Z := - 2 ^ 31.

(** The [while (1)] loop.  The environment is the state of the pipes at
    each successive round; when the rounds run out the call has not
    returned.  [timeout] is an [int] that is made smaller at every
    round, also when [infinite] is set and it is not read. *)
Fixpoint poll_loop (env : list pipes) (fd : list Z) (infinite : bool)
  (timeout delay : Z) (is_set0 : list Z) (naps : list Z)
  : option outcome :=
  match env with
  | [] => None
  | p :: env' =>
    match peek p fd 0 with
    | PeekFailed =>
      Some (Returns {| value := -1; is_set := is_set0; slept := naps |})
    | Available i =>
      Some (Returns {| value := 1; is_set := store is_set0 i 1;
                       slept := naps |})
    | Nothing =>
      if negb infinite && (timeout <=? 0)
      then Some (Returns {| value := 0; is_set := is_set0;
                            slept := naps |})
      else if timeout - delay <? INT_MIN then Some Overflow
      else
        poll_loop env' fd infinite (timeout - delay)
                  (if delay <? MAX_DELAY then delay + 10 else delay)
                  is_set0 (naps ++ [delay])
    end
  end.

(** The caller's array is cleared first, whatever it held. *)
Definition expect_poll (env : list pipes) (fd : list Z) (timeout : Z)
  : option outcome :=
  poll_loop env fd (timeout <? 0) timeout 5 (map (fun _ => 0) fd) [].

(** A pipe is readable when the peek succeeds and finds data. *)
Definition readable (p : pipes) (f : Z) : bool :=
  match p f with
  | Some avail => 0 <? avail
  | None => false
  end.

(** The state of the pipes in the round in which the function returned:
    there is one [Sleep] for each round before it. *)
Definition final_round (env : list pipes) (r : result) : pipes :=
  nth (length (slept r)) env (fun _ => None).

Definition zeros (fd : list Z) : list Z := map (fun _ => 0) fd.

(** No pipe before the [k]-th has data, and no peek before it
    failed. *)
Definition silent_before (p : pipes) (fd : list Z) (k : nat) : Prop :=
  forall j g, (j < k)%nat -> nth_error fd j = Some g ->
              readable p g = false /\ p g <> None.

(** The sum of the arguments of [Sleep]. *)
Definition total (naps : list Z) : Z := fold_right Z.add 0 naps.

(** The delay of the [k]-th [Sleep], counting from 0: 5 ms, 10 ms more
    each time while the delay is below [MAX_DELAY]. *)
Definition nap (k : nat) : Z := Z.min (5 + 10 * Z.of_nat k) 105.

(** The sleeps of the first [k] rounds. *)
Definition naps_before (k : nat) : list Z := map nap (seq 0 k).

(** The pipes of a round: no data anywhere; data on every pipe. *)
Definition no_data : pipes := fun _ => Some 0.
Definition data_everywhere : pipes := fun _ => Some 1.

End Win.

End Poll.

(* ================================================================== *)
(** * gvd_waitpid: reaping the child                                   *)
(* ================================================================== *)

Module Reap.

(** ** POSIX *)

Module Posix.

(** What becomes of a call [waitpid (pid, &status, 0)]: the child ends
    and its wait status is stored; or the call fails and stores
    nothing; or the child never ends and the call never returns. *)
Inductive child :=
| Ends (wait_status : Z)
| NoSuchChild
| Runs_forever.

(** [WEXITSTATUS] of sys/wait.h: bits 8 to 15 of the wait status. *)
Definition WEXITSTATUS (status : Z) : Z :=
  Z.land (Z.shiftr status 8) 0xff.

(** The wait status of a child that called [exit (code)]. *)
Definition exited (code : Z) : Z := Z.shiftl (Z.land code 0xff) 8.

(** The wait status of a child that the signal [sig] killed, with or
    without a core dump. *)
Definition signaled (sig : Z) (core : bool) : Z :=
  Z.lor (Z.land sig 0x7f) (if core then 0x80 else 0).

(** [gvd_waitpid]: [None] when the call does not return. *)
Definition gvd_waitpid (c : child) : option Z :=
  let status := 0 in
  match c with
  | Ends wait_status => Some (WEXITSTATUS wait_status)
  | NoSuchChild => Some (WEXITSTATUS status)
  | Runs_forever => None
  end.

End Posix.

(** ** Windows *)

Module Win.

Definition INFINITE : Z := 0xFFFFFFFF.
Definition WAIT_OBJECT_0 : Z := 0.
Definition WAIT_TIMEOUT : Z := 258.
Definition STILL_ACTIVE : Z := 259.

(** The child process: the time (in ms) at which it exits, if it ever
    does, and its exit code then. *)
Record process := { exits_at : option Z; exit_code : Z }.

Definition has_exited (p : process) (now : Z) : bool :=
  match exits_at p with
  | Some t => t <=? now
  | None => false
  end.

(** [WaitForSingleObject (hProcess, ms)] called at time [now]: the
    value and the time at which it returns; [None] when it never
    returns (an infinite wait on a process that never exits). *)
Definition WaitForSingleObject (p : process) (now ms : Z) : option (Z * Z) :=
  if has_exited p now then Some (WAIT_OBJECT_0, now)
  else if ms =? INFINITE then
    match exits_at p with
    | Some t => Some (WAIT_OBJECT_0, t)
    | None => None
    end
  else
    match exits_at p with
    | Some t =>
      if t <=? now + ms then Some (WAIT_OBJECT_0, t)
      else Some (WAIT_TIMEOUT, now + ms)
    | None => Some (WAIT_TIMEOUT, now + ms)
    end.

(** [GetExitCodeProcess]: [STILL_ACTIVE] while the process runs. *)
Definition GetExitCodeProcess (p : process) (now : Z) : Z :=
  if has_exited p now then exit_code p else STILL_ACTIVE.

Inductive call :=
| Call_WaitForSingleObject (handle ms : Z)
| Call_GetExitCodeProcess (handle : Z)
| Call_CloseHandle (handle : Z).

(** [procinfo] in the [term_handler]. *)
Record PROCESS_INFORMATION := { hProcess : Z; hThread : Z }.

Record result := {
  value : Z;              (* [(int) exitcode] *)
  returned_at : Z;        (* the time at which [gvd_waitpid] returns *)
  calls : list call
}.

(** The cast [(int) exitcode] of a 32-bit [DWORD]: the codes from 2^31
    on come out negative. *)
Definition as_int (exitcode : Z) : Z :=
  let d := exitcode mod 2 ^ 32 in
  if d <? 2 ^ 31 then d else d - 2 ^ 32.

(** [gvd_waitpid], called at time [now]. *)
Definition gvd_waitpid (procinfo : PROCESS_INFORMATION) (p : process)
  (now : Z) : option result :=
  let proc_hand := hProcess procinfo in
  match WaitForSingleObject p now 0 with
  | None => None
  | Some (res, now) =>
    let exitcode := GetExitCodeProcess p now in
    Some {| value := as_int exitcode;
            returned_at := now;
            calls := [Call_WaitForSingleObject proc_hand 0;
                      Call_GetExitCodeProcess proc_hand;
                      Call_CloseHandle (hThread procinfo);
                      Call_CloseHandle (hProcess procinfo)] |}
  end.

(** A child that runs for one second and exits with code 7. *)
Definition one_second : process := {| exits_at := Some 1000; exit_code := 7 |}.

(** A child that has ended on an access violation. *)
Definition STATUS_ACCESS_VIOLATION : Z := 0xC0000005.
Definition crashed : process :=
  {| exits_at := Some 0; exit_code := STATUS_ACCESS_VIOLATION |}.

End Win.

End Reap.

(* ================================================================== *)
(** * allocate_pty_desc and gvd_new_tty                                *)
(* ================================================================== *)

Module Pty.

(** The method compiled in, or none. *)
Inductive method :=
| USE_GETPT
| USE_OPENPTY
| USE_GETPTY
| USE_CLONE_DEVICE
| Not_configured.

(** What the system answers to the calls of [allocate_pty_desc]. *)
Record system := {
  configured : method;
  getpt : Z;                               (* master fd, or -1 *)
  openpty : Z * Z * Z;                     (* status, master, slave *)
  _getpty : option cstring * Z;            (* slave name, master fd *)
  open_clone : Z;                          (* master fd, or -1 *)
  ptsname : Z -> option cstring;           (* by master fd *)
  malloc : Z                               (* a fresh address *)
}.

Record term_handler := {
  master_fd : Z;
  slave_fd : Z;
  slave_name : cstring;
  child_pid : Z
}.

(** Pointers are addresses, 0 the null pointer; the heap holds the
    structures that were allocated. *)
Definition NULL : Z := 0.
Definition heap := Z -> option term_handler.
Definition empty_heap : heap := fun _ => None.
Definition alloc (m : heap) (p : Z) (t : term_handler) : heap :=
  fun q => if q =? p then Some t else m q.

Inductive event :=
| Printf (msg : string)
| Close (fd : Z)
| Grantpt (fd : Z)
| Unlockpt (fd : Z)
| Child_setup_tty (fd : Z).

(** The bounded copy of the slave name: [strncpy] into the 32 bytes of
    [slave_name], then a NUL in the last one. *)
Definition copy_name (name : cstring) : cstring := firstn 31 name.

Definition close_if_open (fd : Z) : list event :=
  if 0 <=? fd then [Close fd] else [].

(** [allocate_pty_desc (&desc)]: the status, the value of [desc]
    afterwards ([desc0] is what it held before), the heap, the calls. *)
Definition allocate_pty_desc (sys : system) (desc0 : Z)
  : Z * Z * heap * list event :=
  let '(configured_ok, status, master_fd, slave_fd, slave_name) :=
    match configured sys with
    | USE_GETPT => (true, 0, getpt sys, -1, None)
    | USE_OPENPTY =>
      let '(st, m, s) := openpty sys in (true, st, m, s, None)
    | USE_GETPTY =>
      let '(name, m) := _getpty sys in
      (true, match name with None => -1 | Some _ => 0 end, m, -1, name)
    | USE_CLONE_DEVICE => (true, 0, open_clone sys, -1, None)
    | Not_configured => (false, 0, -1, -1, None)
    end in
  if negb configured_ok then
    (-1, desc0, empty_heap,
     [Printf "[error]: terminal support is not configured"])
  else if negb (status =? 0) || (master_fd <? 0) then
    (-1, NULL, empty_heap,
     Printf "[error]: cannot allocate master side of the pty"
     :: close_if_open master_fd ++ close_if_open slave_fd)
  else
    let slave_name :=
      match slave_name with
      | None => ptsname sys master_fd
      | Some n => Some n
      end in
    match slave_name with
    | None =>
      (-1, NULL, empty_heap,
       Printf "[error]: cannot allocate slave side of the pty"
       :: close_if_open master_fd ++ close_if_open slave_fd)
    | Some name =>
      let result := malloc sys in
      (0, result,
       alloc empty_heap result
             {| master_fd := master_fd; slave_fd := slave_fd;
                slave_name := copy_name name; child_pid := -1 |},
       [Grantpt master_fd; Unlockpt master_fd])
    end.

(** How a call ends: it returns, or it reads through a pointer that
    points to no structure. *)
Inductive outcome (A : Type) :=
| Returns (a : A)
| Invalid_read (pointer : Z).
Arguments Returns {A} a.
Arguments Invalid_read {A} pointer.

(** [desc->master_fd] *)
Definition read_master_fd (m : heap) (desc : Z) : outcome Z :=
  if desc =? NULL then Invalid_read NULL
  else match m desc with
       | Some t => Returns (master_fd t)
       | None => Invalid_read desc
       end.

(** [gvd_new_tty]: the outcome and the calls made.  [desc0] is what the
    automatic variable [desc] holds on entry.  [child_setup_tty] is
    called for its effect on the terminal; its value is dropped. *)
Definition gvd_new_tty (sys : system) (desc0 : Z)
  : outcome Z * list event :=
  let '(status, desc, m, evs) := allocate_pty_desc sys desc0 in
  match read_master_fd m desc with
  | Invalid_read p => (Invalid_read p, evs)
  | Returns fd => (Returns desc, evs ++ [Child_setup_tty fd])
  end.

(** A Linux system that is out of ptys: [getpt] fails. *)
Definition out_of_ptys : system :=
  {| configured := USE_GETPT;
     getpt := -1;
     openpty := (-1, -1, -1);
     _getpty := (None, -1);
     open_clone := -1;
     ptsname := fun _ => None;
     malloc := 4096 |}.

End Pty.

(* ================================================================== *)
(** * winlow.c: forced deletion through the NT native API              *)
(* ================================================================== *)

Module WinLow.

(** An [NTSTATUS] is a signed 32-bit [LONG]; the error codes of
    ntstatus.h have the top bit set. *)
Definition NTSTATUS := Z.
Definition ntstatus (code : Z) : NTSTATUS :=
  if code <? 2 ^ 31 then code else code - 2 ^ 32.

Definition NT_SUCCESS (status : NTSTATUS) : bool := 0 <=? status.

Definition STATUS_SUCCESS : NTSTATUS := 0.
Definition STATUS_NO_MORE_FILES : NTSTATUS := ntstatus 0x80000006.
Definition STATUS_OBJECT_NAME_NOT_FOUND : NTSTATUS := ntstatus 0xC0000034.
Definition STATUS_OBJECT_PATH_NOT_FOUND : NTSTATUS := ntstatus 0xC000003A.
Definition STATUS_SHARING_VIOLATION : NTSTATUS := ntstatus 0xC0000043.
Definition STATUS_DELETE_PENDING : NTSTATUS := ntstatus 0xC0000056.
Definition STATUS_DIRECTORY_NOT_EMPTY : NTSTATUS := ntstatus 0xC0000101.
Definition STATUS_CANNOT_DELETE : NTSTATUS := ntstatus 0xC0000121.

(** Access rights, share modes, open options, attributes. *)
Definition DELETE : Z := 0x00010000.
Definition SYNCHRONIZE : Z := 0x00100000.
Definition FILE_LIST_DIRECTORY : Z := 0x0001.
Definition FILE_WRITE_ATTRIBUTES : Z := 0x0100.
Definition FILE_SHARE_DELETE : Z := 0x4.
Definition FILE_SHARE_VALID_FLAGS : Z := 0x7.
Definition FILE_SYNCHRONOUS_IO_NONALERT : Z := 0x00000020.
Definition FILE_DELETE_ON_CLOSE : Z := 0x00001000.
Definition FILE_OPEN_FOR_BACKUP_INTENT : Z := 0x00004000.
Definition FILE_ATTRIBUTE_READONLY : Z := 0x1.
Definition FILE_ATTRIBUTE_DIRECTORY : Z := 0x10.
Definition OBJ_CASE_INSENSITIVE : Z := 0x40.

(** Wide strings are lists of 16-bit code units. *)
Definition wstring := list Z.
Definition L (s : string) : wstring :=
  map (fun c => Z.of_N (N_of_ascii c)) (list_ascii_of_string s).

Definition digit_image : wstring := L "0123456789ABCDEF".
Definition trash_dir : wstring := L "tmp\trash\".
Definition Empty_Unicode_String : wstring := [].

(** [OBJECT_ATTRIBUTES]: a name, the attributes, and the handle the
    name is relative to (if any). *)
Record OBJECT_ATTRIBUTES := {
  ObjectName : wstring;
  Attributes : Z;
  RootDirectory : option Z
}.

(** The system calls of the module, with the arguments that matter. *)
Inductive syscall :=
| NtQueryAttributesFile (attr : OBJECT_ATTRIBUTES)
| NtOpenFile (access : Z) (attr : OBJECT_ATTRIBUTES) (share flags : Z)
| NtClose (handle : Z)
| SetBasicInformation (handle : Z) (FileAttributes : Z)
| SetDispositionInformation (handle : Z) (DeleteFile : bool)
| SetRenameInformation (handle : Z) (ReplaceIfExists : bool)
                       (FileName : wstring)
| QueryInternalInformation (handle : Z)
| NtQueryDirectoryFile (handle : Z) (RestartScan : bool)
| GetVolumePathNameW (lpszFileName : wstring)
| Sleep (ms : Z)
| printf_rename_failed (from dest : wstring) (status : NTSTATUS).

(** What a call gives back: its status and, by the call, the file
    attributes, the handle opened, the index number of the file, a page
    of directory entries (never empty when the call succeeds), the
    volume path. *)
Record answer := {
  status_of : NTSTATUS;
  FileAttributes_of : Z;
  handle_of : Z;
  IndexNumber_of : Z;
  first_entry_of : wstring;
  next_entries_of : list wstring;
  volume_of : wstring
}.

(** The system: what it answers to the [n]-th call, given the call. *)
Definition system := nat -> syscall -> answer.

(** The calls made so far with their answers, the most recent first. *)
Definition log := list (syscall * answer).

(** Computations that call the system and may not terminate within the
    pages of directory listing they are allowed. *)
Definition run (A : Type) := log -> option (A * log).

Definition ret {A} (a : A) : run A := fun l => Some (a, l).

Definition bind {A B} (m : run A) (k : A -> run B) : run B :=
  fun l => match m l with
           | Some (a, l') => k a l'
           | None => None
           end.

Definition out_of_pages {A} : run A := fun _ => None.

Declare Scope run_scope.
Delimit Scope run_scope with run.
Notation "x <- m ;; k" := (bind m (fun x => k))
  (at level 100, m at next level, right associativity) : run_scope.
Notation "m ;;; k" := (bind m (fun _ => k))
  (at level 100, right associativity) : run_scope.
Local Open Scope run_scope.

(** ** The arrays of move_away

    [filename.Length] counts bytes, and a [WCHAR] is two bytes wide.
    [memcpy] copies [filename.Length] bytes, which is the characters of
    the name; the terminator is then stored at the index
    [filename.Length] of an array of [MAX_PATH] characters. *)

Definition MAX_PATH : nat := 260.
Definition sizeof_WCHAR : nat := 2.

(** [UNICODE_STRING.Length] of a name, as [py_safe_unlink] sets it. *)
Definition Length (name : wstring) : nat := length name * sizeof_WCHAR.

(** A store into an array of [MAX_PATH] characters. *)
Inductive stored :=
| Stored (buffer : wstring)
| Out_of_bounds (index : nat).

(** [memcpy (from_buffer, filename.Buffer, filename.Length)], then
    [from_buffer[filename.Length] = 0].  [stack] is what the array
    holds on entry. *)
Definition fill_from_buffer (stack : wstring) (filename : wstring)
  : stored :=
  let copied := (Length filename / sizeof_WCHAR)%nat in
  if (MAX_PATH <? copied)%nat then Out_of_bounds MAX_PATH
  else
    let from_buffer :=
      firstn copied filename ++ skipn copied stack in
    let terminator := Length filename in
    if (terminator <? MAX_PATH)%nat then
      Stored (firstn terminator from_buffer ++ 0
              :: skipn (S terminator) from_buffer)
    else Out_of_bounds terminator.

(** The string that starts at a place of a buffer: up to the first
    zero. *)
Fixpoint string_at (buffer : wstring) : wstring :=
  match buffer with
  | [] => []
  | c :: rest => if c =? 0 then [] else c :: string_at rest
  end.

(** [from_buffer + 4], the name given to [GetVolumePathNameW]. *)
Definition volume_query (from_buffer : wstring) : wstring :=
  string_at (skipn 4 from_buffer).

(** A zero is found from a place of a buffer on. *)
Definition terminated (buffer : wstring) : bool := existsb (Z.eqb 0) buffer.

(** [sizeof (trash_dir)] in characters: the terminator counts. *)
Definition sizeof_trash_dir : nat := S (length trash_dir).

(** The function left one of its arrays: the model follows it no
    further. *)
Definition out_of_bounds {A} : run A := fun _ => None.

Section Calls.

Variable os : system.

(** What the array [from_buffer] of [move_away] holds when the function
    is entered; [safe_unlink] calls [move_away] once at most. *)
Variable stack : wstring.

Definition call (c : syscall) : run answer :=
  fun l => let a := os (length l) c in Some (a, (c, a) :: l).

(** ** move_away *)

(** The sixteen hexadecimal digits of [file_id], written from the last
    position back: [digit_image[file_id & 0xF]], then [file_id >>= 4]. *)
Fixpoint file_id_digits (n : nat) (file_id : Z) (written : wstring)
  : wstring :=
  match n with
  | O => written
  | S n' =>
    file_id_digits n' (Z.shiftr file_id 4)
                   (nth (Z.to_nat (Z.land file_id 0xF)) digit_image 0
                    :: written)
  end.

(** [move_away (h, filename)].  [from_buffer] is filled as above from
    what the stack held; [GetVolumePathNameW] reads the string at
    [from_buffer + 4], and the function leaves the array when no zero
    follows.  The value of the call is not looked at: [root_dir] is the
    string that [wcslen] finds in the array after it.  [dest_buffer]
    receives the four characters of the prefix, [root_dir], the eleven
    characters of [trash_dir] (its terminator is copied too), and later
    the sixteen digits and a terminator. *)
Definition move_away (h : Z) (filename : wstring) : run NTSTATUS :=
  match fill_from_buffer stack filename with
  | Out_of_bounds _ => out_of_bounds
  | Stored from_buffer =>
    if negb (terminated (skipn 4 from_buffer)) then out_of_bounds
    else
      vol <- call (GetVolumePathNameW (volume_query from_buffer)) ;;
      let root_dir := volume_of vol in
      let dest := L "\??\" ++ root_dir in
      if (MAX_PATH <? length dest + sizeof_trash_dir)%nat then out_of_bounds
      else
        let dest := dest ++ trash_dir in
        info <- call (QueryInternalInformation h) ;;
        if negb (NT_SUCCESS (status_of info)) then ret (status_of info)
        else
          if (MAX_PATH <=? length dest + 16)%nat then out_of_bounds
          else
            let dest := dest ++ file_id_digits 16 (IndexNumber_of info) [] in
            ren <- call (SetRenameInformation h true dest) ;;
            if negb (NT_SUCCESS (status_of ren)) then
              call (printf_rename_failed filename dest (status_of ren)) ;;;
              ret (status_of ren)
            else ret STATUS_SUCCESS
  end.

(** ** is_dir_empty *)

Definition is_absent (status : NTSTATUS) : bool :=
  (status =? STATUS_DELETE_PENDING)
  || (status =? STATUS_OBJECT_NAME_NOT_FOUND)
  || (status =? STATUS_OBJECT_PATH_NOT_FOUND).

(** The inner [do ... while (fni_offset != 0)]: the entries from the
    cursor to the end of the page.  [true] when one of them is there,
    which is where the function returns [STATUS_DIRECTORY_NOT_EMPTY]. *)
Fixpoint entries_loop (h : Z) (cursor : wstring) (following : list wstring)
  : run bool :=
  r <- call (NtQueryAttributesFile
               {| ObjectName := cursor; Attributes := 0;
                  RootDirectory := Some h |}) ;;
  if negb (is_absent (status_of r)) then ret true
  else
    match following with
    | [] => ret false
    | next :: following' => entries_loop h next following'
    end.

(** The outer [do ... while (NT_SUCCESS (status))]: one page, then the
    next call to [NtQueryDirectoryFile].  At most [pages] pages. *)
Fixpoint pages_loop (pages : nat) (h : Z) (cursor : wstring)
  (following : list wstring) : run NTSTATUS :=
  match pages with
  | O => out_of_pages
  | S pages' =>
    found <- entries_loop h cursor following ;;
    if found : bool then ret STATUS_DIRECTORY_NOT_EMPTY
    else
      r <- call (NtQueryDirectoryFile h false) ;;
      if NT_SUCCESS (status_of r)
      then pages_loop pages' h (first_entry_of r) (next_entries_of r)
      else ret STATUS_SUCCESS
  end.

(** [is_dir_empty (h)].  [NextEntryOffset] of an entry is 0 exactly
    when it is the last of its page. *)
Definition is_dir_empty (pages : nat) (h : Z) : run NTSTATUS :=
  r <- call (NtQueryDirectoryFile h true) ;;
  let status := status_of r in
  if status =? STATUS_NO_MORE_FILES then ret STATUS_SUCCESS
  else if negb (NT_SUCCESS status) then ret status
  else
    match next_entries_of r with
    | [] => ret STATUS_SUCCESS
    | [_] => ret STATUS_SUCCESS
    | _ :: third :: following => pages_loop pages h third following
    end.

(** ** safe_unlink *)

Record UNLINK_RESULT := { last_error_code : NTSTATUS; debug : Z }.

(** The automatic variables of [safe_unlink] that outlive a loop. *)
Record locals := {
  status : NTSTATUS;
  handle : Z;
  share : Z;
  access : Z;
  flags : Z;
  is_dir : bool;
  dir_empty : bool;
  try_to_move_away : bool;
  has_been_moved_away : bool;
  try_again : bool
}.

Definition with_status (v : locals) (s : NTSTATUS) : locals :=
  {| status := s; handle := handle v; share := share v;
     access := access v; flags := flags v; is_dir := is_dir v;
     dir_empty := dir_empty v; try_to_move_away := try_to_move_away v;
     has_been_moved_away := has_been_moved_away v;
     try_again := try_again v |}.

(** A loop ends in a [return] of the function, or goes on. *)
Inductive flow :=
| Return (r : UNLINK_RESULT)
| Go_on (v : locals).

(** The [while (try_counter > 0)] loop that opens the file. *)
Fixpoint open_loop (try_counter : nat) (attr : OBJECT_ATTRIBUTES)
  (v : locals) : run flow :=
  match try_counter with
  | O => ret (Go_on v)
  | S remaining =>
    r <- call (NtOpenFile (access v) attr (share v) (flags v)) ;;
    let status := status_of r in
    let handle := if NT_SUCCESS status then handle_of r else handle v in
    if status =? STATUS_SHARING_VIOLATION then
      if (try_counter <? 2)%nat then
        ret (Return {| last_error_code := status; debug := 0x4 |})
      else
        call (Sleep 5) ;;;
        open_loop remaining attr
          {| status := status; handle := handle;
             share := FILE_SHARE_VALID_FLAGS;
             access := access v; flags := flags v; is_dir := is_dir v;
             dir_empty := dir_empty v; try_to_move_away := true;
             has_been_moved_away := has_been_moved_away v;
             try_again := try_again v |}
    else if status =? STATUS_DELETE_PENDING then
      ret (Return {| last_error_code := STATUS_SUCCESS; debug := 0x2 |})
    else if negb (NT_SUCCESS status) then
      ret (Return {| last_error_code := status; debug := 0x3 |})
    else
      ret (Go_on {| status := status; handle := handle; share := share v;
                    access := access v; flags := flags v;
                    is_dir := is_dir v; dir_empty := dir_empty v;
                    try_to_move_away := try_to_move_away v;
                    has_been_moved_away := has_been_moved_away v;
                    try_again := try_again v |})
  end.

(** The block [if (try_to_move_away) { ... }]. *)
Definition move_block (pages : nat) (name : wstring) (v : locals)
  : run locals :=
  if try_to_move_away v then
    st <- (if is_dir v then is_dir_empty pages (handle v)
           else ret (status v)) ;;
    if NT_SUCCESS st then
      st <- move_away (handle v) name ;;
      ret {| status := st; handle := handle v; share := share v;
             access := access v; flags := flags v; is_dir := is_dir v;
             dir_empty := dir_empty v;
             try_to_move_away := try_to_move_away v;
             has_been_moved_away :=
               if NT_SUCCESS st then true else has_been_moved_away v;
             try_again := try_again v |}
    else ret (with_status v st)
  else ret v.

(** The [while (try_counter > 0 && try_again)] loop that deletes. *)
Fixpoint delete_loop (pages : nat) (try_counter : nat) (name : wstring)
  (v : locals) : run locals :=
  match try_counter with
  | O => ret v
  | S remaining =>
    if negb (try_again v) then ret v
    else
      r <- call (SetDispositionInformation (handle v) true) ;;
      let st := status_of r in
      v <- (if st =? STATUS_DIRECTORY_NOT_EMPTY then
              empty <- (if negb (dir_empty v)
                        then e <- is_dir_empty pages (handle v) ;;
                             ret (NT_SUCCESS e)
                        else ret (dir_empty v)) ;;
              ret {| status := st; handle := handle v; share := share v;
                     access := access v; flags := flags v;
                     is_dir := is_dir v; dir_empty := empty;
                     try_to_move_away := try_to_move_away v;
                     has_been_moved_away := has_been_moved_away v;
                     try_again := if negb empty then false
                                  else try_again v |}
            else if st =? STATUS_CANNOT_DELETE then
              moved <- (if negb (try_to_move_away v)
                        then s <- move_away (handle v) name ;;
                             ret (if NT_SUCCESS s then true
                                  else has_been_moved_away v)
                        else ret (has_been_moved_away v)) ;;
              r2 <- call (NtOpenFile (access v)
                            {| ObjectName := Empty_Unicode_String;
                               Attributes := OBJ_CASE_INSENSITIVE;
                               RootDirectory := Some (handle v) |}
                            (share v)
                            (Z.lor (flags v) FILE_DELETE_ON_CLOSE)) ;;
              (if NT_SUCCESS (status_of r2)
               then call (NtClose (handle_of r2)) ;;; ret tt
               else ret tt) ;;;
              ret {| status := status_of r2; handle := handle v;
                     share := share v; access := access v;
                     flags := flags v; is_dir := is_dir v;
                     dir_empty := dir_empty v; try_to_move_away := true;
                     has_been_moved_away := moved;
                     try_again := try_again v |}
            else
              ret {| status := st; handle := handle v; share := share v;
                     access := access v; flags := flags v;
                     is_dir := is_dir v; dir_empty := dir_empty v;
                     try_to_move_away := try_to_move_away v;
                     has_been_moved_away := has_been_moved_away v;
                     try_again := if negb (NT_SUCCESS st) then false
                                  else try_again v |}) ;;
      if negb (NT_SUCCESS (status v)) && try_again v then
        call (Sleep 5) ;;;
        delete_loop pages remaining name v
      else
        ret {| status := status v; handle := handle v; share := share v;
               access := access v; flags := flags v; is_dir := is_dir v;
               dir_empty := dir_empty v;
               try_to_move_away := try_to_move_away v;
               has_been_moved_away := has_been_moved_away v;
               try_again := false |}
  end.

(** The end of [safe_unlink], from [try_counter = 20] on. *)
Definition finish (pages : nat) (name : wstring) (v : locals)
  : run UNLINK_RESULT :=
  let try_counter := if has_been_moved_away v then 5%nat else 20%nat in
  v <- (if NT_SUCCESS (status v)
        then delete_loop pages try_counter name v
        else ret v) ;;
  call (NtClose (handle v)) ;;;
  if has_been_moved_away v && negb (NT_SUCCESS (status v))
  then ret {| last_error_code := STATUS_SUCCESS; debug := 0x6 |}
  else ret {| last_error_code := status v; debug := 0 |}.

(** The variables as the open loop finds them.  The [if] on
    [FILE_ATTRIBUTE_DIRECTORY] has no braces: it governs the assignment
    to [is_dir] alone, and the two assignments after it are made for
    every target.  [handle] is not initialised; it is only used after an
    open that succeeded. *)
Definition before_open (FileAttributes : Z) (status : NTSTATUS)
  (handle : Z) : locals :=
  let access := DELETE in
  let flags := FILE_OPEN_FOR_BACKUP_INTENT in
  let is_dir :=
    negb (Z.land FILE_ATTRIBUTE_DIRECTORY FileAttributes =? 0) in
  let access := Z.lor (Z.lor access FILE_LIST_DIRECTORY) SYNCHRONIZE in
  let flags := Z.lor flags FILE_SYNCHRONOUS_IO_NONALERT in
  {| status := status; handle := handle; share := FILE_SHARE_DELETE;
     access := access; flags := flags; is_dir := is_dir;
     dir_empty := false; try_to_move_away := false;
     has_been_moved_away := false; try_again := true |}.

(** From the open loop to the end. *)
Definition open_and_delete (pages : nat) (name : wstring)
  (attr : OBJECT_ATTRIBUTES) (v : locals) : run UNLINK_RESULT :=
  f <- open_loop 10 attr v ;;
  match f with
  | Return r => ret r
  | Go_on v =>
    v <- move_block pages name v ;;
    finish pages name v
  end.

(** [safe_unlink (name)]. *)
Definition safe_unlink (pages : nat) (name : wstring) : run UNLINK_RESULT :=
  let attr := {| ObjectName := name; Attributes := OBJ_CASE_INSENSITIVE;
                 RootDirectory := None |} in
  let flags := FILE_OPEN_FOR_BACKUP_INTENT in
  q <- call (NtQueryAttributesFile attr) ;;
  if negb (NT_SUCCESS (status_of q)) then
    ret {| last_error_code := status_of q; debug := 0x1 |}
  else if negb (Z.land FILE_ATTRIBUTE_READONLY (FileAttributes_of q) =? 0)
  then
    o <- call (NtOpenFile FILE_WRITE_ATTRIBUTES attr
                          FILE_SHARE_VALID_FLAGS flags) ;;
    if NT_SUCCESS (status_of o) then
      call (SetBasicInformation
              (handle_of o)
              (Z.land (FileAttributes_of q)
                      (Z.lnot FILE_ATTRIBUTE_READONLY))) ;;;
      call (NtClose (handle_of o)) ;;;
      q2 <- call (NtQueryAttributesFile attr) ;;
      if negb (NT_SUCCESS (status_of q2)) then
        ret {| last_error_code := status_of q2; debug := 0x1 |}
      else
        open_and_delete pages name attr
          (before_open (FileAttributes_of q2) (status_of q2) (handle_of o))
    else
      open_and_delete pages name attr
        (before_open (FileAttributes_of q) (status_of o) 0)
  else
    open_and_delete pages name attr
      (before_open (FileAttributes_of q) (status_of q) 0).

End Calls.

(** The calls of a run in the order they were made. *)
Definition calls_of (l : log) : list syscall := rev (map fst l).

(** A successful rename is in the log: the file has been moved. *)
Definition renamed (e : syscall * answer) : bool :=
  match fst e with
  | SetRenameInformation _ _ _ => NT_SUCCESS (status_of (snd e))
  | _ => false
  end.

Definition is_rename (c : syscall) : bool :=
  match c with
  | SetRenameInformation _ _ _ => true
  | _ => false
  end.

(** The attempts to delete: setting the delete disposition, and opening
    with [FILE_DELETE_ON_CLOSE]. *)
Definition is_delete_attempt (c : syscall) : bool :=
  match c with
  | SetDispositionInformation _ _ => true
  | NtOpenFile _ _ _ flags => Z.testbit flags 12
  | _ => false
  end.

(** The status of the most recent attempt to delete, if any. *)
Definition last_delete_status (l : log) : option NTSTATUS :=
  match find (fun e => is_delete_attempt (fst e)) l with
  | Some e => Some (status_of (snd e))
  | None => None
  end.

(** The status of the most recent [SetDispositionInformation], if
    any. *)
Definition is_disposition (c : syscall) : bool :=
  match c with
  | SetDispositionInformation _ _ => true
  | _ => false
  end.

Definition last_disposition_status (l : log) : option NTSTATUS :=
  match find (fun e => is_disposition (fst e)) l with
  | Some e => Some (status_of (snd e))
  | None => None
  end.

(** Neither a rename nor an attempt to delete. *)
Definition neutral (e : syscall * answer) : bool :=
  negb (is_rename (fst e)) && negb (is_delete_attempt (fst e)).

(** A rename, if that is what the call is, is made through [h]. *)
Definition rename_on (h : Z) (e : syscall * answer) : bool :=
  match fst e with
  | SetRenameInformation h' _ _ => h' =? h
  | _ => true
  end.

(** A stretch of the log is quiet when it holds no rename and no
    attempt to delete. *)
Definition quiet (new : log) : Prop :=
  Forall (fun e => neutral e = true) new.

(** The variables and the log agree: [has_been_moved_away] is set
    exactly when a rename succeeded, and every rename went through
    [handle]. *)
Definition sound (v : locals) (l : log) : Prop :=
  has_been_moved_away v = existsb renamed l
  /\ forallb (rename_on (handle v)) l = true.

(** A computation returns: from every log it gives a result. *)
Definition returns {A} (m : run A) : Prop :=
  forall l, exists a l', m l = Some (a, l').

(** The arrays of [move_away] are large enough: the terminator of the
    name falls inside [from_buffer], a zero follows [from_buffer + 4],
    and the volume paths leave room in [dest_buffer] for the prefix,
    the trash directory, the sixteen digits and a terminator. *)
Definition fits (os : system) (stack name : wstring) : Prop :=
  (exists from_buffer,
      fill_from_buffer stack name = Stored from_buffer
      /\ terminated (skipn 4 from_buffer) = true)
  /\ forall n c,
      (length (L "\??\") + length (volume_of (os n c))
       + length trash_dir + 16 < MAX_PATH)%nat.

(** The listing of a directory fits in one page: the call that asks
    for the next page never succeeds. *)
Definition single_page (os : system) : Prop :=
  forall n h,
    NT_SUCCESS (status_of (os n (NtQueryDirectoryFile h false))) = false.

Definition is_listing (c : syscall) : bool :=
  match c with
  | NtQueryDirectoryFile _ _ => true
  | _ => false
  end.

(** ** Systems to try the functions on *)

Definition sample_name : wstring := L "\??\C:\t\d".

(** What an earlier call left where [from_buffer] comes to lie. *)
Definition stale_stack : wstring := repeat 0xCCCC MAX_PATH.

Definition STATUS_ACCESS_DENIED : NTSTATUS := ntstatus 0xC0000022.
Definition FILE_ATTRIBUTE_NORMAL : Z := 0x80.

Definition answers (st : NTSTATUS) : answer :=
  {| status_of := st; FileAttributes_of := 0; handle_of := 0;
     IndexNumber_of := 0; first_entry_of := []; next_entries_of := [];
     volume_of := [] |}.

Definition with_attributes (a : Z) : answer :=
  {| status_of := STATUS_SUCCESS; FileAttributes_of := a; handle_of := 0;
     IndexNumber_of := 0; first_entry_of := []; next_entries_of := [];
     volume_of := [] |}.

Definition with_handle (h : Z) : answer :=
  {| status_of := STATUS_SUCCESS; FileAttributes_of := 0; handle_of := h;
     IndexNumber_of := 0; first_entry_of := []; next_entries_of := [];
     volume_of := [] |}.

Definition with_index (i : Z) : answer :=
  {| status_of := STATUS_SUCCESS; FileAttributes_of := 0; handle_of := 0;
     IndexNumber_of := i; first_entry_of := []; next_entries_of := [];
     volume_of := [] |}.

Definition with_page (first : wstring) (next : list wstring) : answer :=
  {| status_of := STATUS_SUCCESS; FileAttributes_of := 0; handle_of := 0;
     IndexNumber_of := 0; first_entry_of := first; next_entries_of := next;
     volume_of := [] |}.

Definition with_volume (v : wstring) : answer :=
  {| status_of := STATUS_SUCCESS; FileAttributes_of := 0; handle_of := 0;
     IndexNumber_of := 0; first_entry_of := []; next_entries_of := [];
     volume_of := v |}.

(** An ordinary file that nothing holds open. *)
Definition plain_file : system :=
  fun _ c =>
    match c with
    | NtQueryAttributesFile _ => with_attributes FILE_ATTRIBUTE_NORMAL
    | NtOpenFile _ _ _ _ => with_handle 5
    | _ => answers STATUS_SUCCESS
    end.

(** A read-only directory that holds a file [x]: the read-only
    attribute cannot be cleared (the open for [FILE_WRITE_ATTRIBUTES]
    is denied), the directory opens for [DELETE], and the file system
    refuses to mark it for deletion with [STATUS_CANNOT_DELETE]. *)
Definition full_directory : system :=
  fun _ c =>
    match c with
    | NtQueryAttributesFile attr =>
      match RootDirectory attr with
      | None =>
        with_attributes
          (Z.lor FILE_ATTRIBUTE_DIRECTORY FILE_ATTRIBUTE_READONLY)
      | Some _ => with_attributes FILE_ATTRIBUTE_NORMAL
      end
    | NtOpenFile access _ _ flags =>
      if access =? FILE_WRITE_ATTRIBUTES then answers STATUS_ACCESS_DENIED
      else if Z.testbit flags 12 then answers STATUS_CANNOT_DELETE
      else with_handle 5
    | SetDispositionInformation _ _ => answers STATUS_CANNOT_DELETE
    | NtQueryDirectoryFile _ restart =>
      if restart then with_page (L ".") [L ".."; L "x"]
      else answers STATUS_NO_MORE_FILES
    | GetVolumePathNameW _ => with_volume (L "C:\")
    | QueryInternalInformation _ => with_index 0x1234
    | _ => answers STATUS_SUCCESS
    end.

(** A file that another process holds open without sharing it for
    deletion, and that cannot be marked for deletion either. *)
Definition busy_file : system :=
  fun _ c =>
    match c with
    | NtQueryAttributesFile _ => with_attributes FILE_ATTRIBUTE_NORMAL
    | NtOpenFile _ _ share _ =>
      if share =? FILE_SHARE_VALID_FLAGS then with_handle 5
      else answers STATUS_SHARING_VIOLATION
    | SetDispositionInformation _ _ => answers STATUS_ACCESS_DENIED
    | GetVolumePathNameW _ => with_volume (L "C:\")
    | QueryInternalInformation _ => with_index 0x1234
    | _ => answers STATUS_SUCCESS
    end.

(** A file that cannot be marked for deletion, and that the system
    lets open again with [FILE_DELETE_ON_CLOSE]. *)
Definition reopened_file : system :=
  fun _ c =>
    match c with
    | NtQueryAttributesFile _ => with_attributes FILE_ATTRIBUTE_NORMAL
    | NtOpenFile _ _ _ flags =>
      if Z.testbit flags 12 then with_handle 6 else with_handle 5
    | SetDispositionInformation _ _ => answers STATUS_CANNOT_DELETE
    | GetVolumePathNameW _ => with_volume (L "C:\")
    | QueryInternalInformation _ => with_index 0x1234
    | _ => answers STATUS_SUCCESS
    end.

(** A directory whose listing comes back with two entries, of names
    that are not the dot entries. *)
Definition two_entries : system :=
  fun _ c =>
    match c with
    | NtQueryDirectoryFile _ _ => with_page (L "a") [L "b"]
    | _ => answers STATUS_SUCCESS
    end.

End WinLow.

(* ================================================================== *)
(** * winlow.c: the names in the trash directory, the Python entry     *)
(* ================================================================== *)

Module WinLowRuns.
Import WinLow.
Local Open Scope run_scope.

(** ** Reading the sixteen digits back *)

(** The position of a character in an image of the digits. *)
Fixpoint index_of (c : Z) (image : wstring) : option nat :=
  match image with
  | [] => None
  | d :: image' =>
    if d =? c then Some O else option_map S (index_of c image')
  end.

(** The value of a digit: its position in [digit_image]. *)
Definition digit_value (c : Z) : option Z :=
  option_map Z.of_nat (index_of c digit_image).

(** The number a string of digits stands for, the most significant
    digit first; [None] when a character is not a digit. *)
Fixpoint hex_value_from (acc : Z) (s : wstring) : option Z :=
  match s with
  | [] => Some acc
  | c :: s' =>
    match digit_value c with
    | Some d => hex_value_from (16 * acc + d) s'
    | None => None
    end
  end.

Definition hex_value (s : wstring) : option Z := hex_value_from 0 s.

(** ** What a log holds *)

(** The milliseconds asked of [Sleep]. *)
Definition slept_ms (l : log) : Z :=
  fold_right (fun e ms => match fst e with
                          | Sleep n => n + ms
                          | _ => ms
                          end) 0 l.

(** The arguments of the calls to [Sleep], the most recent first. *)
Definition sleeps (l : log) : list Z :=
  flat_map (fun e => match fst e with
                     | Sleep n => [n]
                     | _ => []
                     end) l.

(** A computation asks for sleeps of 5 ms only. *)
Definition steady {A} (m : run A) : Prop :=
  forall l a l',
    m l = Some (a, l') ->
    Forall (fun ms => ms = 5) (sleeps l) ->
    Forall (fun ms => ms = 5) (sleeps l').

(** The handles that [NtOpenFile] gave out, the most recent first. *)
Definition opened (l : log) : list Z :=
  flat_map (fun e => match fst e with
                     | NtOpenFile _ _ _ _ =>
                       if NT_SUCCESS (status_of (snd e))
                       then [handle_of (snd e)] else []
                     | _ => []
                     end) l.

(** The handles given to [NtClose], the most recent first. *)
Definition closed (l : log) : list Z :=
  flat_map (fun e => match fst e with
                     | NtClose h => [h]
                     | _ => []
                     end) l.

(** The number of renames asked for, granted or not. *)
Definition renames (l : log) : nat :=
  length (filter (fun e => is_rename (fst e)) l).

(** A call that only reads the directory open as [h]: a listing of
    [h], or a query of the attributes of a name relative to [h]. *)
Definition reads_through (h : Z) (c : syscall) : bool :=
  match c with
  | NtQueryDirectoryFile h' _ => h' =? h
  | NtQueryAttributesFile attr =>
    match RootDirectory attr with
    | Some h' => h' =? h
    | None => false
    end
  | _ => false
  end.

Definition reads (h : Z) (new : log) : Prop :=
  Forall (fun e => reads_through h (fst e) = true) new.

(** The answers to the attribute queries of a stretch of the log. *)
Definition lookups (new : log) : list NTSTATUS :=
  flat_map (fun e => match fst e with
                     | NtQueryAttributesFile _ => [status_of (snd e)]
                     | _ => []
                     end) new.

(** The moves that [safe_unlink] may still make: one as long as
    [try_to_move_away] is not set. *)
Definition moves_left (v : locals) : nat :=
  if try_to_move_away v then 0%nat else 1%nat.

(** ** The ways a run of safe_unlink ends *)

(** The system accepted the deletion: the last attempt to delete
    succeeded, and its status is the one reported. *)
Definition accepted (res : UNLINK_RESULT) (l : log) : Prop :=
  debug res = 0
  /\ NT_SUCCESS (last_error_code res) = true
  /\ last_delete_status l = Some (last_error_code res).

(** The open for deletion was answered [STATUS_DELETE_PENDING]: it is
    the last call made, and success is reported. *)
Definition pending (res : UNLINK_RESULT) (l : log) : Prop :=
  res = {| last_error_code := STATUS_SUCCESS; debug := 0x2 |}
  /\ exists access attr share flags a rest,
      l = (NtOpenFile access attr share flags, a) :: rest
      /\ status_of a = STATUS_DELETE_PENDING.

(** The file is in the trash directory and could not be deleted
    there: success is reported. *)
Definition moved (res : UNLINK_RESULT) (l : log) : Prop :=
  res = {| last_error_code := STATUS_SUCCESS; debug := 0x6 |}
  /\ existsb renamed l = true
  /\ exists s, last_delete_status l = Some s /\ NT_SUCCESS s = false.

(** A failure is reported; the file has not been renamed. *)
Definition refused (res : UNLINK_RESULT) (l : log) : Prop :=
  NT_SUCCESS (last_error_code res) = false
  /\ existsb renamed l = false
  /\ (debug res = 0 \/ debug res = 0x1 \/ debug res = 0x3
      \/ debug res = 0x4).

(** ** py_safe_unlink *)

(** What [py_safe_unlink] hands back to Python: the integer, and the
    two numbers it printed, if it printed. *)
Record py_result := {
  py_value : Z;
  py_printed : option (NTSTATUS * Z)
}.

Definition py_safe_unlink (os : system) (stack : wstring) (pages : nat)
  (name : wstring) : run py_result :=
  result <- safe_unlink os stack pages name ;;
  if NT_SUCCESS (last_error_code result) then
    ret {| py_value := 0; py_printed := None |}
  else
    ret {| py_value := last_error_code result;
           py_printed := Some (last_error_code result, debug result) |}.

End WinLowRuns.

(* ================================================================== *)
(** * poll: the Python entry of __gnat_expect_poll                     *)
(* ================================================================== *)

Module PyPoll.
Import Poll.

(** What Python gets: the status and the tuple of flags. *)
Definition py_tuple := (Z * list Z)%type.

(** [poll] of the POSIX build.  [is_set] is an automatic array of
    [num_fd] integers that is not initialised: [stack] is what it
    holds when [__gnat_expect_poll] is called.  There is no tuple when
    the call does not return or writes outside a set. *)
Definition poll_posix (b : Posix.build) (env : list Posix.select_outcome)
  (fd_list : list Z) (timeout : Z) (stack : list Z) : option py_tuple :=
  let num_fd := length fd_list in
  let is_set := firstn num_fd stack in
  match Posix.expect_poll b env fd_list timeout is_set with
  | Some (Posix.Returns r) => Some (Posix.value r, Posix.is_set r)
  | _ => None
  end.

(** The largest descriptor of a list, and 0 if none is positive:
    [max_fd] after the loop that fills the sets. *)
Definition largest (fd : list Z) : Z := fold_right Z.max 0 fd.

End PyPoll.

(* ================================================================== *)
(** * terminals.c: the terminal settings and the spawn (POSIX)         *)
(* ================================================================== *)

Module Tty.

(** [struct termios]: the four mode words and the control characters. *)
Record termios := {
  c_iflag : Z;
  c_oflag : Z;
  c_cflag : Z;
  c_lflag : Z;
  c_cc : list Z
}.

(** What the system headers and the build define: the mode bits
    (those a system lacks are 0, as the [#ifndef]s of the file make
    them), the indices of the control characters, [_POSIX_VDISABLE],
    the signal numbers, and the conditional parts of the functions. *)
Record platform := {
  IUCLC : Z; ISTRIP : Z;
  OPOST : Z; ONLCR : Z; OLCUC : Z;
  NLDLY : Z; CRDLY : Z; TABDLY : Z; BSDLY : Z; VTDLY : Z; FFDLY : Z;
  CSIZE : Z; CS8 : Z;
  ECHO : Z; ISIG : Z; ICANON : Z;
  VEOF : nat; VERASE : nat; VKILL : nat; VQUIT : nat; VINTR : nat;
  VEOL : nat; VSUSP : nat;
  CDISABLE : Z;
  SIGINT : Z; SIGQUIT : Z; SIGTSTP : Z; SIGKILL : Z; SIGWINCH : Z;
  has_TIOCGWINSZ : bool;
  has_SIGWINCH : bool;
  has_TIOCSCTTY : bool;
  streams : bool;            (* [sun] or [__hpux__] *)
  aix : bool                 (* [_AIX] *)
}.

Definition __enable (a b : Z) : Z := Z.lor a b.
Definition __disable (a b : Z) : Z := Z.land a (Z.lnot b).

(** [s.c_cc[i] = v]; the indices are below [NCCS]. *)
Definition set_cc (cc : list Z) (i : nat) (v : Z) : list Z :=
  Poll.store cc i v.

(** The assignments of [child_setup_tty] to [s], between [tcgetattr]
    and [tcsetattr]. *)
Definition tty_settings (p : platform) (s : termios) : termios :=
  let iflag := c_iflag s in
  let iflag := __disable iflag (IUCLC p) in
  let iflag := __disable iflag (ISTRIP p) in
  let oflag := c_oflag s in
  let oflag := __enable oflag (OPOST p) in
  let oflag := __disable oflag (ONLCR p) in
  let oflag :=
    __disable oflag
      (Z.lor (Z.lor (Z.lor (Z.lor (Z.lor (NLDLY p) (CRDLY p)) (TABDLY p))
                           (BSDLY p)) (VTDLY p)) (FFDLY p)) in
  let oflag := __disable oflag (OLCUC p) in
  let cflag := Z.lor (Z.land (c_cflag s) (Z.lnot (CSIZE p))) (CS8 p) in
  let lflag := c_lflag s in
  let lflag := __disable lflag (ECHO p) in
  let lflag := __enable lflag (ISIG p) in
  let lflag := __enable lflag (ICANON p) in
  let cc := c_cc s in
  let cc := set_cc cc (VEOF p) 4 in
  let cc := set_cc cc (VERASE p) (CDISABLE p) in
  let cc := set_cc cc (VKILL p) (CDISABLE p) in
  let cc := set_cc cc (VQUIT p) 28 in
  let cc := set_cc cc (VINTR p) 3 in
  let cc := set_cc cc (VEOL p) (CDISABLE p) in
  let cc := set_cc cc (VSUSP p) 26 in
  {| c_iflag := iflag; c_oflag := oflag; c_cflag := cflag;
     c_lflag := lflag; c_cc := cc |}.

(** The calls of the functions, with the arguments that matter. *)
Inductive call :=
| pty (e : Pty.event)
| tcgetattr (fd : Z)
| tcsetattr (fd : Z) (s : termios)
| write (fd : Z) (buf : list Z)
| kill (pid sig : Z)
| close (fd : Z)
| ioctl_TIOCSWINSZ (fd ws_row ws_col ws_xpixel ws_ypixel : Z)
| ioctl_I_PUSH (fd : Z) (name : string)
| ioctl_TIOCSCTTY (fd : Z)
| fork
| getpid
| setsid
| open (path : cstring) (nonblock : bool)
| dup2 (oldfd newfd : Z)
| setpgid (pid pgid : Z)
| tcsetpgrp (fd pgrp : Z)
| execvp (argv : list cstring)
| printf_status (status : Z).

(** What the system answers. *)
Record system := {
  tcgetattr_of : Z -> Z * termios;      (* the status and the settings *)
  tcsetattr_of : Z -> termios -> Z;
  kill_of : Z -> Z -> Z;
  fork_of : Z;                          (* in this process *)
  getpid_of : Z;
  open_of : cstring -> Z;
  execvp_of : list cstring -> option Z  (* [None]: the program runs *)
}.

(** [child_setup_tty (fd)]: the value and the calls. *)
Definition child_setup_tty (p : platform) (os : system) (fd : Z)
  : Z * list call :=
  let '(status, s) := tcgetattr_of os fd in
  if negb (status =? 0) then (-1, [tcgetattr fd])
  else
    let s := tty_settings p s in
    (tcsetattr_of os fd s, [tcgetattr fd; tcsetattr fd s]).

(** [*desc] *)
Definition deref (m : Pty.heap) (desc : Z) : Pty.outcome Pty.term_handler :=
  if desc =? Pty.NULL then Pty.Invalid_read Pty.NULL
  else match m desc with
       | Some t => Pty.Returns t
       | None => Pty.Invalid_read desc
       end.

(** [(unsigned short) n] *)
Definition as_unsigned_short (n : Z) : Z := n mod 2 ^ 16.

(** [gvd_setup_winsize (desc, rows, columns)], [desc] pointing to
    [t]. *)
Definition gvd_setup_winsize (p : platform) (t : Pty.term_handler)
  (rows columns : Z) : list call :=
  if has_TIOCGWINSZ p then
    ioctl_TIOCSWINSZ (Pty.master_fd t) (as_unsigned_short rows)
                     (as_unsigned_short columns) 0 0
    :: (if has_SIGWINCH p && (0 <? Pty.child_pid t)
        then [kill (Pty.child_pid t) (SIGWINCH p)] else [])
  else [].

(** [send_signal_via_characters (desc, signal_number)]; the labels of
    a [switch] are distinct. *)
Definition send_signal_via_characters (p : platform) (t : Pty.term_handler)
  (signal_number : Z) : list call :=
  let ctrl_c := 3 in
  let ctrl_backslash := 28 in
  let ctrl_Z := 26 in
  if signal_number =? SIGINT p then [write (Pty.master_fd t) [ctrl_c]]
  else if signal_number =? SIGQUIT p
  then [write (Pty.master_fd t) [ctrl_backslash]]
  else if signal_number =? SIGTSTP p
  then [write (Pty.master_fd t) [ctrl_Z]]
  else [].

(** [gvd_interrupt_process (desc)] *)
Definition gvd_interrupt_process (p : platform) (m : Pty.heap) (desc : Z)
  : Pty.outcome Z * list call :=
  match deref m desc with
  | Pty.Invalid_read q => (Pty.Invalid_read q, [])
  | Pty.Returns t =>
    (Pty.Returns 0, send_signal_via_characters p t (SIGINT p))
  end.

(** [gvd_terminate_process (desc)] *)
Definition gvd_terminate_process (p : platform) (os : system)
  (m : Pty.heap) (desc : Z) : Pty.outcome Z * list call :=
  match deref m desc with
  | Pty.Invalid_read q => (Pty.Invalid_read q, [])
  | Pty.Returns t =>
    (Pty.Returns (kill_of os (Pty.child_pid t) (SIGKILL p)),
     [close (Pty.master_fd t); kill (Pty.child_pid t) (SIGKILL p)])
  end.

(** [gvd_reset_tty (desc)] *)
Definition gvd_reset_tty (p : platform) (os : system) (m : Pty.heap)
  (desc : Z) : Pty.outcome unit * list call :=
  match deref m desc with
  | Pty.Invalid_read q => (Pty.Invalid_read q, [])
  | Pty.Returns t =>
    (Pty.Returns tt, snd (child_setup_tty p os (Pty.master_fd t)))
  end.

(** What [gvd_setup_parent_communication] stores through its
    pointers. *)
Record parent_side := { in_fd : Z; out_fd : Z; err_fd : Z }.

(** [gvd_setup_parent_communication (desc, &in_fd, &out_fd, &err_fd,
    &pid)], [pid] being the value of [*pid_out]. *)
Definition gvd_setup_parent_communication (m : Pty.heap) (desc : Z)
  (pid : Z) : Pty.outcome parent_side * Pty.heap * list call :=
  match deref m desc with
  | Pty.Invalid_read q => (Pty.Invalid_read q, m, [])
  | Pty.Returns t =>
    let fds := {| in_fd := Pty.master_fd t; out_fd := Pty.master_fd t;
                  err_fd := Pty.master_fd t |} in
    if 0 <=? Pty.slave_fd t then
      (Pty.Returns fds,
       Pty.alloc m desc
         {| Pty.master_fd := Pty.master_fd t; Pty.slave_fd := -1;
            Pty.slave_name := Pty.slave_name t; Pty.child_pid := pid |},
       [close (Pty.slave_fd t)])
    else
      (Pty.Returns fds,
       Pty.alloc m desc
         {| Pty.master_fd := Pty.master_fd t;
            Pty.slave_fd := Pty.slave_fd t;
            Pty.slave_name := Pty.slave_name t; Pty.child_pid := pid |},
       [])
  end.

(** [gvd_setup_child_communication (desc, new_argv)].  The value is
    [None] when [execvp] starts the program, and the pid of the process
    when [execvp] fails and the function returns. *)
Definition gvd_setup_child_communication (p : platform) (os : system)
  (m : Pty.heap) (desc : Z) (new_argv : list cstring)
  : Pty.outcome (option Z) * Pty.heap * list call :=
  let pid := getpid_of os in
  match deref m desc with
  | Pty.Invalid_read q => (Pty.Invalid_read q, m, [getpid; setsid])
  | Pty.Returns t =>
    let '(slave, opens) :=
      if Pty.slave_fd t =? -1
      then (open_of os (Pty.slave_name t),
            [open (Pty.slave_name t) (aix p)])
      else (Pty.slave_fd t, []) in
    let t := {| Pty.master_fd := Pty.master_fd t; Pty.slave_fd := slave;
                Pty.slave_name := Pty.slave_name t;
                Pty.child_pid := Pty.child_pid t |} in
    let m := Pty.alloc m desc t in
    let calls :=
      [getpid; setsid] ++ opens
      ++ (if streams p
          then [ioctl_I_PUSH slave "ptem"; ioctl_I_PUSH slave "ldterm";
                ioctl_I_PUSH slave "ttcompat"]
          else [])
      ++ (if has_TIOCSCTTY p then [ioctl_TIOCSCTTY slave] else [])
      ++ snd (child_setup_tty p os slave)
      ++ gvd_setup_winsize p t 24 80
      ++ [dup2 slave 0; dup2 slave 1; dup2 slave 2]
      ++ (if 2 <? slave then [close slave] else [])
      ++ [setpgid pid pid; tcsetpgrp 0 pid; execvp new_argv] in
    match execvp_of os new_argv with
    | None => (Pty.Returns None, m, calls)
    | Some status =>
      (Pty.Returns (Some pid), m, calls ++ [printf_status status])
    end
  end.

(** The tuple that [non_blocking_spawn] builds. *)
Record spawned := {
  py_in_fd : Z; py_out_fd : Z; py_err_fd : Z; py_pid : Z; py_desc : Z
}.

(** [non_blocking_spawn], in the process in which [fork] returns
    [fork_of os].  [desc0] is what the automatic variable [desc] holds
    on entry.  The value is [None] when the program has replaced the
    process. *)
Definition non_blocking_spawn (p : platform) (sys : Pty.system)
  (os : system) (desc0 : Z) (cmd_args : list cstring)
  : Pty.outcome (option spawned) * Pty.heap * list call :=
  let '(status, desc, m, evs) := Pty.allocate_pty_desc sys desc0 in
  let calls := map pty evs ++ [fork] in
  let pid := fork_of os in
  let parent (m : Pty.heap) (calls : list call) :=
    match gvd_setup_parent_communication m desc pid with
    | (Pty.Invalid_read q, m, cs) => (Pty.Invalid_read q, m, calls ++ cs)
    | (Pty.Returns fds, m, cs) =>
      (Pty.Returns (Some {| py_in_fd := in_fd fds; py_out_fd := out_fd fds;
                            py_err_fd := err_fd fds; py_pid := pid;
                            py_desc := desc |}),
       m, calls ++ cs)
    end in
  if pid =? 0 then
    match gvd_setup_child_communication p os m desc cmd_args with
    | (Pty.Invalid_read q, m, cs) => (Pty.Invalid_read q, m, calls ++ cs)
    | (Pty.Returns None, m, cs) => (Pty.Returns None, m, calls ++ cs)
    | (Pty.Returns (Some _), m, cs) => parent m (calls ++ cs)
    end
  else parent m calls.

(** The descriptors that the calls close, and the signals they send. *)
Definition closes (calls : list call) : list Z :=
  flat_map (fun c => match c with
                     | close fd => [fd]
                     | pty (Pty.Close fd) => [fd]
                     | _ => []
                     end) calls.

Definition kills (calls : list call) : list (Z * Z) :=
  flat_map (fun c => match c with
                     | kill pid sig => [(pid, sig)]
                     | _ => []
                     end) calls.

(** The descriptors that the system hands to [allocate_pty_desc]. *)
Definition handed_out (sys : Pty.system) : list Z :=
  match Pty.configured sys with
  | Pty.USE_GETPT => [Pty.getpt sys]
  | Pty.USE_OPENPTY => let '(_, m, s) := Pty.openpty sys in [m; s]
  | Pty.USE_GETPTY => [snd (Pty._getpty sys)]
  | Pty.USE_CLONE_DEVICE => [Pty.open_clone sys]
  | Pty.Not_configured => []
  end.

(** ** Linux *)

Definition linux : platform :=
  {| IUCLC := 0x200; ISTRIP := 0x20;
     OPOST := 0x1; ONLCR := 0x4; OLCUC := 0x2;
     NLDLY := 0x100; CRDLY := 0x600; TABDLY := 0x1800;
     BSDLY := 0x2000; VTDLY := 0x4000; FFDLY := 0x8000;
     CSIZE := 0x30; CS8 := 0x30;
     ECHO := 0x8; ISIG := 0x1; ICANON := 0x2;
     VEOF := 4; VERASE := 2; VKILL := 3; VQUIT := 1; VINTR := 0;
     VEOL := 11; VSUSP := 10;
     CDISABLE := 0;
     SIGINT := 2; SIGQUIT := 3; SIGTSTP := 20; SIGKILL := 9;
     SIGWINCH := 28;
     has_TIOCGWINSZ := true; has_SIGWINCH := true;
     has_TIOCSCTTY := true; streams := false; aix := false |}.

(** The settings of a terminal in raw mode with echo: nothing that
    [child_setup_tty] wants. *)
Definition raw_echo : termios :=
  {| c_iflag := 0x20; c_oflag := 0x4; c_cflag := 0x20; c_lflag := 0x8;
     c_cc := repeat 0 32 |}.

(** A Linux system with ptys to give: [getpt] gives descriptor 5, the
    slave is /dev/pts/7, [malloc] gives 4096. *)
Definition one_pty : Pty.system :=
  {| Pty.configured := Pty.USE_GETPT;
     Pty.getpt := 5;
     Pty.openpty := (-1, -1, -1);
     Pty._getpty := (None, -1);
     Pty.open_clone := -1;
     Pty.ptsname := fun _ => Some (cstr "/dev/pts/7");
     Pty.malloc := 4096 |}.

(** A system on which [fork] fails. *)
Definition no_fork : system :=
  {| tcgetattr_of := fun _ => (0, raw_echo);
     tcsetattr_of := fun _ _ => 0;
     kill_of := fun _ _ => 0;
     fork_of := -1;
     getpid_of := 100;
     open_of := fun _ => 6;
     execvp_of := fun _ => None |}.

(** The child of a fork, in which [execvp] fails. *)
Definition no_exec : system :=
  {| tcgetattr_of := fun _ => (0, raw_echo);
     tcsetattr_of := fun _ _ => 0;
     kill_of := fun _ _ => 0;
     fork_of := 0;
     getpid_of := 101;
     open_of := fun _ => 6;
     execvp_of := fun _ => Some (-1) |}.

End Tty.

(* ================================================================== *)
(** * is_gui_app: what a short read leaves in the buffers              *)
(* ================================================================== *)

Module PEReads.
Import PE.

(** The decision of [is_gui_app] from what its three buffers hold. *)
Definition decision (dos sig opt : bytes) : Z :=
  if negb (IMAGE_DOS_SIGNATURE =? field dos offsetof_e_magic 2) then -1
  else if negb (IMAGE_NT_SIGNATURE =? field sig 0 4) then -1
  else subsystem_switch (field opt offsetof_Subsystem 2).

End PEReads.

(* ================================================================== *)
(** * terminals.c: interrupting a child (Windows)                       *)
(* ================================================================== *)

Module Console.

Definition INVALID_HANDLE_VALUE : Z := -1.
Definition VK_CONTROL : Z := 0x11.
Definition KEYEVENTF_EXTENDEDKEY : Z := 0x1.
Definition KEYEVENTF_KEYUP : Z := 0x2.
Definition CTRL_BREAK_EVENT : Z := 1.
Definition STILL_ACTIVE : Z := Reap.Win.STILL_ACTIVE.

(** ['C'] *)
Definition letter_C : Z := 67.

(** A top-level window: its handle, the process and the thread that
    own it, the name of its class ([None] when [GetClassName] fails on
    the window). *)
Record window := {
  hwnd : Z;
  process_id : Z;
  thread_id : Z;
  class_name : option cstring
}.

(** What the system answers. *)
Record system := {
  malloc : Z;                       (* 0 when there is no memory *)
  top_level_windows : list window;  (* in the order of [EnumWindows] *)
  window_class_before : Z -> cstring;
    (* the string in the array [window_class] of [find_child_console]
       when it is entered for a window: the array is not initialised *)
  MapVirtualKey : Z -> Z;
  GetForegroundWindow : Z;          (* 0 when there is none *)
  GetWindowThreadProcessId : Z -> Z;  (* the thread, by window *)
  GetCurrentThreadId : Z;
  AttachThreadInput : Z -> Z -> bool -> bool;
  SetForegroundWindow : Z -> bool;
  GenerateConsoleCtrlEvent : Z -> Z -> bool;
  GetExitCodeProcess : Z -> option Z  (* [None] when the call fails *)
}.

(** [(BYTE) n] and [(DWORD) n] *)
Definition as_BYTE (n : Z) : Z := n mod 2 ^ 8.
Definition as_DWORD (n : Z) : Z := n mod 2 ^ 32.

(** [GetClassName (hwnd, buffer, nMaxCount)]: the name, cut to fit the
    buffer with its terminator, is stored in the buffer; nothing is
    stored when the call fails. *)
Definition GetClassName (w : window) (buffer : cstring) (nMaxCount : nat)
  : cstring :=
  match class_name w with
  | Some name => firstn (nMaxCount - 1) name
  | None => buffer
  end.

(** [strcmp (a, b) == 0] *)
Definition same_string (a b : cstring) : bool :=
  if list_eq_dec ascii_dec a b then true else false.

(** [find_child_console (hwnd, cp)]: the value of [cp->hwnd]
    afterwards, and the value returned ([TRUE] to go on).  The value of
    [GetClassName] is not looked at. *)
Definition find_child_console (os : system) (w : window) (cp_hwnd : Z)
  (dwProcessId : Z) : Z * bool :=
  if process_id w =? dwProcessId then
    let window_class :=
      GetClassName w (window_class_before os (hwnd w)) 32 in
    if same_string window_class (cstr "ConsoleWindowClass")
    then (hwnd w, false)
    else (cp_hwnd, true)
  else (cp_hwnd, true).

(** [EnumWindows (find_child_console, &cp)]: the callback is called on
    each window in turn until it returns [FALSE]. *)
Fixpoint EnumWindows (os : system) (ws : list window) (cp_hwnd : Z)
  (dwProcessId : Z) : Z :=
  match ws with
  | [] => cp_hwnd
  | w :: rest =>
    let '(cp_hwnd, go_on) := find_child_console os w cp_hwnd dwProcessId in
    if go_on then EnumWindows os rest cp_hwnd dwProcessId else cp_hwnd
  end.

(** The function returns, or it has written through the null pointer
    that [malloc] gave. *)
Inductive outcome :=
| Returns (rc : Z)
| Null_write.

(** The calls that change something. *)
Inductive call :=
| attach_thread_input (thread : Z) (on : bool)
| set_foreground_window (w : Z)
| keybd_event (bVk bScan dwFlags : Z)
| sleep (ms : Z)
| console_ctrl_event (event pid : Z).

(** The attachment to the thread that owns a window: the thread to
    detach from afterwards (0 for none) and the calls made. *)
Definition attach_to (os : system) (thread : Z) : Z * list call :=
  if thread =? GetCurrentThreadId os then (0, [])
  else if negb (AttachThreadInput os (GetCurrentThreadId os) thread true)
  then (0, [attach_thread_input thread true])
  else (thread, [attach_thread_input thread true]).

Definition detach_from (thread : Z) : list call :=
  if negb (thread =? 0) then [attach_thread_input thread false] else [].

(** [gvd_interrupt_pid (pid)]: the value and the calls.  The value of
    [malloc] is not tested before [cp.procinfo->dwProcessId] is
    assigned. *)
Definition gvd_interrupt_pid (os : system) (pid : Z)
  : outcome * list call :=
  if malloc os =? 0 then (Null_write, []) else
  let dwProcessId := as_DWORD pid in
  let cp_hwnd :=
    EnumWindows os (top_level_windows os) INVALID_HANDLE_VALUE
                dwProcessId in
  if negb (cp_hwnd =? INVALID_HANDLE_VALUE) then
    let control_scan_code := as_BYTE (MapVirtualKey os VK_CONTROL) in
    let vk_break_code := letter_C in
    let break_scan_code := as_BYTE (MapVirtualKey os vk_break_code) in
    let foreground_window := GetForegroundWindow os in
    if negb (foreground_window =? 0) then
      let '(foreground_thread, calls1) :=
        attach_to os (GetWindowThreadProcessId os foreground_window) in
      let '(child_thread, calls2) :=
        attach_to os (GetWindowThreadProcessId os cp_hwnd) in
      let extended :=
        if vk_break_code =? letter_C then 0 else KEYEVENTF_EXTENDEDKEY in
      let keys :=
        if SetForegroundWindow os cp_hwnd then
          [set_foreground_window cp_hwnd;
           keybd_event VK_CONTROL control_scan_code 0;
           keybd_event vk_break_code break_scan_code extended;
           keybd_event vk_break_code break_scan_code
                       (Z.lor extended KEYEVENTF_KEYUP);
           keybd_event VK_CONTROL control_scan_code KEYEVENTF_KEYUP;
           sleep 100;
           set_foreground_window foreground_window]
        else [set_foreground_window cp_hwnd] in
      (Returns 0,
       calls1 ++ calls2 ++ keys
       ++ detach_from foreground_thread ++ detach_from child_thread)
    else (Returns 0, [])
  else if negb (GenerateConsoleCtrlEvent os CTRL_BREAK_EVENT dwProcessId)
  then (Returns (-1), [console_ctrl_event CTRL_BREAK_EVENT dwProcessId])
  else (Returns 0, [console_ctrl_event CTRL_BREAK_EVENT dwProcessId]).

(** [gvd_interrupt_process (p)], [p->procinfo] holding the two
    values. *)
Definition gvd_interrupt_process (os : system) (hProcess dwProcessId : Z)
  : outcome * list call :=
  match GetExitCodeProcess os hProcess with
  | Some exit_code =>
    if exit_code =? STILL_ACTIVE then gvd_interrupt_pid os dwProcessId
    else (Returns 0, [])
  | None => (Returns 0, [])
  end.

(** ** What the calls hold *)

(** The class that [find_child_console] sees for a window: its class,
    or what the array held when the class could not be had. *)
Definition class_seen (os : system) (w : window) : cstring :=
  match class_name w with
  | Some name => name
  | None => window_class_before os (hwnd w)
  end.

(** The console window of a process: the first top-level window of the
    process whose class is seen as [ConsoleWindowClass]. *)
Definition is_console_of (os : system) (pid : Z) (w : window) : bool :=
  (process_id w =? pid)
  && same_string (class_seen os w) (cstr "ConsoleWindowClass").

Definition console_window (os : system) (pid : Z) : option Z :=
  option_map hwnd (find (is_console_of os pid) (top_level_windows os)).

(** The keys pressed and released, in order. *)
Definition keystrokes (calls : list call) : list (Z * bool) :=
  flat_map (fun c => match c with
                     | keybd_event vk _ flags =>
                       [(vk, Z.testbit flags 1)]
                     | _ => []
                     end) calls.

(** The threads attached to, when the attachment was granted, and the
    threads detached from. *)
Definition attached (os : system) (calls : list call) : list Z :=
  flat_map (fun c => match c with
                     | attach_thread_input thread true =>
                       if AttachThreadInput os (GetCurrentThreadId os)
                                            thread true
                       then [thread] else []
                     | _ => []
                     end) calls.

Definition detached (calls : list call) : list Z :=
  flat_map (fun c => match c with
                     | attach_thread_input thread false => [thread]
                     | _ => []
                     end) calls.

Definition ctrl_events (calls : list call) : list (Z * Z) :=
  flat_map (fun c => match c with
                     | console_ctrl_event e pid => [(e, pid)]
                     | _ => []
                     end) calls.

(** ** A desktop to try the functions on *)

(** The child 1234 has a console window, 300; the window in the
    foreground, 100, belongs to another thread. *)
Definition desktop : system :=
  {| malloc := 4096;
     window_class_before := fun _ => [];
     top_level_windows :=
       [{| hwnd := 100; process_id := 50; thread_id := 51;
           class_name := Some (cstr "Shell_TrayWnd") |};
        {| hwnd := 200; process_id := 1234; thread_id := 1235;
           class_name := Some (cstr "IME") |};
        {| hwnd := 300; process_id := 1234; thread_id := 1235;
           class_name := Some (cstr "ConsoleWindowClass") |}];
     MapVirtualKey := fun vk => if vk =? 0x11 then 0x1D else 0x2E;
     GetForegroundWindow := 100;
     GetWindowThreadProcessId :=
       fun w => if w =? 100 then 51 else if w =? 300 then 1235 else 0;
     GetCurrentThreadId := 7;
     AttachThreadInput := fun _ thread _ => negb (thread =? 0);
     SetForegroundWindow := fun _ => true;
     GenerateConsoleCtrlEvent := fun _ _ => true;
     GetExitCodeProcess := fun _ => Some 259 |}.

End Console.

(* ================================================================== *)
(** * Properties                                                       *)
(* ================================================================== *)

Module PEFacts.
Import PE.





(** A read from an empty file leaves the buffer as it was. *)
Lemma ReadBytes_empty p buffer size :
  ReadBytes {| content := []; fptr := p |} buffer size
  = ({| content := []; fptr := p |}, buffer).
Proof.
  unfold ReadBytes. cbn [content fptr].
  rewrite skipn_nil, firstn_nil. cbn [length app skipn].
  now rewrite Nat.add_0_r.
Qed.





Lemma AbsoluteSeek_content h offset :
  content (fst (AbsoluteSeek h offset)) = content h.
Proof.
  unfold AbsoluteSeek, SetFilePointer.
  destruct (as_LONG offset <? 0); cbn [fst].
  - reflexivity.
  - destruct (offset =? 0xFFFFFFFF); reflexivity.
Qed.

(** The test [CoffHeaderOffset < 0] is made on a [DWORD]. *)
Lemma CoffHeaderOffset_nonneg off :
  ((off + Z.of_nat sizeof_ULONG) mod 2 ^ 32 <? 0) = false.
Proof.
  apply Z.ltb_ge. apply Z.mod_pos_bound. lia.
Qed.










End PEFacts.

Module CmdLineFacts.
Import CmdLine.

(** Characters are compared by [Ascii.eqb]; the three special ones are
    distinct. *)
Lemma escape_is_escape : is_escape escape_char = true.
Proof. reflexivity. Qed.

Lemma is_escape_eqb c : is_escape c = Ascii.eqb c escape_char.
Proof. unfold is_escape. simpl. now rewrite andb_true_r. Qed.

Lemma repeat_snoc {A} (x : A) n : repeat x n ++ [x] = x :: repeat x n.
Proof. induction n; simpl; congruence. Qed.

Lemma repeat_shift {A} (x : A) n l : repeat x n ++ x :: l = repeat x (S n) ++ l.
Proof.
  change (x :: l) with ([x] ++ l). rewrite app_assoc, repeat_snoc. reflexivity.
Qed.

Lemma repeat_double {A} (x : A) n : repeat x n ++ repeat x n = repeat x (2 * n).
Proof. rewrite <- repeat_app. f_equal. lia. Qed.

(** ** [need_quotes] is [must_quote] *)

Lemma need_quotes_fold p b :
  fold_left
    (fun nq c =>
       if Ascii.eqb c space || Ascii.eqb c tab || Ascii.eqb c dquote
       then true else nq) p b
  = b || existsb (fun c => Ascii.eqb c space || Ascii.eqb c tab
                           || Ascii.eqb c dquote) p.
Proof.
  revert b. induction p as [|c p IH]; intros b; simpl.
  - now rewrite orb_false_r.
  - rewrite IH. destruct (_ || _ || _); destruct b; reflexivity.
Qed.

Lemma need_quotes_must_quote arg : need_quotes arg = must_quote arg.
Proof.
  unfold need_quotes, must_quote. rewrite need_quotes_fold.
  destruct arg; reflexivity.
Qed.

(** ** The quoted text, run by run *)

Lemma quote_chars_runs p n :
  repeat escape_char n ++ quote_chars p n
  = concat (map quoted_run (runs p n)).
Proof.
  revert n. induction p as [|c p IH]; intros n; simpl.
  - rewrite app_nil_r. unfold quoted_run. simpl. rewrite Nat.add_0_r.
    now rewrite <- repeat_app.
  - rewrite is_escape_eqb.
    destruct (Ascii.eqb c escape_char) eqn:Ebs.
    + apply Ascii.eqb_eq in Ebs. subst c. simpl.
      rewrite repeat_shift. apply IH.
    + destruct (Ascii.eqb c dquote) eqn:Edq; simpl.
      * unfold quoted_run at 1. simpl. rewrite Edq.
        apply Ascii.eqb_eq in Edq. subst c.
        rewrite <- (IH 0%nat). simpl.
        rewrite Nat.add_0_r, repeat_app, <- !app_assoc. reflexivity.
      * unfold quoted_run at 1. simpl. rewrite Edq.
        rewrite <- (IH 0%nat). simpl. rewrite <- app_assoc. reflexivity.
Qed.

Lemma plain_runs p n :
  concat (map plain_run (runs p n)) = repeat escape_char n ++ p.
Proof.
  revert n. induction p as [|c p IH]; intros n; simpl.
  - unfold plain_run. simpl. now rewrite !app_nil_r.
  - destruct (Ascii.eqb c escape_char) eqn:Ebs.
    + apply Ascii.eqb_eq in Ebs. subst c. rewrite IH.
      symmetry. apply repeat_shift.
    + simpl. rewrite IH. unfold plain_run. simpl.
      rewrite <- app_assoc. reflexivity.
Qed.

Lemma runs_maximal p n :
  Forall (fun r => snd r <> Some escape_char) (runs p n).
Proof.
  revert n. induction p as [|c p IH]; intros n; simpl.
  - constructor; [discriminate | constructor].
  - destruct (Ascii.eqb c escape_char) eqn:Ebs; [apply IH|].
    constructor; [|apply IH]. simpl. intros [= ->].
    now rewrite Ascii.eqb_refl in Ebs.
Qed.


(** ** The splitter on the text of one argument *)

Section Splitting.

Variable rule : two_quotes.

Lemma parse_escapes k s q n cur :
  parse rule (repeat escape_char k ++ s) q n (Some cur)
  = parse rule s q (n + k) (Some cur).
Proof.
  revert n. induction k as [|k IH]; intros n; simpl.
  - now rewrite Nat.add_0_r.
  - rewrite IH. f_equal. lia.
Qed.

Lemma parse_end rest n acc :
  ends_arg rest ->
  parse rule rest false n (Some acc)
  = give rule rest (acc ++ repeat escape_char n).
Proof. intros [-> | [rest' ->]]; reflexivity. Qed.

Lemma even_double n : Nat.even (n + n) = true.
Proof.
  replace (n + n)%nat with (2 * n)%nat by lia.
  rewrite Nat.even_mul. reflexivity.
Qed.

Lemma div2_double n : Nat.div2 (n + n) = n.
Proof.
  replace (n + n)%nat with (2 * n)%nat by lia. apply Nat.div2_double.
Qed.

Lemma div2_succ_double n : Nat.div2 (S (n + n)) = n.
Proof.
  replace (n + n)%nat with (2 * n)%nat by lia. apply Nat.div2_succ_double.
Qed.

Lemma even_succ_double n : Nat.even (S (n + n)) = false.
Proof.
  rewrite Nat.even_succ, <- Nat.negb_even, even_double. reflexivity.
Qed.

(** The closing quote, after a doubled run. *)
Lemma parse_closing rest n acc :
  ends_arg rest ->
  parse rule (dquote :: rest) true (n + n) (Some acc)
  = parse rule rest false 0 (Some (acc ++ repeat escape_char n)).
Proof.
  intros E. cbn [parse].
  change (Ascii.eqb dquote escape_char) with false.
  change (Ascii.eqb dquote dquote) with true. cbv iota.
  rewrite even_double, div2_double. cbn [so_far negb].
  destruct E as [-> | [rest' ->]]; destruct rule; reflexivity.
Qed.

(** The text between the quotes gives the argument back. *)
Lemma parse_quoted p : forall run acc rest,
  ends_arg rest ->
  parse rule (quote_chars p run ++ dquote :: rest) true run (Some acc)
  = parse rule rest false 0 (Some (acc ++ repeat escape_char run ++ p)).
Proof.
  induction p as [|c p IH]; intros run acc rest E.
  - cbn [quote_chars]. rewrite parse_escapes, parse_closing by assumption.
    now rewrite app_nil_r.
  - cbn [quote_chars]. rewrite is_escape_eqb.
    destruct (Ascii.eqb c dquote) eqn:Edq.
    + apply Ascii.eqb_eq in Edq. subst c.
      rewrite <- !app_assoc. rewrite parse_escapes.
      cbn [app parse].
      change (Ascii.eqb escape_char escape_char) with true.
      change (Ascii.eqb dquote escape_char) with false.
      change (Ascii.eqb dquote dquote) with true. cbv iota.
      rewrite even_succ_double, div2_succ_double. cbn [so_far].
      rewrite IH by assumption. cbn [repeat app].
      rewrite <- !app_assoc. reflexivity.
    + destruct (Ascii.eqb c escape_char) eqn:Ebs.
      * apply Ascii.eqb_eq in Ebs. subst c.
        cbn [app parse]. change (Ascii.eqb escape_char escape_char) with true.
        cbv iota. cbn [so_far]. rewrite IH by assumption.
        now rewrite repeat_shift.
      * cbn [app parse]. rewrite Ebs, Edq. cbn [negb andb so_far].
        rewrite andb_false_r.
        rewrite IH by assumption. cbn [repeat app].
        rewrite <- !app_assoc. reflexivity.
Qed.

(** An argument written as it is gives itself back. *)
Lemma parse_plain p : forall n acc rest,
  existsb (fun c => Ascii.eqb c space || Ascii.eqb c tab
                    || Ascii.eqb c dquote) p = false ->
  ends_arg rest ->
  parse rule (p ++ rest) false n (Some acc)
  = give rule rest (acc ++ repeat escape_char n ++ p).
Proof.
  induction p as [|c p IH]; intros n acc rest Hp E.
  - rewrite app_nil_r. apply parse_end. assumption.
  - cbn [existsb] in Hp. apply orb_false_elim in Hp as [Hc Hp].
    apply orb_false_elim in Hc as [Hc Hdq].
    cbn [app parse]. unfold is_blank. rewrite Hdq, Hc. cbn [andb].
    destruct (Ascii.eqb c escape_char) eqn:Ebs.
    + apply Ascii.eqb_eq in Ebs. subst c. cbn [so_far].
      rewrite IH by assumption. now rewrite repeat_shift.
    + cbn [so_far]. rewrite IH by assumption. cbn [repeat app].
      rewrite <- !app_assoc. reflexivity.
Qed.

(** Between arguments, a character that is not blank opens one. *)
Lemma parse_opens c s :
  is_blank c = false ->
  parse rule (c :: s) false 0 None = parse rule (c :: s) false 0 (Some []).
Proof. intros H. cbn [parse]. rewrite H. reflexivity. Qed.

Lemma parse_write_arg arg rest :
  ends_arg rest ->
  parse rule (write_arg arg ++ rest) false 0 None = give rule rest arg.
Proof.
  intros E. unfold write_arg. rewrite need_quotes_must_quote.
  destruct (must_quote arg) eqn:Hq.
  - cbn [app]. rewrite parse_opens by reflexivity.
    cbn [parse].
    change (Ascii.eqb dquote escape_char) with false.
    change (Ascii.eqb dquote dquote) with true. cbv iota.
    cbn [Nat.even Nat.div2 repeat so_far app negb].
    rewrite <- app_assoc. cbn [app].
    replace (match rule with
             | TwoQuotesPlain | _ =>
               parse rule (quote_chars arg 0 ++ dquote :: rest) true 0
                     (Some [])
             end)
      with (parse rule (quote_chars arg 0 ++ dquote :: rest) true 0
                  (Some [])) by (destruct rule; reflexivity).
    rewrite parse_quoted by assumption. cbn [repeat app].
    rewrite parse_end by assumption. cbn [repeat]. now rewrite app_nil_r.
  - destruct arg as [|c p]; [discriminate|].
    unfold must_quote in Hq.
    assert (Hb : is_blank c = false).
    { cbn [existsb] in Hq. apply orb_false_elim in Hq as [Hc _].
      apply orb_false_elim in Hc as [Hc _]. exact Hc. }
    cbn [app]. rewrite parse_opens by assumption.
    change (c :: p ++ rest) with ((c :: p) ++ rest).
    rewrite parse_plain by assumption. reflexivity.
Qed.

(** The arguments of a command line, one after the other. *)
Lemma parse_join a argv :
  parse rule (join (map write_arg (a :: argv))) false 0 None = a :: argv.
Proof.
  revert a. induction argv as [|b argv IH]; intros a.
  - cbn [map join]. rewrite <- (app_nil_r (write_arg a)).
    rewrite parse_write_arg by (left; reflexivity). reflexivity.
  - cbn [map join]. cbn [map] in IH.
    rewrite parse_write_arg by (right; eexists; reflexivity).
    cbn [give]. f_equal. apply IH.
Qed.

End Splitting.

(** ** The buffer *)

Lemma write_argv_join a argv :
  write_argv (a :: argv) = join (map write_arg (a :: argv)) ++ [space].
Proof.
  revert a. induction argv as [|b argv IH]; intros a.
  - unfold write_argv. cbn. now rewrite app_nil_r.
  - unfold write_argv in *. cbn [map concat join] in *.
    rewrite IH. rewrite <- !app_assoc. reflexivity.
Qed.

(** The induction hypothesis on the rest of the argument, at the state
    in which the loop goes on. *)
Ltac rest_of_argument IH :=
  match goal with
  | |- context [measure_chars ?p ?a ?b ?r] =>
    specialize (IH a b r);
    destruct (measure_chars p a b r) as [[al' nq'] run'];
    destruct IH as (IH1 & IH2 & IH3); subst nq'
  end.

Lemma measure_chars_spec p : forall al nq run,
  let '(al', nq', run') := measure_chars p al nq run in
  (al' + length p + run' = al + length (quote_chars p run))%nat
  /\ nq' = nq || existsb (fun c => Ascii.eqb c space || Ascii.eqb c tab
                                   || Ascii.eqb c dquote) p
  /\ (nq' = false -> al' = al).
Proof.
  induction p as [|c p IH]; intros al nq run.
  - cbn. rewrite repeat_length, orb_false_r. auto.
  - cbn [measure_chars quote_chars existsb].
    destruct (Ascii.eqb c dquote) eqn:Edq.
    + assert (Hesc : is_escape c = false).
      { apply Ascii.eqb_eq in Edq. subst c. reflexivity. }
      rewrite Hesc. rest_of_argument IH.
      rewrite !orb_true_r, orb_true_l. cbn [orb].
      rewrite !length_app, repeat_length in *. cbn [length] in *.
      repeat split; try discriminate.
      destruct (0 <? run)%nat eqn:Hr;
        [|apply Nat.ltb_ge in Hr]; lia.
    + rewrite orb_false_r.
      destruct (Ascii.eqb c space || Ascii.eqb c tab) eqn:Hsp.
      * rest_of_argument IH.
        rewrite orb_true_r. cbn [orb app length] in *.
        repeat split; try discriminate.
        destruct (is_escape c); lia.
      * rest_of_argument IH.
        cbn [orb app length] in *.
        repeat split; try assumption.
        destruct (is_escape c); lia.
Qed.

Lemma measure_arg_spec al arg :
  measure_arg al arg = (al + (length (write_arg arg) + 1))%nat.
Proof.
  unfold measure_arg, write_arg. rewrite need_quotes_must_quote.
  pose proof (measure_chars_spec arg al
                (match arg with [] => true | _ => false end) 0) as H.
  destruct (measure_chars arg al _ 0) as [[al' nq'] run'].
  destruct H as (H1 & H2 & H3).
  assert (Hq : nq' = must_quote arg).
  { rewrite H2. unfold must_quote. destruct arg; reflexivity. }
  rewrite <- Hq. destruct nq'.
  - cbn [length]. rewrite length_app. cbn [length].
    destruct (0 <? run')%nat eqn:Hr; [|apply Nat.ltb_ge in Hr]; lia.
  - rewrite (H3 eq_refl). lia.
Qed.

Lemma measure_argv_spec argv al :
  fold_left measure_arg argv al = (al + length (write_argv argv))%nat.
Proof.
  revert al. induction argv as [|a argv IH]; intros al.
  - cbn. lia.
  - cbn [fold_left]. rewrite IH, measure_arg_spec.
    unfold write_argv. cbn [map concat]. rewrite !length_app. cbn [length].
    lia.
Qed.


(** ** The program name

    A program name that has no quote and does not end with an escape
    character is written as it is, between quotes if it has a blank;
    the simpler rule by which the runtime reads the program name gives
    it back too. *)

Lemma quote_chars_no_quote p : forall n,
  has_quote p = false ->
  quote_chars p n = p ++ repeat escape_char (trailing_escapes p n).
Proof.
  induction p as [|c p IH]; intros n H; cbn [quote_chars trailing_escapes].
  - reflexivity.
  - cbn [has_quote existsb] in H. apply orb_false_elim in H as [Hc Hp].
    rewrite Hc. cbn [app]. f_equal. apply IH. exact Hp.
Qed.

Lemma parse_name_copies p : forall inquote rest,
  has_quote p = false ->
  (inquote = true \/ existsb is_blank p = false) ->
  parse_name (p ++ rest) inquote
  = let '(name, rest') := parse_name rest inquote in (p ++ name, rest').
Proof.
  induction p as [|c p IH]; intros inquote rest Hq Hb.
  - cbn [app]. destruct (parse_name rest inquote). reflexivity.
  - cbn [has_quote existsb] in Hq. apply orb_false_elim in Hq as [Hc Hp].
    cbn [app parse_name]. rewrite Hc.
    assert (Hnb : is_blank c && negb inquote = false).
    { destruct Hb as [-> | Hb]; [apply andb_false_r|].
      cbn [existsb] in Hb. apply orb_false_elim in Hb as [Hb _].
      now rewrite Hb. }
    rewrite Hnb, IH; [|exact Hp|].
    + destruct (parse_name rest inquote). reflexivity.
    + destruct Hb as [Hb | Hb]; [now left|].
      right. cbn [existsb] in Hb. now apply orb_false_elim in Hb as [_ Hb].
Qed.

Lemma has_quote_app p q : has_quote (p ++ q) = has_quote p || has_quote q.
Proof. unfold has_quote. apply existsb_app. Qed.

Lemma has_quote_escapes n : has_quote (repeat escape_char n) = false.
Proof. induction n as [|n IH]; [reflexivity | exact IH]. Qed.

(** What the rule for program names reads where [nt_spawnve] has
    written a name without a quote: the name, and after it the escape
    characters that were doubled before the closing quote. *)
Lemma parse_name_written a rest :
  has_quote a = false ->
  ends_arg rest ->
  parse_name (write_arg a ++ rest) false
  = (a ++ (if must_quote a
           then repeat escape_char (trailing_escapes a 0) else []),
     tl rest).
Proof.
  intros Hq E. unfold write_arg. rewrite need_quotes_must_quote.
  assert (Hplain : parse_name rest false = ([], tl rest))
    by (destruct E as [-> | [rest' ->]]; reflexivity).
  assert (Hquoted : parse_name (dquote :: rest) true = ([], tl rest))
    by (destruct E as [-> | [rest' ->]]; reflexivity).
  destruct (must_quote a) eqn:Hm.
  - rewrite quote_chars_no_quote by assumption.
    cbn [app parse_name].
    change (Ascii.eqb dquote dquote) with true. cbv iota. cbn [negb].
    rewrite <- app_assoc. cbn [app].
    rewrite parse_name_copies.
    + rewrite Hquoted. now rewrite app_nil_r.
    + rewrite has_quote_app, Hq. apply has_quote_escapes.
    + now left.
  - rewrite parse_name_copies.
    + rewrite Hplain. reflexivity.
    + assumption.
    + right. unfold must_quote in Hm. destruct a as [|c p]; [discriminate|].
      clear - Hm. induction (c :: p) as [|x l IH]; [reflexivity|].
      cbn [existsb] in *. apply orb_false_elim in Hm as [Hx Hl].
      apply orb_false_elim in Hx as [Hx _].
      unfold is_blank. rewrite Hx. cbn [orb]. apply IH. exact Hl.
Qed.

(** The rule for program names drops every quote. *)
Lemma parse_name_no_quote s : forall inquote,
  has_quote (fst (parse_name s inquote)) = false.
Proof.
  induction s as [|c s IH]; intros inquote; cbn [parse_name].
  - reflexivity.
  - destruct (Ascii.eqb c dquote) eqn:Ec; [apply IH|].
    destruct (is_blank c && negb inquote); [reflexivity|].
    specialize (IH inquote). destruct (parse_name s inquote) as [name rest].
    cbn [fst] in *. cbn [has_quote existsb]. rewrite Ec. exact IH.
Qed.

Lemma join_cons a args :
  exists rest,
    join (map write_arg (a :: args)) = write_arg a ++ rest
    /\ ends_arg rest
    /\ forall rule, parse rule (tl rest) false 0 None = args.
Proof.
  destruct args as [|b args].
  - exists []. cbn [map join]. rewrite app_nil_r.
    split; [reflexivity|]. split; [now left | reflexivity].
  - exists (space :: join (map write_arg (b :: args))).
    split; [reflexivity|]. split; [right; eexists; reflexivity|].
    intros rule. cbn [tl]. apply parse_join.
Qed.

(** The command line of [nt_spawnve] without [cmd /c], split with the
    program name read by its own rule. *)
Lemma program_name_roundtrip rule a args :
  parse_cmdline_with_name rule (join (map write_arg (a :: args)))
  = a :: args
  <-> plain_program_name a.
Proof.
  unfold parse_cmdline_with_name, plain_program_name.
  destruct (join_cons a args) as (rest & -> & E & Hrest).
  destruct (has_quote a) eqn:Hq.
  - pose proof (parse_name_no_quote (write_arg a ++ rest) false) as Hn.
    destruct (parse_name (write_arg a ++ rest) false) as [name rest'].
    cbn [fst] in Hn. split.
    + intros [= -> _]. congruence.
    + intros [H _]. discriminate H.
  - rewrite parse_name_written by assumption. rewrite Hrest.
    destruct (must_quote a).
    + split.
      * intros [= H]. split; [reflexivity|]. intros _.
        apply (f_equal (@length ascii)) in H.
        rewrite length_app, repeat_length in H. lia.
      * intros [_ H]. rewrite (H eq_refl). cbn [repeat].
        now rewrite app_nil_r.
    + rewrite app_nil_r. split; [|reflexivity].
      intros _. split; [reflexivity | discriminate].
Qed.

Lemma cmd_prefix_with_name rule s :
  parse_cmdline_with_name rule (cstr "cmd /c " ++ s)
  = cstr "cmd" :: cstr "/c" :: parse rule s false 0 None.
Proof. reflexivity. Qed.

Lemma nt_spawnve_cmdline fs stack exe args :
  nt_spawnve fs stack (exe :: args)
  = let failed := PE.is_gui_app fs stack exe =? -1 in
    Some {| cmdline := (if failed then cstr "cmd /c " else [])
                       ++ join (map write_arg (exe :: args));
            arglen := ((if failed then 7 else 0)
                       + length (write_argv (exe :: args)))%nat;
            is_gui := if failed then 0 else PE.is_gui_app fs stack exe;
            use_cmd := failed |}.
Proof.
  unfold nt_spawnve. cbv zeta.
  unfold measure_argv. rewrite measure_argv_spec.
  rewrite write_argv_join.
  destruct (PE.is_gui_app fs stack exe =? -1); cbv iota beta.
  - rewrite app_assoc, removelast_last. f_equal. f_equal. lia.
  - rewrite app_nil_l, removelast_last. reflexivity.
Qed.

(** C1 (as amended).  For every argv: [nt_spawnve] builds a command
    line unless argv is empty (its [argv[0]] is then the null pointer).
    The command line is the arguments, each written by [write_arg],
    with single spaces between them, after [cmd /c ] when [is_gui_app]
    gave -1, and it fills the buffer exactly.  It is split as Windows
    does it: the program name by the rule for program names, the other
    arguments by the rule of backslashes and quotes.  When [is_gui_app]
    gave -1 the split gives [cmd], [/c] and then argv.  When it did
    not, the split gives argv back if and only if [argv[0]] has no
    quote and, when it has a space or a tab, does not end with an
    escape character.  An argument is put in quotes iff it is empty or
    has a space, a tab or a quote; between the quotes each run of
    escape characters before a quote or before the closing quote is
    doubled, each quote gets an escape character, and all else is as
    it was. *)
Theorem nt_spawnve_argv_roundtrip rule fs stack argv :
  match nt_spawnve fs stack argv with
  | None => argv = []
  | Some sp =>
    use_cmd sp = (PE.is_gui_app fs stack (hd [] argv) =? -1)
    /\ cmdline sp = (if use_cmd sp then cstr "cmd /c " else [])
                    ++ join (map write_arg argv)
    /\ (if use_cmd sp
        then parse_cmdline_with_name rule (cmdline sp)
             = cstr "cmd" :: cstr "/c" :: argv
        else parse_cmdline_with_name rule (cmdline sp) = argv
             <-> plain_program_name (hd [] argv))
    /\ (length (cmdline sp) + 1 = arglen sp)%nat
    /\ (forall arg,
          write_arg arg
          = if must_quote arg
            then dquote :: concat (map quoted_run (runs arg 0)) ++ [dquote]
            else arg)
    /\ (forall arg,
          concat (map plain_run (runs arg 0)) = arg
          /\ Forall (fun r => snd r <> Some escape_char) (runs arg 0))
  end.
Proof.
  destruct argv as [|exe args]; [reflexivity|].
  rewrite nt_spawnve_cmdline. cbv zeta. cbn [use_cmd cmdline arglen hd].
  split; [reflexivity|]. split; [reflexivity|].
  split; [|split; [|split]].
  - destruct (PE.is_gui_app fs stack exe =? -1).
    + rewrite cmd_prefix_with_name, parse_join. reflexivity.
    + cbn [app]. apply program_name_roundtrip.
  - rewrite write_argv_join, !length_app. cbn [length].
    destruct (PE.is_gui_app fs stack exe =? -1);
      [change (length (cstr "cmd /c ")) with 7%nat | cbn [length]]; lia.
  - intros arg. unfold write_arg. rewrite need_quotes_must_quote.
    rewrite <- quote_chars_runs. reflexivity.
  - intros arg. split; [apply (plain_runs arg 0) | apply runs_maximal].
Qed.

(** C1 (as stated) fails in two ways.  Where the program cannot be
    opened, the command line of argv = [prog] is [cmd /c prog], which
    splits into three arguments.  Where the program is found under a
    name given between quotes, the quotes are written with escape
    characters that the rule for program names does not undo. *)
Lemma nt_spawnve_argv_roundtrip_counterexample :
  ~ (forall rule fs stack argv sp,
        nt_spawnve fs stack argv = Some sp ->
        parse_cmdline_with_name rule (cmdline sp) = argv)
  /\ (forall rule,
        exists sp,
          nt_spawnve (fun _ => Some PE.console_image) PE.empty_frame
                     [quoted_name; cstr "x"] = Some sp
          /\ use_cmd sp = false
          /\ parse_cmdline_with_name rule (cmdline sp)
             <> [quoted_name; cstr "x"]).
Proof.
  split.
  - intros H.
    specialize (H TwoQuotesPlain PE.no_file PE.empty_frame [cstr "prog"]
                  _ eq_refl).
    discriminate H.
  - intros rule. eexists. split; [reflexivity|]. split; [reflexivity|].
    destruct rule; vm_compute; discriminate.
Qed.

End CmdLineFacts.

Module PosixPollFacts.
Import Poll Poll.Posix.

(** ** The sets built from the descriptors *)

Lemma FD_SET_Some size f s s' :
  FD_SET size f s = Some s' ->
  0 <= f < size /\ s' = (fun x => (x =? f) || s x).
Proof.
  unfold FD_SET. destruct (0 <=? f) eqn:E1; [|discriminate].
  destruct (f <? size) eqn:E2; [|discriminate].
  apply Z.leb_le in E1. apply Z.ltb_lt in E2.
  cbn [andb]. intros [= <-]. split; [lia | reflexivity].
Qed.

Lemma FD_SET_None size f s :
  FD_SET size f s = None <-> ~ (0 <= f < size).
Proof.
  unfold FD_SET. destruct (0 <=? f) eqn:E1; destruct (f <? size) eqn:E2;
    cbn [andb]; try apply Z.leb_le in E1; try apply Z.leb_gt in E1;
    try apply Z.ltb_lt in E2; try apply Z.ltb_ge in E2;
    split; intros H; try discriminate H; try reflexivity; lia.
Qed.

Lemma fill_sets_spec size fd : forall rset eset m rset' eset' m',
  fill_sets size fd rset eset m = Some (rset', eset', m') ->
  (forall x, rset' x = existsb (Z.eqb x) fd || rset x)
  /\ (forall x, eset' x = existsb (Z.eqb x) fd || eset x)
  /\ m <= m' /\ Forall (fun f => 0 <= f < size /\ f <= m') fd.
Proof.
  induction fd as [|f fd IH]; intros rset eset m rset' eset' m' H;
    cbn [fill_sets existsb] in *.
  - injection H as <- <- <-. repeat split; auto. lia.
  - destruct (FD_SET size f rset) as [r1|] eqn:Er; [|discriminate].
    destruct (FD_SET size f eset) as [e1|] eqn:Ee; [|discriminate].
    apply FD_SET_Some in Er as [Hf ->]. apply FD_SET_Some in Ee as [_ ->].
    apply IH in H as (Hr & He & Hm & Hall).
    assert (f <= m' /\ m <= m') as [Hf' Hm'].
    { destruct (m <? f) eqn:E; [apply Z.ltb_lt in E|apply Z.ltb_ge in E]; lia. }
    repeat split; auto.
    + intros x. rewrite Hr.
      destruct (x =? f), (existsb (Z.eqb x) fd); reflexivity.
    + intros x. rewrite He.
      destruct (x =? f), (existsb (Z.eqb x) fd); reflexivity.
Qed.

Lemma fill_sets_None size fd : forall rset eset m,
  fill_sets size fd rset eset m = None
  <-> Exists (fun f => ~ (0 <= f < size)) fd.
Proof.
  induction fd as [|f fd IH]; intros rset eset m; cbn [fill_sets].
  - split; [discriminate | intros H; inversion H].
  - destruct (FD_SET size f rset) as [r1|] eqn:Er.
    + destruct (FD_SET size f eset) as [e1|] eqn:Ee.
      * rewrite IH. apply FD_SET_Some in Er as [Hf _]. split.
        -- intros H. now right.
        -- intros H. inversion H; [contradiction | assumption].
      * apply FD_SET_None in Ee. split; [intros _; now left | reflexivity].
    + apply FD_SET_None in Er. split; [intros _; now left | reflexivity].
Qed.

(** The sets do not depend on [max_fd], and [max_fd] is not raised a
    second time. *)
Lemma fill_sets_again size fd : forall rset eset m rset' eset' m',
  fill_sets size fd rset eset m = Some (rset', eset', m') ->
  forall m2, m <= m2 <= m' ->
  fill_sets size fd rset eset m2 = Some (rset', eset', m').
Proof.
  induction fd as [|f fd IH]; intros rset eset m rset' eset' m' H m2 Hm2;
    cbn [fill_sets] in *.
  - injection H as <- <- <-. f_equal. f_equal. lia.
  - destruct (FD_SET size f rset) as [r1|]; [|discriminate].
    destruct (FD_SET size f eset) as [e1|]; [|discriminate].
    assert (Hs := fill_sets_spec _ _ _ _ _ _ _ _ H).
    destruct Hs as (_ & _ & Hle & _).
    eapply IH; [exact H|].
    destruct (m <? f) eqn:E1; destruct (m2 <? f) eqn:E2;
      try apply Z.ltb_lt in E1; try apply Z.ltb_ge in E1;
      try apply Z.ltb_lt in E2; try apply Z.ltb_ge in E2; lia.
Qed.

Lemma existsb_eqb_In x fd : existsb (Z.eqb x) fd = true <-> In x fd.
Proof.
  rewrite existsb_exists. split.
  - intros (y & Hy & E). apply Z.eqb_eq in E. now subst.
  - intros H. exists x. split; [assumption | apply Z.eqb_refl].
Qed.

(** ** Counting the members of a set *)

Lemma members_In n s x :
  In x (members n s) <-> 0 <= x < n /\ s x = true.
Proof.
  unfold members. rewrite filter_In, in_map_iff. split.
  - intros [(k & <- & Hk) Hs]. apply in_seq in Hk. split; [lia|assumption].
  - intros [Hx Hs]. split; [|assumption].
    exists (Z.to_nat x). split; [lia|]. apply in_seq. lia.
Qed.

Lemma members_NoDup n s : NoDup (members n s).
Proof.
  unfold members. apply NoDup_filter.
  apply Injective_map_NoDup; [|apply seq_NoDup].
  intros a b H. lia.
Qed.

Lemma members_none n s : (forall x, s x = false) -> members n s = [].
Proof.
  intros H. unfold members.
  induction (map Z.of_nat (seq 0 (Z.to_nat n))) as [|y l IH];
    cbn [filter]; [reflexivity|]. now rewrite H.
Qed.

Lemma members_count n s fd ready :
  NoDup fd ->
  Forall (fun f => 0 <= f < n) fd ->
  (forall x, s x = existsb (Z.eqb x) fd && ready x) ->
  length (members n s) = length (filter ready fd).
Proof.
  intros Hnd Hin Hs. apply Permutation_length.
  apply NoDup_Permutation;
    [apply members_NoDup | now apply NoDup_filter |].
  intros x. rewrite members_In, filter_In, Hs, andb_true_iff,
    existsb_eqb_In.
  rewrite Forall_forall in Hin. split.
  - tauto.
  - intros [Hx Hr]. split; [apply Hin; assumption | tauto].
Qed.

(** ** One turn: [select], the array, the [__hpux__] part *)

Lemma hpux_requests_spec fd eset recv close : forall ready,
  match hpux_requests fd eset recv close ready with
  | Some ready' =>
    ready' <= ready
    /\ (Forall (fun f => eset f = false) fd -> ready' = ready)
  | None => ~ Forall (fun f => eset f = false) fd
  end.
Proof.
  induction fd as [|f fd IH]; intros ready; cbn [hpux_requests].
  - split; [lia | reflexivity].
  - unfold FD_ISSET. destruct (eset f) eqn:Ef.
    + assert (Hno : ~ Forall (fun f0 => eset f0 = false) (f :: fd)).
      { intros Hall. inversion Hall as [|? ? Hf _]. congruence. }
      destruct (negb recv && close f); [exact Hno|].
      specialize (IH (ready - 1)).
      destruct (hpux_requests fd eset recv close (ready - 1));
        [|exact Hno].
      destruct IH as [IH _]. split; [lia | intros Hall; contradiction].
    + specialize (IH ready).
      destruct (hpux_requests fd eset recv close ready).
      * destruct IH as [IH1 IH2]. split; [assumption|].
        intros Hall. inversion Hall. auto.
      * intros Hall. inversion Hall. auto.
Qed.

Lemma after_select_fst b o fd n rset eset is1 is2 :
  fst (after_select b o fd n rset eset is1)
  = fst (after_select b o fd n rset eset is2).
Proof.
  unfold after_select.
  destruct (select o n rset eset) as [[ready rset'] eset'].
  destruct (0 <? ready); [destruct (hpux b)|]; reflexivity.
Qed.

(** Without the [__hpux__] part the array is left alone in a turn that
    finds nothing ready. *)
Lemma after_select_keeps b o fd n rset eset is0 is1 :
  after_select b o fd n rset eset is0 = (Some 0, is1) ->
  hpux b = false -> is1 = is0.
Proof.
  unfold after_select. intros H Hb.
  destruct (select o n rset eset) as [[ready rset'] eset'].
  rewrite Hb in H. destruct (0 <? ready) eqn:E.
  - injection H as -> _. discriminate E.
  - now injection H as _ <-.
Qed.

(** What a turn gives for a given outcome of [select], the sets being
    those of the descriptors. *)
Lemma after_select_spec b o fd size m rset eset m' is0 :
  fill_sets size fd FD_ZERO FD_ZERO m = Some (rset, eset, m') ->
  0 <= m ->
  let t := after_select b o fd (m' + 1) rset eset is0 in
  match o with
  | SelectError => t = (Some (-1), is0)
  | SelectReturns readable exceptional =>
    (forall v, fst t = Some v -> 0 < v -> snd t = flags readable fd)
    /\ (fst t = None -> snd t = flags readable fd)
    /\ (NoDup fd ->
        Forall (fun f => exceptional f = false) fd ->
        fst t = Some (Z.of_nat (length (filter readable fd))))
  end.
Proof.
  intros Hfill Hm0 t. subst t.
  apply fill_sets_spec in Hfill as (Hrs & Hes & Hm & Hall).
  unfold after_select.
  destruct o as [|readable exceptional]; cbn [select]; [reflexivity|].
  set (rset' := fun fd0 => rset fd0 && readable fd0).
  set (eset' := fun fd0 => eset fd0 && exceptional fd0).
  set (ready := Z.of_nat (length (members (m' + 1) rset')
                          + length (members (m' + 1) eset'))).
  assert (Hmark : mark fd rset' = flags readable fd).
  { unfold mark, flags, FD_ISSET, rset'. apply map_ext_in. intros f Hf.
    rewrite Hrs. apply existsb_eqb_In in Hf. rewrite Hf. reflexivity. }
  assert (Hcount : NoDup fd ->
                   Forall (fun f => exceptional f = false) fd ->
                   ready = Z.of_nat (length (filter readable fd))
                   /\ Forall (fun f => eset' f = false) fd).
  { intros Hnd Hex.
    assert (Hquiet : forall x, eset' x = false).
    { intros x. unfold eset'. rewrite Hes. unfold FD_ZERO.
      rewrite orb_false_r.
      destruct (existsb (Z.eqb x) fd) eqn:E; [|reflexivity].
      apply existsb_eqb_In in E. rewrite Forall_forall in Hex.
      now rewrite (Hex x E). }
    split; [|apply Forall_forall; intros f _; apply Hquiet].
    unfold ready. rewrite (members_none _ eset') by assumption.
    cbn [length]. rewrite Nat.add_0_r. f_equal.
    apply members_count; [assumption | |].
    - eapply Forall_impl; [|exact Hall]. cbv beta. intros. lia.
    - intros x. unfold rset'. rewrite Hrs. unfold FD_ZERO.
      now rewrite orb_false_r. }
  destruct (0 <? ready) eqn:Hpos.
  - apply Z.ltb_lt in Hpos. destruct (hpux b).
    + pose proof (hpux_requests_spec fd eset' (received fd rset')
                                     (close_request b) ready) as Hreq.
      cbn [fst snd].
      destruct (hpux_requests fd eset' (received fd rset')
                              (close_request b) ready) as [ready'|].
      * destruct Hreq as [Hle Heq]. split; [|split].
        -- intros v _ _. exact Hmark.
        -- discriminate.
        -- intros Hnd Hex. destruct (Hcount Hnd Hex) as [Hc Hq].
           rewrite (Heq Hq). now rewrite Hc.
      * split; [|split].
        -- discriminate.
        -- intros _. exact Hmark.
        -- intros Hnd Hex. destruct (Hcount Hnd Hex) as [_ Hq].
           contradiction.
    + cbn [fst snd]. split; [|split].
      * intros v _ _. exact Hmark.
      * discriminate.
      * intros Hnd Hex. destruct (Hcount Hnd Hex) as [Hc _].
        now rewrite Hc.
  - apply Z.ltb_ge in Hpos. cbn [fst snd]. split; [|split].
    + intros v [= <-] Hv. lia.
    + discriminate.
    + intros Hnd Hex. destruct (Hcount Hnd Hex) as [Hc _]. now rewrite Hc.
Qed.

(** ** The turns of the loop *)

Lemma poll_loop_rounds b env : forall fd timeout tv m is0 made r,
  poll_loop b env fd timeout tv m is0 made = Some (Returns r) ->
  exists rset eset m' k o is1,
    fill_sets (FD_SETSIZE b) fd FD_ZERO FD_ZERO m = Some (rset, eset, m')
    /\ nth_error env k = Some o
    /\ calls r
       = made ++ repeat {| nfds := m' + 1;
                           timeout_arg := if timeout =? -1 then None
                                          else Some tv |} (S k)
    /\ (forall j o', (j < k)%nat -> nth_error env j = Some o' ->
          timeout = -1
          /\ fst (after_select b o' fd (m' + 1) rset eset []) = Some 0)
    /\ (timeout = -1 ->
        fst (after_select b o fd (m' + 1) rset eset []) <> Some 0)
    /\ value r = match fst (after_select b o fd (m' + 1) rset eset []) with
                 | Some v => v
                 | None => -1
                 end
    /\ is_set r = snd (after_select b o fd (m' + 1) rset eset is1)
    /\ (hpux b = false -> is1 = is0).
Proof.
  induction env as [|o env IH]; intros fd timeout tv m is0 made r H;
    cbn [poll_loop] in H.
  { destruct (fill_sets _ _ _ _ _) as [[[? ?] ?]|]; discriminate. }
  destruct (fill_sets (FD_SETSIZE b) fd FD_ZERO FD_ZERO m)
    as [[[rset eset] m']|] eqn:Efill; [|discriminate].
  set (c := {| nfds := m' + 1;
               timeout_arg := if timeout =? -1 then None else Some tv |})
    in *.
  assert (Hfst := after_select_fst b o fd (m' + 1) rset eset is0 []).
  destruct (after_select b o fd (m' + 1) rset eset is0)
    as [[ready|] is1] eqn:Ea; cbn [fst] in Hfst.
  - destruct ((timeout =? -1) && (ready =? 0)) eqn:Hc.
    + apply andb_true_iff in Hc as [Ht Hr].
      apply Z.eqb_eq in Ht. apply Z.eqb_eq in Hr. subst ready.
      apply IH in H
        as (rset2 & eset2 & m2 & k & o2 & is2 & Hfill2 & Hk & Hcalls
            & Hbefore & Hlast & Hv & Hs & Hkeep).
      assert (Hs0 := fill_sets_spec _ _ _ _ _ _ _ _ Efill).
      destruct Hs0 as (_ & _ & Hle & _).
      rewrite (fill_sets_again _ _ _ _ _ _ _ _ Efill m') in Hfill2
        by lia.
      injection Hfill2 as <- <- <-.
      exists rset, eset, m', (S k), o2, is2.
      split; [reflexivity|]. split; [exact Hk|]. split.
      { rewrite Hcalls, <- app_assoc. reflexivity. }
      split.
      { intros [|j] o' Hj Ho'.
        - injection Ho' as <-. split; [assumption | now rewrite <- Hfst].
        - apply (Hbefore j); [lia | assumption]. }
      split; [assumption|]. split; [assumption|]. split; [assumption|].
      intros Hb. rewrite (Hkeep Hb).
      eapply after_select_keeps; eassumption.
    + injection H as <-. exists rset, eset, m', 0%nat, o, is0.
      cbn [value is_set calls]. rewrite <- Hfst, Ea. cbn [fst snd].
      split; [reflexivity|]. split; [reflexivity|].
      split; [reflexivity|]. split; [intros j o' Hj; lia|].
      split; [|repeat split].
      intros -> [= ->]. discriminate Hc.
  - injection H as <-. exists rset, eset, m', 0%nat, o, is0.
    cbn [value is_set calls]. rewrite <- Hfst, Ea. cbn [fst snd].
    split; [reflexivity|]. split; [reflexivity|].
    split; [reflexivity|]. split; [intros j o' Hj; lia|].
    split; [discriminate | repeat split].
Qed.

Lemma poll_loop_outside b env fd timeout tv m is0 made :
  Exists (fun f => ~ inside b f) fd ->
  poll_loop b env fd timeout tv m is0 made = Some Outside.
Proof.
  intros H. apply (fill_sets_None _ _ FD_ZERO FD_ZERO m) in H.
  destruct env; cbn [poll_loop]; now rewrite H.
Qed.

Lemma posix_poll_result b env fd timeout is0 r :
  expect_poll b env fd timeout is0 = Some (Returns r) ->
  Forall (inside b) fd
  /\ match final_outcome env r with
     | SelectError => value r = -1
     | SelectReturns readable exceptional =>
       (0 < value r -> is_set r = flags readable fd)
       /\ (NoDup fd ->
           Forall (fun f => exceptional f = false) fd ->
           value r = Z.of_nat (length (filter readable fd)))
     end.
Proof.
  intros H. unfold expect_poll in H.
  apply poll_loop_rounds in H
    as (rset & eset & m' & k & o & is1 & Hfill & Hk & Hcalls & _ & _
        & Hv & Hs & _).
  split.
  { apply fill_sets_spec in Hfill as (_ & _ & _ & Hall).
    eapply Forall_impl; [|exact Hall]. unfold inside. cbv beta. tauto. }
  unfold final_outcome. rewrite Hcalls. cbn [app].
  rewrite repeat_length. replace (S k - 1)%nat with k by lia.
  rewrite (nth_error_nth _ _ _ Hk).
  assert (Hspec := after_select_spec b o fd _ _ _ _ _ is1 Hfill
                                     (Z.le_refl 0)).
  cbv zeta in Hspec.
  rewrite (after_select_fst b o fd (m' + 1) rset eset [] is1) in Hv.
  destruct o as [|readable exceptional].
  - rewrite Hspec in Hv. exact Hv.
  - destruct Hspec as (Hpos & Hnone & Hcount). split.
    + intros Hp. rewrite Hs.
      destruct (fst (after_select b (SelectReturns readable exceptional)
                                  fd (m' + 1) rset eset is1))
        as [v|] eqn:Ef.
      * apply (Hpos v eq_refl). lia.
      * lia.
    + intros Hnd Hex. rewrite (Hcount Hnd Hex) in Hv. exact Hv.
Qed.

(** The number of calls to [select] and the turns of the loop. *)
Lemma posix_poll_turns b env fd timeout is0 r :
  expect_poll b env fd timeout is0 = Some (Returns r) ->
  exists k o n,
    nth_error env k = Some o
    /\ calls r
       = repeat {| nfds := n;
                   timeout_arg :=
                     if timeout =? -1 then None
                     else Some {| tv_sec := Z.quot timeout 1000;
                                  tv_usec := Z.rem timeout 1000 * 1000 |} |}
                (S k)
    /\ (forall j o', (j < k)%nat -> nth_error env j = Some o' ->
          timeout = -1 /\ ready_at b o' fd = Some 0)
    /\ (timeout = -1 -> ready_at b o fd <> Some 0)
    /\ value r = match ready_at b o fd with
                 | Some v => v
                 | None => -1
                 end.
Proof.
  intros H. unfold expect_poll in H.
  apply poll_loop_rounds in H
    as (rset & eset & m' & k & o & is1 & Hfill & Hk & Hcalls & Hbefore
        & Hlast & Hv & _).
  exists k, o, (m' + 1). unfold ready_at. rewrite Hfill.
  split; [assumption|]. split; [assumption|].
  split; [exact Hbefore|]. split; assumption.
Qed.

End PosixPollFacts.

Module WinPollFacts.
Import Poll Poll.Win.

(** ** One look at the pipes *)

Lemma peek_available p fd : forall i0 i,
  peek p fd i0 = Available i ->
  exists k f,
    i = (i0 + k)%nat
    /\ nth_error fd k = Some f
    /\ readable p f = true
    /\ silent_before p fd k.
Proof.
  induction fd as [|f fd IH]; intros i0 i H; cbn [peek] in H;
    [discriminate|].
  destruct (p f) as [avail|] eqn:Ep; [|discriminate].
  destruct (0 <? avail) eqn:Ea.
  - injection H as <-. exists 0%nat, f. split; [lia|].
    split; [reflexivity|]. split.
    + unfold readable. now rewrite Ep.
    + intros j g Hj. lia.
  - apply IH in H as (k & g & -> & Hk & Hr & Hbefore).
    exists (S k), g. split; [lia|]. split; [assumption|].
    split; [assumption|].
    intros [|j] g' Hj Hg.
    + injection Hg as <-. unfold readable. rewrite Ep.
      split; [assumption | discriminate].
    + apply (Hbefore j); [lia | assumption].
Qed.

Lemma peek_nothing p fd : forall i0,
  peek p fd i0 = Nothing ->
  Forall (fun f => readable p f = false /\ p f <> None) fd.
Proof.
  induction fd as [|f fd IH]; intros i0 H; cbn [peek] in H;
    [constructor|].
  destruct (p f) as [avail|] eqn:Ep; [|discriminate].
  destruct (0 <? avail) eqn:Ea; [discriminate|].
  constructor; [|eapply IH; eassumption].
  unfold readable. rewrite Ep. split; [assumption | discriminate].
Qed.

Lemma peek_failed p fd : forall i0,
  peek p fd i0 = PeekFailed ->
  exists k f,
    nth_error fd k = Some f /\ p f = None /\ silent_before p fd k.
Proof.
  induction fd as [|f fd IH]; intros i0 H; cbn [peek] in H;
    [discriminate|].
  destruct (p f) as [avail|] eqn:Ep.
  - destruct (0 <? avail) eqn:Ea; [discriminate|].
    apply IH in H as (k & g & Hk & Hn & Hbefore).
    exists (S k), g. split; [assumption|]. split; [assumption|].
    intros [|j] g' Hj Hg.
    + injection Hg as <-. unfold readable. rewrite Ep.
      split; [assumption | discriminate].
    + apply (Hbefore j); [lia | assumption].
  - exists 0%nat, f. split; [reflexivity|]. split; [assumption|].
    intros j g Hj. lia.
Qed.

(** ** The sleeps *)

Lemma total_app a b : total (a ++ b) = total a + total b.
Proof.
  unfold total. induction a as [|x a IH]; [reflexivity|].
  cbn [app fold_right]. lia.
Qed.

Lemma next_nap k :
  (if nap k <? MAX_DELAY then nap k + 10 else nap k) = nap (S k).
Proof.
  unfold nap, MAX_DELAY. rewrite Nat2Z.inj_succ.
  destruct (Z.min (5 + 10 * Z.of_nat k) 105 <? 100) eqn:E.
  - apply Z.ltb_lt in E. lia.
  - apply Z.ltb_ge in E. lia.
Qed.

Lemma nap_bounds k : 5 <= nap k <= 105.
Proof. unfold nap. lia. Qed.

Lemma total_naps_from k0 j :
  total (map nap (seq k0 (S j)))
  = nap k0 + total (map nap (seq (S k0) j)).
Proof. reflexivity. Qed.

(** ** The loop *)

Lemma win_poll_loop_rounds env : forall fd infinite timeout k0 is0 naps r,
  poll_loop env fd infinite timeout (nap k0) is0 naps = Some (Returns r) ->
  exists k p,
    nth_error env k = Some p
    /\ slept r = naps ++ map nap (seq k0 k)
    /\ (forall j q, (j < k)%nat -> nth_error env j = Some q ->
          peek q fd 0 = Nothing
          /\ (infinite = true
              \/ total (map nap (seq k0 j)) < timeout))
    /\ match peek p fd 0 with
       | PeekFailed => value r = -1 /\ is_set r = is0
       | Available i => value r = 1 /\ is_set r = store is0 i 1
       | Nothing =>
         value r = 0 /\ is_set r = is0 /\ infinite = false
         /\ timeout <= total (map nap (seq k0 k))
       end.
Proof.
  induction env as [|p env IH]; intros fd infinite timeout k0 is0 naps r H;
    [discriminate|].
  cbn [poll_loop] in H.
  destruct (peek p fd 0) as [|i|] eqn:Ep.
  - injection H as <-. exists 0%nat, p. cbn [nth_error seq map slept].
    rewrite Ep, app_nil_r.
    split; [reflexivity|]. split; [reflexivity|].
    split; [intros j q Hj; lia|]. split; reflexivity.
  - injection H as <-. exists 0%nat, p. cbn [nth_error seq map slept].
    rewrite Ep, app_nil_r.
    split; [reflexivity|]. split; [reflexivity|].
    split; [intros j q Hj; lia|]. split; reflexivity.
  - destruct (negb infinite && (timeout <=? 0)) eqn:Hc.
    + injection H as <-. exists 0%nat, p. cbn [nth_error seq map slept].
      rewrite Ep, app_nil_r.
      apply andb_true_iff in Hc as [Hi Ht]. apply negb_true_iff in Hi.
      apply Z.leb_le in Ht.
      split; [reflexivity|]. split; [reflexivity|].
      split; [intros j q Hj; lia|].
      cbn [value is_set seq map total fold_right]. auto.
    + destruct (timeout - nap k0 <? INT_MIN); [discriminate|].
      rewrite next_nap in H.
      apply IH in H as (k & q & Hk & Hs & Hbefore & Hq).
      exists (S k), q. split; [assumption|]. split.
      { rewrite Hs, <- app_assoc. reflexivity. }
      assert (Hgo : infinite = true \/ 0 < timeout).
      { destruct infinite; [now left|]. right.
        cbn [negb andb] in Hc. now apply Z.leb_gt in Hc. }
      split.
      { intros [|j] q' Hj Hq'.
        - injection Hq' as <-. split; [assumption|].
          destruct Hgo as [Hi | Ht]; [now left | right; cbn; lia].
        - destruct (Hbefore j q') as [Hn Hlt]; [lia | assumption |].
          split; [assumption|]. rewrite total_naps_from.
          destruct Hlt as [Hi | Hlt]; [now left | right; lia]. }
      destruct (peek q fd 0); try assumption.
      destruct Hq as (Hv & His & Hi & Ht).
      rewrite total_naps_from. repeat split; try assumption. lia.
Qed.

Lemma nth_store_zeros fd i j :
  (i < length fd)%nat ->
  nth j (store (zeros fd) i 1) 0 = if (j =? i)%nat then 1 else 0.
Proof.
  unfold zeros. revert i j. induction fd as [|f fd IH]; intros i j Hi.
  - cbn in Hi. lia.
  - destruct i as [|i]; destruct j as [|j]; cbn [map store nth Nat.eqb].
    + reflexivity.
    + clear. revert j. induction fd as [|g fd IHfd]; intros [|j]; cbn;
        auto.
    + reflexivity.
    + apply IH. cbn in Hi. lia.
Qed.

Lemma win_poll_result env fd timeout r :
  expect_poll env fd timeout = Some (Returns r) ->
  exists k p,
    nth_error env k = Some p
    /\ slept r = naps_before k
    /\ (forall j q, (j < k)%nat -> nth_error env j = Some q ->
          Forall (fun f => readable q f = false /\ q f <> None) fd
          /\ (timeout < 0 \/ total (naps_before j) < timeout))
    /\ ((value r = 1
         /\ exists i f,
             nth_error fd i = Some f
             /\ readable p f = true
             /\ silent_before p fd i
             /\ (forall j, nth j (is_set r) 0
                           = if (j =? i)%nat then 1 else 0))
        \/ (value r = 0
            /\ Forall (fun f => readable p f = false /\ p f <> None) fd
            /\ is_set r = zeros fd
            /\ 0 <= timeout <= total (naps_before k))
        \/ (value r = -1
            /\ is_set r = zeros fd
            /\ exists i f,
                nth_error fd i = Some f /\ p f = None
                /\ silent_before p fd i)).
Proof.
  intros H. unfold expect_poll in H. change 5 with (nap 0) in H.
  apply win_poll_loop_rounds in H as (k & p & Hk & Hs & Hbefore & Hp).
  exists k, p. split; [assumption|]. split; [exact Hs|]. split.
  { intros j q Hj Hq. destruct (Hbefore j q Hj Hq) as [Hn Ht]. split.
    - eapply peek_nothing; eassumption.
    - destruct Ht as [Hi | Ht]; [left | now right].
      now apply Z.ltb_lt in Hi. }
  destruct (peek p fd 0) as [|i|] eqn:Ep.
  - right; right. destruct Hp as [Hv His]. split; [assumption|].
    split; [assumption|]. eapply peek_failed; eassumption.
  - left. destruct Hp as [Hv His]. split; [assumption|].
    apply peek_available in Ep as (k' & f & -> & Hf & Hr & Hb).
    exists k', f. split; [assumption|]. split; [assumption|].
    split; [assumption|].
    intros j. rewrite His. apply nth_store_zeros.
    apply nth_error_Some. congruence.
  - right; left. destruct Hp as (Hv & His & Hi & Ht).
    split; [assumption|]. split; [eapply peek_nothing; eassumption|].
    split; [assumption|]. apply Z.ltb_ge in Hi. split; assumption.
Qed.

End WinPollFacts.

Module PollFacts.
Import Poll.

(** C2 (as amended).  For every call that returns.

    With [select]: a descriptor that is negative or not below
    [FD_SETSIZE] is written outside the sets, and the call gives
    nothing that can be relied on; otherwise the value is -1 when
    [select] fails; when the value is positive, [is_set[i]] is 1 iff
    [fd[i]] is readable, for every [i]; and when the descriptors are
    distinct and none has an exceptional condition, the value is the
    number of readable descriptors (0 on a timeout).

    With [PeekNamedPipe]: the function returns in the first round in
    which a pipe has data, a peek fails, or the sleeps asked for so far
    add up to the timeout (which is then not negative); in every round
    before, no pipe had data and no peek failed.  The value is 1 when
    the first pipe, in the order of the list, that has data or whose
    peek fails has data, and [is_set[i]] is 1 iff [i] is its index; it
    is -1 when the peek of that pipe fails, and 0 when there is no such
    pipe (a timeout), with every flag 0 in both cases. *)
Theorem expect_poll_result :
  (forall b env fd timeout is0,
      (Exists (fun f => ~ Posix.inside b f) fd ->
       Posix.expect_poll b env fd timeout is0 = Some Posix.Outside)
      /\ forall r,
          Posix.expect_poll b env fd timeout is0
          = Some (Posix.Returns r) ->
          Forall (Posix.inside b) fd
          /\ match Posix.final_outcome env r with
             | Posix.SelectError => Posix.value r = -1
             | Posix.SelectReturns readable exceptional =>
               (0 < Posix.value r ->
                Posix.is_set r = Posix.flags readable fd)
               /\ (NoDup fd ->
                   Forall (fun f => exceptional f = false) fd ->
                   Posix.value r
                   = Z.of_nat (length (filter readable fd)))
             end)
  /\ (forall env fd timeout r,
         Win.expect_poll env fd timeout = Some (Win.Returns r) ->
         exists k p,
           nth_error env k = Some p
           /\ Win.slept r = Win.naps_before k
           /\ (forall j q, (j < k)%nat -> nth_error env j = Some q ->
                 Forall (fun f => Win.readable q f = false
                                  /\ q f <> None) fd
                 /\ (timeout < 0
                     \/ Win.total (Win.naps_before j) < timeout))
           /\ ((Win.value r = 1
                /\ exists i f,
                    nth_error fd i = Some f
                    /\ Win.readable p f = true
                    /\ Win.silent_before p fd i
                    /\ (forall j, nth j (Win.is_set r) 0
                                  = if (j =? i)%nat then 1 else 0))
               \/ (Win.value r = 0
                   /\ Forall (fun f => Win.readable p f = false
                                       /\ p f <> None) fd
                   /\ Win.is_set r = Win.zeros fd
                   /\ 0 <= timeout <= Win.total (Win.naps_before k))
               \/ (Win.value r = -1
                   /\ Win.is_set r = Win.zeros fd
                   /\ exists i f,
                       nth_error fd i = Some f /\ p f = None
                       /\ Win.silent_before p fd i))).
Proof.
  split.
  - intros b env fd timeout is0. split.
    + apply PosixPollFacts.poll_loop_outside.
    + intros r. apply PosixPollFacts.posix_poll_result.
  - exact WinPollFacts.win_poll_result.
Qed.

Lemma expect_poll_result_witness :
  (exists r,
      Posix.expect_poll Posix.linux
        [Posix.SelectReturns (fun f => f =? 3) Posix.nothing]
        [3; 4] 1000 [7; 7] = Some (Posix.Returns r)
      /\ Posix.value r = 1
      /\ Posix.is_set r = [1; 0]
      /\ Forall (Posix.inside Posix.linux) [3; 4]
      /\ match Posix.final_outcome
                 [Posix.SelectReturns (fun f => f =? 3) Posix.nothing] r with
         | Posix.SelectError => Posix.value r = -1
         | Posix.SelectReturns readable exceptional =>
           (0 < Posix.value r ->
            Posix.is_set r = Posix.flags readable [3; 4])
           /\ (NoDup [3; 4] ->
               Forall (fun f => exceptional f = false) [3; 4] ->
               Posix.value r
               = Z.of_nat (length (filter readable [3; 4])))
         end)
  /\ Posix.expect_poll Posix.linux [] [3; 1024] 1000 [7; 7]
     = Some Posix.Outside
  /\ (exists r,
         Win.expect_poll [Win.no_data; Win.no_data; Win.no_data]
                         [3; 4] 20 = Some (Win.Returns r)
         /\ Win.value r = 0
         /\ Win.slept r = [5; 15]
         /\ exists k p,
             nth_error [Win.no_data; Win.no_data; Win.no_data] k = Some p
             /\ Win.slept r = Win.naps_before k).
Proof.
  split; [|split].
  - eexists. split; [reflexivity|].
    split; [reflexivity|]. split; [reflexivity|].
    apply (proj2 (proj1 expect_poll_result Posix.linux
                   [Posix.SelectReturns (fun f => f =? 3) Posix.nothing]
                   [3; 4] 1000 [7; 7])). reflexivity.
  - apply (proj1 (proj1 expect_poll_result Posix.linux []
                   [3; 1024] 1000 [7; 7])).
    right. left. unfold Posix.inside. cbn. lia.
  - eexists. split; [reflexivity|].
    split; [reflexivity|]. split; [reflexivity|].
    destruct (proj2 expect_poll_result
                    [Win.no_data; Win.no_data; Win.no_data] [3; 4] 20 _
                    eq_refl) as (k & p & Hk & Hs & _).
    exists k, p. split; assumption.
Defined.

(** C2 (as stated) fails in three ways.  With [PeekNamedPipe], when
    two pipes have data the value is 1, not 2, and only the first flag
    is set.  With [select], a descriptor given twice is counted once,
    and a readable descriptor that also has an exceptional condition is
    counted twice. *)
Lemma expect_poll_result_counterexample :
  ~ (forall env fd timeout r,
        Win.expect_poll env fd timeout = Some (Win.Returns r) ->
        let p := Win.final_round env r in
        (0 < Win.value r ->
         Win.value r = Z.of_nat (length (filter (Win.readable p) fd)))
        /\ (forall i f, nth_error fd i = Some f ->
                        (nth i (Win.is_set r) 0 = 1
                         <-> Win.readable p f = true)))
  /\ ~ (forall env fd timeout is0 r,
           Forall (fun f => 0 <= f) fd ->
           Posix.expect_poll Posix.linux env fd timeout is0
           = Some (Posix.Returns r) ->
           match Posix.final_outcome env r with
           | Posix.SelectError => True
           | Posix.SelectReturns readable exceptional =>
             Forall (fun f => exceptional f = false) fd ->
             Posix.value r = Z.of_nat (length (filter readable fd))
           end)
  /\ ~ (forall env fd timeout is0 r,
           Forall (fun f => 0 <= f) fd ->
           Posix.expect_poll Posix.linux env fd timeout is0
           = Some (Posix.Returns r) ->
           match Posix.final_outcome env r with
           | Posix.SelectError => True
           | Posix.SelectReturns readable exceptional =>
             NoDup fd ->
             Posix.value r = Z.of_nat (length (filter readable fd))
           end).
Proof.
  split; [|split]; intros H.
  - specialize (H [Win.data_everywhere] [3; 4] 0 _ eq_refl).
    destruct H as [H _]. specialize (H eq_refl). discriminate H.
  - specialize (H [Posix.SelectReturns (fun _ => true) Posix.nothing]
                  [3; 3] 0 [0; 0] _
                  ltac:(repeat constructor; lia) eq_refl).
    cbn in H. discriminate H. repeat constructor.
  - specialize (H [Posix.SelectReturns (fun f => f =? 3) (fun f => f =? 3)]
                  [3] 0 [0] _
                  ltac:(repeat constructor; lia) eq_refl).
    cbn in H. discriminate H. repeat constructor. intros [].
Qed.

(** C7.  For every call of the select-based poll that returns, the
    function has called [select] once more than there were turns in
    which [ready] came out 0 under the timeout -1: it goes round again
    after exactly those turns, and returns in the first turn that is
    not one of them, with the value of that turn.  Every call to
    [select] is given a null timeout when the timeout is -1, and the
    [timeval] computed from the timeout when it is not: for every
    other timeout, negative or not, there is one call to [select].
    At the timeout -2 [select] is given 0 s and -2000 us, and the
    function returns after that call though nothing was ready; the
    PeekNamedPipe-based poll, given -2, sleeps and looks again. *)
Theorem posix_poll_waits :
  (forall b env fd timeout is0 r,
      Posix.expect_poll b env fd timeout is0 = Some (Posix.Returns r) ->
      exists k o n,
        nth_error env k = Some o
        /\ Posix.calls r
           = repeat
               {| Posix.nfds := n;
                  Posix.timeout_arg :=
                    if timeout =? -1 then None
                    else Some {| Posix.tv_sec := Z.quot timeout 1000;
                                 Posix.tv_usec :=
                                   Z.rem timeout 1000 * 1000 |} |}
               (S k)
        /\ (forall j o', (j < k)%nat -> nth_error env j = Some o' ->
              timeout = -1 /\ Posix.ready_at b o' fd = Some 0)
        /\ (timeout = -1 -> Posix.ready_at b o fd <> Some 0)
        /\ Posix.value r = match Posix.ready_at b o fd with
                           | Some v => v
                           | None => -1
                           end
        /\ (timeout <> -1 -> k = 0%nat))
  /\ Posix.expect_poll Posix.linux
       [Posix.SelectReturns Posix.nothing Posix.nothing;
        Posix.SelectReturns (fun f => f =? 3) Posix.nothing]
       [3] (-2) [7]
     = Some (Posix.Returns
               {| Posix.value := 0;
                  Posix.is_set := [7];
                  Posix.calls :=
                    [{| Posix.nfds := 4;
                        Posix.timeout_arg :=
                          Some {| Posix.tv_sec := 0;
                                  Posix.tv_usec := -2000 |} |}] |})
  /\ Posix.expect_poll Posix.linux
       [Posix.SelectReturns Posix.nothing Posix.nothing;
        Posix.SelectReturns (fun f => f =? 3) Posix.nothing]
       [3] (-1) [7]
     = Some (Posix.Returns
               {| Posix.value := 1;
                  Posix.is_set := [1];
                  Posix.calls :=
                    [{| Posix.nfds := 4; Posix.timeout_arg := None |};
                     {| Posix.nfds := 4; Posix.timeout_arg := None |}] |})
  /\ Win.expect_poll [Win.no_data; Win.data_everywhere] [3] (-2)
     = Some (Win.Returns
               {| Win.value := 1; Win.is_set := [1]; Win.slept := [5] |}).
Proof.
  split; [|repeat split].
  intros b env fd timeout is0 r H.
  apply PosixPollFacts.posix_poll_turns in H
    as (k & o & n & Hk & Hcalls & Hbefore & Hlast & Hv).
  exists k, o, n. repeat split; try assumption.
  - apply (Hbefore j o'); assumption.
  - apply (Hbefore j o'); assumption.
  - intros Hne. destruct k as [|k]; [reflexivity|].
    destruct env as [|o0 env]; [discriminate|].
    destruct (Hbefore 0%nat o0) as [Ht _]; [lia | reflexivity |].
    contradiction.
Qed.

Lemma posix_poll_waits_witness :
  exists r k o n,
    Posix.expect_poll Posix.linux
      [Posix.SelectReturns Posix.nothing Posix.nothing;
       Posix.SelectReturns (fun f => f =? 3) Posix.nothing]
      [3] (-1) [7] = Some (Posix.Returns r)
    /\ nth_error [Posix.SelectReturns Posix.nothing Posix.nothing;
                  Posix.SelectReturns (fun f => f =? 3) Posix.nothing] k
       = Some o
    /\ Posix.calls r
       = repeat {| Posix.nfds := n; Posix.timeout_arg := None |} (S k)
    /\ Posix.value r = match Posix.ready_at Posix.linux o [3] with
                       | Some v => v
                       | None => -1
                       end.
Proof.
  eexists.
  destruct (proj1 posix_poll_waits Posix.linux
              [Posix.SelectReturns Posix.nothing Posix.nothing;
               Posix.SelectReturns (fun f => f =? 3) Posix.nothing]
              [3] (-1) [7] _ eq_refl)
    as (k & o & n & Hk & Hcalls & _ & _ & Hv & _).
  exists k, o, n. split; [reflexivity|]. repeat split; assumption.
Defined.

End PollFacts.

Module ReapFacts.
Import Reap.

(** With [waitpid] the call returns when the child has ended, and the
    value is the exit code the child gave, modulo 256. *)
Lemma posix_gvd_waitpid_exit_code code :
  Posix.gvd_waitpid (Posix.Ends (Posix.exited code))
  = Some (Z.land code 0xff)
  /\ Posix.gvd_waitpid Posix.Runs_forever = None.
Proof.
  split; [|reflexivity].
  unfold Posix.gvd_waitpid, Posix.WEXITSTATUS, Posix.exited. f_equal.
  rewrite Z.shiftr_shiftl_l by lia.
  rewrite Z.sub_diag, Z.shiftl_0_r, <- Z.land_assoc, Z.land_diag.
  reflexivity.
Qed.

(** C8, on Windows.  [gvd_waitpid] gives [WaitForSingleObject] a
    timeout of 0: it returns at the time it was called, whatever the
    child does, and its value is [STILL_ACTIVE] (259) unless the child
    had already exited; it is then the exit code cast to [int].  For a
    child that exits a second later the value is 259, not the exit
    code; for a child that has ended with the code 0xC0000005 it is
    -1073741819. *)
Theorem win_gvd_waitpid_returns_at_once procinfo p now :
  exists r,
    Win.gvd_waitpid procinfo p now = Some r
    /\ Win.returned_at r = now
    /\ Win.value r = (if Win.has_exited p now
                      then Win.as_int (Win.exit_code p)
                      else Win.STILL_ACTIVE)
    /\ Win.calls r
       = [Win.Call_WaitForSingleObject (Win.hProcess procinfo) 0;
          Win.Call_GetExitCodeProcess (Win.hProcess procinfo);
          Win.Call_CloseHandle (Win.hThread procinfo);
          Win.Call_CloseHandle (Win.hProcess procinfo)]
    /\ (exists r1,
           Win.gvd_waitpid procinfo Win.one_second 0 = Some r1
           /\ Win.value r1 = 259 /\ Win.returned_at r1 = 0)
    /\ (exists r2,
           Win.gvd_waitpid procinfo Win.crashed 0 = Some r2
           /\ Win.value r2 = -1073741819).
Proof.
  assert (Hex : (exists r1,
                    Win.gvd_waitpid procinfo Win.one_second 0 = Some r1
                    /\ Win.value r1 = 259 /\ Win.returned_at r1 = 0)
                /\ (exists r2,
                       Win.gvd_waitpid procinfo Win.crashed 0 = Some r2
                       /\ Win.value r2 = -1073741819)).
  { split; eexists; repeat split; reflexivity. }
  destruct Hex as [Hone Hcrash].
  assert (Hv : Win.value
                 {| Win.value :=
                      Win.as_int (Win.GetExitCodeProcess p now);
                    Win.returned_at := now;
                    Win.calls := [] |}
               = (if Win.has_exited p now
                  then Win.as_int (Win.exit_code p)
                  else Win.STILL_ACTIVE)).
  { cbn [Win.value]. unfold Win.GetExitCodeProcess.
    destruct (Win.has_exited p now); reflexivity. }
  cbn [Win.value] in Hv.
  unfold Win.gvd_waitpid, Win.WaitForSingleObject.
  destruct (Win.has_exited p now) eqn:E.
  - eexists. split; [reflexivity|].
    cbn [Win.value Win.returned_at Win.calls].
    repeat split; try reflexivity; assumption.
  - change (0 =? Win.INFINITE) with false. cbv iota.
    assert (Hlate : forall t,
               Win.exits_at p = Some t -> (t <=? now + 0) = false).
    { intros t Ht. unfold Win.has_exited in E. rewrite Ht in E.
      now rewrite Z.add_0_r. }
    destruct (Win.exits_at p) as [t|] eqn:Et.
    + rewrite (Hlate t eq_refl). eexists. split; [reflexivity|].
      cbn [Win.value Win.returned_at Win.calls].
      rewrite !Z.add_0_r.
      repeat split; try reflexivity; try assumption.
    + eexists. split; [reflexivity|].
      cbn [Win.value Win.returned_at Win.calls].
      rewrite !Z.add_0_r.
      repeat split; try reflexivity; try assumption.
Qed.

End ReapFacts.

Module PtyFacts.
Import Pty.

(** C9.  Whenever [allocate_pty_desc] fails and stores a null pointer,
    [gvd_new_tty] reads [desc->master_fd] through that null pointer: it
    does not look at the status.  This is so on Linux whenever [getpt]
    fails or the slave has no name, and there is such a system. *)
Theorem gvd_new_tty_null_dereference :
  (forall sys desc0 m evs,
      allocate_pty_desc sys desc0 = (-1, NULL, m, evs) ->
      gvd_new_tty sys desc0 = (Invalid_read NULL, evs))
  /\ (forall sys desc0,
         configured sys = USE_GETPT ->
         getpt sys < 0 \/ ptsname sys (getpt sys) = None ->
         fst (gvd_new_tty sys desc0) = Invalid_read NULL)
  /\ (exists sys desc0 m evs,
         allocate_pty_desc sys desc0 = (-1, NULL, m, evs)
         /\ fst (gvd_new_tty sys desc0) = Invalid_read NULL).
Proof.
  split; [|split].
  - intros sys desc0 m evs H. unfold gvd_new_tty. rewrite H. reflexivity.
  - intros sys desc0 Hc Hf. unfold gvd_new_tty, allocate_pty_desc.
    rewrite Hc. cbn [negb]. cbv iota beta.
    change (0 =? 0) with true. cbn [negb orb].
    destruct (getpt sys <? 0) eqn:E; [reflexivity|].
    destruct Hf as [Hf|Hf]; [apply Z.ltb_ge in E; lia|].
    rewrite Hf. reflexivity.
  - exists out_of_ptys, 12345. do 2 eexists. split; reflexivity.
Qed.

Lemma gvd_new_tty_null_dereference_witness :
  gvd_new_tty out_of_ptys 12345
  = (Invalid_read NULL,
     [Printf "[error]: cannot allocate master side of the pty"])
  /\ fst (gvd_new_tty out_of_ptys 12345) = Invalid_read NULL.
Proof.
  split.
  - apply (proj1 gvd_new_tty_null_dereference out_of_ptys 12345 empty_heap).
    reflexivity.
  - apply (proj1 (proj2 gvd_new_tty_null_dereference) out_of_ptys 12345).
    + reflexivity.
    + left. reflexivity.
Defined.

End PtyFacts.

Module WinLowFacts.
Import WinLow.

(** ** Taking a run apart *)

Lemma bind_Some {A B} (m : run A) (k : A -> run B) l b l2 :
  bind m k l = Some (b, l2) ->
  exists a l1, m l = Some (a, l1) /\ k a l1 = Some (b, l2).
Proof.
  unfold bind. destruct (m l) as [[a l1]|]; [|discriminate].
  intros H. exists a, l1. split; [reflexivity | assumption].
Qed.

Lemma ret_Some {A} (a : A) l b l2 :
  ret a l = Some (b, l2) -> b = a /\ l2 = l.
Proof. unfold ret. intros [= <- <-]. split; reflexivity. Qed.

Lemma call_Some os c l a l2 :
  call os c l = Some (a, l2) ->
  a = os (length l) c /\ l2 = (c, a) :: l.
Proof. unfold call. intros [= <- <-]. split; reflexivity. Qed.

Tactic Notation "bindc" hyp(H) "as" ident(a) ident(Ea) :=
  let l := fresh "l" in
  let Hc := fresh "Hc" in
  apply bind_Some in H as (a & l & Hc & H);
  apply call_Some in Hc as [Ea ->].

Tactic Notation "bindm" hyp(H) "as" ident(a) ident(l) ident(Ha) :=
  apply bind_Some in H as (a & l & Ha & H).

Ltac retn H := apply ret_Some in H as [-> ->].

(** A run that gave a result did not leave an array. *)
Ltac in_bounds H :=
  match type of H with
  | match fill_from_buffer ?s ?n with _ => _ end _ = Some _ =>
    let from_buffer := fresh "from_buffer" in
    let Efill := fresh "Efill" in
    destruct (fill_from_buffer s n) as [from_buffer|] eqn:Efill;
    [|discriminate H]
  | (if negb (terminated ?b) then _ else _) _ = Some _ =>
    let Eterm := fresh "Eterm" in
    destruct (negb (terminated b)) eqn:Eterm; [discriminate H|]
  | (if (?a <? ?b)%nat then _ else _) _ = Some _ =>
    let Efit := fresh "Efit" in
    destruct (a <? b)%nat eqn:Efit; [discriminate H|]
  | (if (?a <=? ?b)%nat then _ else _) _ = Some _ =>
    let Efit := fresh "Efit" in
    destruct (a <=? b)%nat eqn:Efit; [discriminate H|]
  end.

(** ** What a stretch of the log holds *)

Lemma quiet_nil : quiet [].
Proof. constructor. Qed.

Lemma quiet_cons e new : neutral e = true -> quiet new -> quiet (e :: new).
Proof. intros. constructor; assumption. Qed.

Lemma quiet_app n1 n2 : quiet n1 -> quiet n2 -> quiet (n1 ++ n2).
Proof. intros. apply Forall_app. split; assumption. Qed.

Lemma quiet_renamed new l :
  quiet new -> existsb renamed (new ++ l) = existsb renamed l.
Proof.
  induction 1 as [|e new He _ IH]; [reflexivity|].
  cbn [app existsb]. rewrite IH.
  unfold neutral in He. apply andb_true_iff in He as [He _].
  unfold renamed, is_rename in *. destruct (fst e); try reflexivity.
  discriminate.
Qed.

Lemma quiet_last_delete new l :
  quiet new -> last_delete_status (new ++ l) = last_delete_status l.
Proof.
  unfold last_delete_status.
  induction 1 as [|e new He _ IH]; [reflexivity|].
  cbn [app find].
  unfold neutral in He. apply andb_true_iff in He as [_ He].
  apply negb_true_iff in He. rewrite He. exact IH.
Qed.

Lemma quiet_rename_on h new l :
  quiet new ->
  forallb (rename_on h) (new ++ l) = forallb (rename_on h) l.
Proof.
  induction 1 as [|e new He _ IH]; [reflexivity|].
  cbn [app forallb]. rewrite IH.
  unfold neutral in He. apply andb_true_iff in He as [He _].
  unfold rename_on, is_rename in *. destruct (fst e); try reflexivity.
  discriminate.
Qed.

(** ** is_dir_empty only lists and queries *)

Section Runs.

Variable os : system.
Variable stack : wstring.

Lemma entries_loop_quiet h following : forall cursor l found l2,
  entries_loop os h cursor following l = Some (found, l2) ->
  exists new, l2 = new ++ l /\ quiet new.
Proof.
  induction following as [|next following IH]; intros cursor l found l2 H;
    cbn [entries_loop] in H; bindc H as r Er.
  - destruct (negb (is_absent (status_of r))); retn H;
      (eexists [_]; split;
       [reflexivity | apply quiet_cons; [reflexivity | apply quiet_nil]]).
  - destruct (negb (is_absent (status_of r))).
    + retn H. eexists [_]. split; [reflexivity|].
      apply quiet_cons; [reflexivity | apply quiet_nil].
    + apply IH in H as (new & -> & Hq).
      exists (new ++ [(NtQueryAttributesFile
                         {| ObjectName := cursor; Attributes := 0;
                            RootDirectory := Some h |}, r)]).
      split; [now rewrite <- app_assoc|].
      apply quiet_app; [assumption|].
      apply quiet_cons; [reflexivity | apply quiet_nil].
Qed.

Lemma pages_loop_quiet pages h : forall cursor following l st l2,
  pages_loop os pages h cursor following l = Some (st, l2) ->
  exists new, l2 = new ++ l /\ quiet new.
Proof.
  induction pages as [|pages IH]; intros cursor following l st l2 H;
    cbn [pages_loop] in H; [discriminate|].
  bindm H as found l1 He.
  apply entries_loop_quiet in He as (n1 & -> & Hq1).
  destruct found.
  - retn H. exists n1. split; [reflexivity | assumption].
  - bindc H as r Er.
    assert (Hq : quiet ((NtQueryDirectoryFile h false, r) :: n1))
      by (apply quiet_cons; [reflexivity | assumption]).
    destruct (NT_SUCCESS (status_of r)).
    + apply IH in H as (n2 & -> & Hq2).
      exists (n2 ++ (NtQueryDirectoryFile h false, r) :: n1).
      split; [now rewrite <- app_assoc|].
      apply quiet_app; assumption.
    + retn H. eexists (_ :: n1). split; [reflexivity | assumption].
Qed.

Lemma is_dir_empty_quiet pages h l st l2 :
  is_dir_empty os pages h l = Some (st, l2) ->
  exists new, l2 = new ++ l /\ quiet new.
Proof.
  unfold is_dir_empty. intros H. bindc H as r Er.
  assert (Hq : quiet [(NtQueryDirectoryFile h true, r)])
    by (apply quiet_cons; [reflexivity | apply quiet_nil]).
  destruct (status_of r =? STATUS_NO_MORE_FILES);
    [retn H; eexists [_]; split; [reflexivity | eassumption]|].
  destruct (negb (NT_SUCCESS (status_of r)));
    [retn H; eexists [_]; split; [reflexivity | eassumption]|].
  destruct (next_entries_of r) as [|second [|third following]];
    try (retn H; eexists [_]; split; [reflexivity | eassumption]).
  apply pages_loop_quiet in H as (n & -> & Hn).
  exists (n ++ [(NtQueryDirectoryFile h true, r)]).
  split; [now rewrite <- app_assoc|]. apply quiet_app; assumption.
Qed.

(** ** move_away renames through its handle, when it succeeds *)

Lemma move_away_log h name l st l2 :
  move_away os stack h name l = Some (st, l2) ->
  existsb renamed l2 = NT_SUCCESS st || existsb renamed l
  /\ last_delete_status l2 = last_delete_status l
  /\ forallb (rename_on h) l2 = forallb (rename_on h) l.
Proof.
  unfold move_away. intros H. in_bounds H. in_bounds H.
  bindc H as vol Evol. in_bounds H. bindc H as info Einfo.
  destruct (negb (NT_SUCCESS (status_of info))) eqn:E0.
  - retn H. apply negb_true_iff in E0. rewrite E0.
    repeat split; reflexivity.
  - in_bounds H. bindc H as ren Eren.
    destruct (negb (NT_SUCCESS (status_of ren))) eqn:E1.
    + bindc H as out Eout. retn H. apply negb_true_iff in E1.
      cbn [existsb forallb]. unfold renamed, rename_on,
        last_delete_status. cbn [fst snd find is_delete_attempt].
      rewrite E1, Z.eqb_refl. repeat split; reflexivity.
    + retn H. apply negb_false_iff in E1.
      cbn [existsb forallb]. unfold renamed, rename_on,
        last_delete_status. cbn [fst snd find is_delete_attempt].
      rewrite E1, Z.eqb_refl. repeat split; reflexivity.
Qed.

(** ** The variables and the log agree *)

Lemma sound_quiet v new l : quiet new -> sound v l -> sound v (new ++ l).
Proof.
  intros Hq [H1 H2]. split.
  - now rewrite quiet_renamed.
  - now rewrite quiet_rename_on.
Qed.

Lemma sound_not_rename v e l :
  is_rename (fst e) = false -> sound v l -> sound v (e :: l).
Proof.
  intros He [H1 H2]. unfold sound. cbn [existsb forallb].
  unfold renamed, rename_on, is_rename in *.
  destruct (fst e); try discriminate; split; assumption.
Qed.

Lemma last_delete_neutral e l :
  is_delete_attempt (fst e) = false ->
  last_delete_status (e :: l) = last_delete_status l.
Proof.
  intros He. unfold last_delete_status. cbn [find]. now rewrite He.
Qed.

Lemma delete_on_close_flag flags :
  Z.testbit (Z.lor flags FILE_DELETE_ON_CLOSE) 12 = true.
Proof. rewrite Z.lor_spec. apply orb_true_r. Qed.

Lemma delete_loop_body pages name v l v1 l1 ta :
  let e := (SetDispositionInformation (handle v) true,
            os (length l) (SetDispositionInformation (handle v) true)) in
  let st := status_of (snd e) in
  (if st =? STATUS_DIRECTORY_NOT_EMPTY then
     empty <- (if negb (dir_empty v)
               then e <- is_dir_empty os pages (handle v) ;;
                    ret (NT_SUCCESS e)
               else ret (dir_empty v)) ;;
     ret {| status := st; handle := handle v; share := share v;
            access := access v; flags := flags v;
            is_dir := is_dir v; dir_empty := empty;
            try_to_move_away := try_to_move_away v;
            has_been_moved_away := has_been_moved_away v;
            try_again := if negb empty then false
                         else ta |}
   else if st =? STATUS_CANNOT_DELETE then
     moved <- (if negb (try_to_move_away v)
               then s <- move_away os stack (handle v) name ;;
                    ret (if NT_SUCCESS s then true
                         else has_been_moved_away v)
               else ret (has_been_moved_away v)) ;;
     r2 <- call os (NtOpenFile (access v)
                   {| ObjectName := Empty_Unicode_String;
                      Attributes := OBJ_CASE_INSENSITIVE;
                      RootDirectory := Some (handle v) |}
                   (share v)
                   (Z.lor (flags v) FILE_DELETE_ON_CLOSE)) ;;
     (if NT_SUCCESS (status_of r2)
      then call os (NtClose (handle_of r2)) ;;; ret tt
      else ret tt) ;;;
     ret {| status := status_of r2; handle := handle v;
            share := share v; access := access v;
            flags := flags v; is_dir := is_dir v;
            dir_empty := dir_empty v; try_to_move_away := true;
            has_been_moved_away := moved;
            try_again := ta |}
   else
     ret {| status := st; handle := handle v; share := share v;
            access := access v; flags := flags v;
            is_dir := is_dir v; dir_empty := dir_empty v;
            try_to_move_away := try_to_move_away v;
            has_been_moved_away := has_been_moved_away v;
            try_again := if negb (NT_SUCCESS st) then false
                         else ta |})%run (e :: l)
  = Some (v1, l1) ->
  sound v l ->
  sound v1 l1 /\ handle v1 = handle v
  /\ last_delete_status l1 = Some (status v1).
Proof.
  intros e st H Hs.
  assert (Hs1 : sound v (e :: l))
    by (apply sound_not_rename; [reflexivity | assumption]).
  assert (Hd1 : last_delete_status (e :: l) = Some st) by reflexivity.
  clearbody e. subst st.
  destruct (status_of (snd e) =? STATUS_DIRECTORY_NOT_EMPTY).
  { bindm H as empty l2 He. retn H. cbn [handle status].
    split; [|split; [reflexivity|]].
    - unfold sound. cbn [handle has_been_moved_away].
      destruct (negb (dir_empty v)).
      + bindm He as st' l3 Hd. retn He.
        apply is_dir_empty_quiet in Hd as (new & -> & Hq).
        apply (sound_quiet v new _ Hq Hs1).
      + retn He. exact Hs1.
    - destruct (negb (dir_empty v)).
      + bindm He as st' l3 Hd. retn He.
        apply is_dir_empty_quiet in Hd as (new & -> & Hq).
        rewrite quiet_last_delete by assumption. exact Hd1.
      + retn He. exact Hd1. }
  destruct (status_of (snd e) =? STATUS_CANNOT_DELETE).
  { bindm H as moved l2 Hm.
    assert (M : moved = existsb renamed l2
                /\ forallb (rename_on (handle v)) l2 = true).
    { destruct Hs1 as [S1 S2]. destruct (negb (try_to_move_away v)).
      - bindm Hm as s l3 Hmv. retn Hm.
        apply move_away_log in Hmv as (M1 & _ & M3).
        rewrite M1, M3, <- S1. split; [|assumption].
        destruct (NT_SUCCESS s); reflexivity.
      - retn Hm. split; assumption. }
    clear Hm. destruct M as [M1 M2].
    bindc H as r2 Er2. bindm H as u l3 Hc. retn H.
    cbn [handle status]. unfold sound. cbn [handle has_been_moved_away].
    set (o := NtOpenFile (access v)
                {| ObjectName := Empty_Unicode_String;
                   Attributes := OBJ_CASE_INSENSITIVE;
                   RootDirectory := Some (handle v) |} (share v)
                (Z.lor (flags v) FILE_DELETE_ON_CLOSE)) in *.
    assert (Ho : last_delete_status ((o, r2) :: l2)
                 = Some (status_of r2)).
    { unfold last_delete_status. cbn [find fst snd o is_delete_attempt].
      rewrite delete_on_close_flag. reflexivity. }
    destruct (NT_SUCCESS (status_of r2)).
    - bindc Hc as c Ec. retn Hc.
      split; [|split; [reflexivity|]].
      + split; cbn [existsb forallb]; assumption.
      + rewrite last_delete_neutral by reflexivity. exact Ho.
    - retn Hc. split; [|split; [reflexivity | exact Ho]].
      split; cbn [existsb forallb]; assumption. }
  retn H. cbn [handle status]. split; [|split; [reflexivity | exact Hd1]].
  exact Hs1.
Qed.

Lemma delete_loop_spec pages name n : forall v l v' l',
  delete_loop os stack pages n name v l = Some (v', l') ->
  sound v l ->
  sound v' l'
  /\ handle v' = handle v
  /\ (last_delete_status l = Some (status v) ->
      last_delete_status l' = Some (status v'))
  /\ (try_again v = true -> (0 < n)%nat ->
      last_delete_status l' = Some (status v')).
Proof.
  induction n as [|n IH]; intros v l v' l' H Hs; cbn [delete_loop] in H.
  { retn H. repeat split; try apply Hs; auto. intros _ Hn. lia. }
  destruct (try_again v) eqn:Hta; cbn [negb] in H;
    [|retn H; repeat split; try apply Hs; auto; discriminate].
  bindc H as a Ea. bindm H as v1 l1 Hb. subst a.
  apply (delete_loop_body pages name v l v1 l1 true) in Hb
    as (Hs1 & Hh1 & Hd1); [|assumption].
  destruct (negb (NT_SUCCESS (status v1)) && try_again v1).
  - bindc H as z Ez. apply IH in H as (I1 & I2 & I3 & _).
    + assert (D : last_delete_status l' = Some (status v')).
      { apply I3. rewrite last_delete_neutral by reflexivity. exact Hd1. }
      repeat split; try apply I1; auto. congruence.
    + apply sound_not_rename; [reflexivity | assumption].
  - retn H. cbn [handle status].
    repeat split; try apply Hs1; auto.
Qed.


Lemma quiet_sound v l :
  quiet l -> has_been_moved_away v = false -> sound v l.
Proof.
  intros Hq Hm. unfold sound.
  rewrite <- (app_nil_r l), quiet_renamed, quiet_rename_on by assumption.
  split; [assumption | reflexivity].
Qed.

(** ** The open loop neither renames nor deletes *)

Lemma open_loop_spec attr n : forall v l f l',
  open_loop os n attr v l = Some (f, l') ->
  Z.testbit (flags v) 12 = false ->
  quiet l ->
  quiet l'
  /\ match f with
     | Return _ => True
     | Go_on v' =>
       has_been_moved_away v' = has_been_moved_away v
       /\ try_again v' = try_again v
     end.
Proof.
  induction n as [|n IH]; intros v l f l' H Hf Hq; cbn [open_loop] in H.
  { retn H. auto. }
  bindc H as r Er.
  assert (Hq1 : quiet ((NtOpenFile (access v) attr (share v) (flags v), r)
                       :: l)).
  { apply quiet_cons; [|assumption]. unfold neutral.
    cbn [fst is_rename is_delete_attempt negb andb]. now rewrite Hf. }
  destruct (status_of r =? STATUS_SHARING_VIOLATION).
  - destruct (S n <? 2)%nat; [retn H; auto|].
    bindc H as z Ez. apply IH in H as [I1 I2]; auto.
    apply quiet_cons; [reflexivity | assumption].
  - destruct (status_of r =? STATUS_DELETE_PENDING); [retn H; auto|].
    destruct (negb (NT_SUCCESS (status_of r))); retn H; auto.
Qed.

(** ** The move block checks a directory before it moves it *)

Lemma move_block_spec pages name v l v' l' :
  move_block os stack pages name v l = Some (v', l') ->
  sound v l ->
  has_been_moved_away v = false ->
  sound v' l'
  /\ handle v' = handle v
  /\ try_again v' = try_again v
  /\ (has_been_moved_away v' = true -> NT_SUCCESS (status v') = true).
Proof.
  unfold move_block. intros H Hs Hm.
  destruct (try_to_move_away v).
  - bindm H as st l1 Hst.
    assert (Hs1 : sound v l1).
    { destruct (is_dir v).
      - apply is_dir_empty_quiet in Hst as (new & -> & Hq).
        now apply sound_quiet.
      - retn Hst. assumption. }
    destruct (NT_SUCCESS st).
    + bindm H as st2 l2 Hmv. retn H.
      apply move_away_log in Hmv as (M1 & _ & M3).
      destruct Hs1 as [S1 S2].
      cbn [handle status try_again has_been_moved_away]. unfold sound.
      cbn [handle has_been_moved_away]. rewrite M1, M3, <- S1, Hm.
      destruct (NT_SUCCESS st2); repeat split; auto; try discriminate.
    + retn H. unfold with_status.
      cbn [handle status try_again has_been_moved_away].
      repeat split; try apply Hs1; auto. rewrite Hm. discriminate.
  - retn H. repeat split; try apply Hs; auto. rewrite Hm. discriminate.
Qed.

Lemma move_block_keeps_full_directory pages name v l st l1 :
  try_to_move_away v = true ->
  is_dir v = true ->
  is_dir_empty os pages (handle v) l = Some (st, l1) ->
  NT_SUCCESS st = false ->
  move_block os stack pages name v l = Some (with_status v st, l1).
Proof.
  intros Ht Hd He Hn. unfold move_block, bind.
  rewrite Ht, Hd, He, Hn. reflexivity.
Qed.

(** ** The end of safe_unlink *)

Lemma finish_spec pages name v l res l' :
  finish os stack pages name v l = Some (res, l') ->
  sound v l ->
  try_again v = true ->
  (has_been_moved_away v = true -> NT_SUCCESS (status v) = true) ->
  existsb renamed l' = true ->
  (exists s, last_delete_status l' = Some s /\ NT_SUCCESS s = false) ->
  res = {| last_error_code := STATUS_SUCCESS; debug := 0x6 |}
  /\ exists a rest,
      l' = (NtClose (handle v), a) :: rest
      /\ forallb (rename_on (handle v)) rest = true.
Proof.
  unfold finish. intros H Hs Hta Hmv Hren (s & Hlast & Hfail).
  bindm H as v1 l1 Hloop.
  assert (Hv1 : sound v1 l1 /\ handle v1 = handle v
                /\ (NT_SUCCESS (status v) = true ->
                    last_delete_status l1 = Some (status v1))
                /\ (NT_SUCCESS (status v) = false -> v1 = v /\ l1 = l)).
  { destruct (NT_SUCCESS (status v)).
    - apply delete_loop_spec in Hloop as (D1 & D2 & _ & D4);
        [|assumption].
      repeat split; try apply D1; auto; try discriminate.
      intros _. apply D4; [assumption|].
      destruct (has_been_moved_away v); lia.
    - retn Hloop. repeat split; try apply Hs; auto. discriminate. }
  destruct Hv1 as (Hs1 & Hh1 & Hd1 & Hsame).
  bindc H as c Ec.
  assert (Hend : l' = (NtClose (handle v1), c) :: l1
                 /\ res = if has_been_moved_away v1
                             && negb (NT_SUCCESS (status v1))
                          then {| last_error_code := STATUS_SUCCESS;
                                  debug := 0x6 |}
                          else {| last_error_code := status v1;
                                  debug := 0 |}).
  { destruct (has_been_moved_away v1 && negb (NT_SUCCESS (status v1)));
      retn H; split; reflexivity. }
  clear H. destruct Hend as [-> ->].
  cbn [existsb] in Hren.
  change (renamed (NtClose (handle v1), c)) with false in Hren.
  cbn [orb] in Hren.
  rewrite last_delete_neutral in Hlast by reflexivity.
  destruct Hs1 as [S1 S2].
  destruct (NT_SUCCESS (status v)) eqn:Est.
  - rewrite (Hd1 eq_refl) in Hlast. injection Hlast as <-.
    rewrite S1, Hren, Hfail. cbn [andb negb].
    split; [reflexivity|]. rewrite <- Hh1. eauto.
  - destruct (Hsame eq_refl) as [-> ->].
    rewrite <- S1 in Hren. specialize (Hmv Hren). discriminate.
Qed.

Lemma open_and_delete_spec pages name attr v l res l' :
  open_and_delete os stack pages name attr v l = Some (res, l') ->
  Z.testbit (flags v) 12 = false ->
  has_been_moved_away v = false ->
  try_again v = true ->
  quiet l ->
  existsb renamed l' = true ->
  (exists s, last_delete_status l' = Some s /\ NT_SUCCESS s = false) ->
  res = {| last_error_code := STATUS_SUCCESS; debug := 0x6 |}
  /\ exists h a rest,
      l' = (NtClose h, a) :: rest
      /\ forallb (rename_on h) rest = true.
Proof.
  unfold open_and_delete. intros H Hf Hm Hta Hq Hren Hlast.
  bindm H as f l1 Hopen.
  apply open_loop_spec in Hopen as [Hq1 Hgo]; [|assumption..].
  destruct f as [r|v1].
  - retn H. rewrite <- (app_nil_r l1), quiet_renamed in Hren by assumption.
    discriminate.
  - destruct Hgo as [Hm1 Hta1]. rewrite Hm in Hm1. rewrite Hta in Hta1.
    bindm H as v2 l2 Hblock.
    apply move_block_spec in Hblock as (B1 & B2 & B3 & B4);
      [|apply quiet_sound; assumption|assumption].
    rewrite Hta1 in B3.
    destruct (finish_spec _ _ _ _ _ _ H B1 B3 B4 Hren Hlast)
      as (-> & a & rest & -> & Hr).
    split; [reflexivity|]. eauto.
Qed.

(** ** safe_unlink returns

    The only loop without a bound of its own is the one over the pages
    of a listing; where a listing fits in one page every function of
    the module returns. *)

Lemma returns_ret {A} (a : A) : returns (ret a).
Proof. intros l. exists a, l. reflexivity. Qed.

Lemma returns_call c : returns (call os c).
Proof. intros l. eexists _, _. reflexivity. Qed.

Lemma returns_bind {A B} (m : run A) (k : A -> run B) :
  returns m -> (forall a, returns (k a)) -> returns (bind m k).
Proof.
  intros Hm Hk l. destruct (Hm l) as (a & l1 & E).
  destruct (Hk a l1) as (b & l2 & E2).
  exists b, l2. unfold bind. rewrite E. exact E2.
Qed.

Ltac returns_step :=
  match goal with
  | |- returns (ret _) => apply returns_ret
  | |- returns (call _ _) => apply returns_call
  | |- returns (bind _ _) => apply returns_bind; [|intros ?]
  | |- returns (if ?b then _ else _) => destruct b
  | |- returns (match ?f with Return _ => _ | Go_on _ => _ end) =>
    destruct f
  end.

Lemma returns_call_bind {B} c (k : answer -> run B) :
  (forall n, returns (k (os n c))) -> returns (bind (call os c) k).
Proof.
  intros Hk l. unfold bind, call. apply Hk.
Qed.

Lemma move_away_returns h name :
  fits os stack name -> returns (move_away os stack h name).
Proof.
  intros [(from_buffer & Ef & Et) Hv]. unfold move_away.
  rewrite Ef, Et. cbn [negb].
  apply returns_call_bind. intros n.
  assert (Hn := Hv n (GetVolumePathNameW (volume_query from_buffer))).
  destruct (Nat.ltb_spec MAX_PATH
              (length (L "\??\" ++ volume_of
                         (os n (GetVolumePathNameW
                                  (volume_query from_buffer))))
               + sizeof_trash_dir)) as [Hlt|_].
  { rewrite length_app in Hlt. unfold sizeof_trash_dir in Hlt. lia. }
  apply returns_bind; [apply returns_call|]. intros info.
  destruct (negb (NT_SUCCESS (status_of info))); [apply returns_ret|].
  match goal with
  | |- returns (if (?a <=? ?b)%nat then _ else _) =>
    destruct (Nat.leb_spec a b) as [Hle|_]
  end.
  { rewrite !length_app in Hle. lia. }
  repeat returns_step.
Qed.

Lemma entries_loop_returns h following : forall cursor,
  returns (entries_loop os h cursor following).
Proof.
  induction following as [|next following IH]; intros cursor;
    cbn [entries_loop]; repeat returns_step. apply IH.
Qed.

Lemma pages_loop_returns pages h cursor following :
  single_page os -> (0 < pages)%nat ->
  returns (pages_loop os pages h cursor following).
Proof.
  intros Hone Hp. destruct pages as [|pages]; [lia|].
  cbn [pages_loop].
  apply returns_bind; [apply entries_loop_returns|].
  intros found. destruct found; [apply returns_ret|].
  intros l. unfold bind, call. rewrite Hone. eexists _, _. reflexivity.
Qed.

Lemma is_dir_empty_returns pages h :
  single_page os -> (0 < pages)%nat -> returns (is_dir_empty os pages h).
Proof.
  intros Hone Hp. unfold is_dir_empty.
  apply returns_bind; [apply returns_call|]. intros r.
  repeat returns_step.
  destruct (next_entries_of r) as [|second [|third following]];
    try apply returns_ret.
  apply pages_loop_returns; assumption.
Qed.

Lemma open_loop_returns attr n : forall v, returns (open_loop os n attr v).
Proof.
  induction n as [|n IH]; intros v; cbn [open_loop]; repeat returns_step.
  apply IH.
Qed.

Lemma move_block_returns pages name v :
  single_page os -> (0 < pages)%nat -> fits os stack name ->
  returns (move_block os stack pages name v).
Proof.
  intros Hone Hp Hfit. unfold move_block. repeat returns_step;
    try (apply move_away_returns; assumption);
    try (apply is_dir_empty_returns; assumption).
Qed.

Lemma delete_loop_returns pages name n : forall v,
  single_page os -> (0 < pages)%nat -> fits os stack name ->
  returns (delete_loop os stack pages n name v).
Proof.
  induction n as [|n IH]; intros v Hone Hp Hfit; cbn [delete_loop];
    repeat returns_step;
    try (apply move_away_returns; assumption);
    try (apply is_dir_empty_returns; assumption);
    try (apply IH; assumption).
Qed.

Lemma finish_returns pages name v :
  single_page os -> (0 < pages)%nat -> fits os stack name ->
  returns (finish os stack pages name v).
Proof.
  intros Hone Hp Hfit. unfold finish. repeat returns_step;
    try (apply delete_loop_returns; assumption).
Qed.

Lemma safe_unlink_returns pages name :
  single_page os -> (0 < pages)%nat -> fits os stack name ->
  returns (safe_unlink os stack pages name).
Proof.
  intros Hone Hp Hfit. unfold safe_unlink, open_and_delete.
  repeat returns_step;
    try apply open_loop_returns;
    try (apply move_block_returns; assumption);
    try (apply finish_returns; assumption).
Qed.

(** C6 (as amended).  In every run of [safe_unlink] that returns, in
    which a rename into the trash directory succeeded and the last
    attempt to delete failed, the result is a zero [last_error_code]
    with debug code 0x6,
    and the last call made is [NtClose] on the handle the rename went
    through.  The attempts to delete are the calls that set the delete
    disposition and, after [STATUS_CANNOT_DELETE], the reopening with
    [FILE_DELETE_ON_CLOSE] that follows. *)
Theorem safe_unlink_moved_not_deleted pages name res l :
  safe_unlink os stack pages name [] = Some (res, l) ->
  existsb renamed l = true ->
  (exists s, last_delete_status l = Some s /\ NT_SUCCESS s = false) ->
  res = {| last_error_code := STATUS_SUCCESS; debug := 0x6 |}
  /\ exists h a rest,
      l = (NtClose h, a) :: rest
      /\ forallb (rename_on h) rest = true.
Proof.
  unfold safe_unlink. intros H Hren Hlast.
  bindc H as q Eq.
  assert (Hq0 : forall a,
             quiet [(NtQueryAttributesFile
                       {| ObjectName := name;
                          Attributes := OBJ_CASE_INSENSITIVE;
                          RootDirectory := None |}, a)])
    by (intros a; apply quiet_cons; [reflexivity | apply quiet_nil]).
  destruct (negb (NT_SUCCESS (status_of q))).
  { retn H. discriminate. }
  destruct (negb (Z.land FILE_ATTRIBUTE_READONLY (FileAttributes_of q) =? 0)).
  - bindc H as o Eo.
    assert (Hq1 : quiet [(NtOpenFile FILE_WRITE_ATTRIBUTES
                            {| ObjectName := name;
                               Attributes := OBJ_CASE_INSENSITIVE;
                               RootDirectory := None |}
                            FILE_SHARE_VALID_FLAGS
                            FILE_OPEN_FOR_BACKUP_INTENT, o);
                         (NtQueryAttributesFile
                            {| ObjectName := name;
                               Attributes := OBJ_CASE_INSENSITIVE;
                               RootDirectory := None |}, q)])
      by (apply quiet_cons; [reflexivity | apply Hq0]).
    destruct (NT_SUCCESS (status_of o)).
    + bindc H as b Eb. bindc H as c Ec. bindc H as q2 Eq2.
      destruct (negb (NT_SUCCESS (status_of q2))).
      { retn H. discriminate. }
      eapply open_and_delete_spec; try eassumption; try reflexivity.
      repeat (apply quiet_cons; [reflexivity|]). apply quiet_nil.
    + eapply open_and_delete_spec; try eassumption; reflexivity.
  - eapply open_and_delete_spec; try eassumption; try reflexivity.
    apply Hq0.
Qed.

(** C10.  When the first page of the listing comes back with two
    entries or fewer (none, with [STATUS_NO_MORE_FILES]; or one or two,
    whatever their names), [is_dir_empty] answers [STATUS_SUCCESS], and
    the listing is the only call it has made: no entry is looked up. *)
Theorem is_dir_empty_short_first_page pages h l :
  status_of (os (length l) (NtQueryDirectoryFile h true))
  = STATUS_NO_MORE_FILES
  \/ (NT_SUCCESS (status_of (os (length l) (NtQueryDirectoryFile h true)))
      = true
      /\ (length (next_entries_of
                    (os (length l) (NtQueryDirectoryFile h true)))
          <= 1)%nat) ->
  is_dir_empty os pages h l
  = Some (STATUS_SUCCESS,
          (NtQueryDirectoryFile h true,
           os (length l) (NtQueryDirectoryFile h true)) :: l).
Proof.
  intros H. unfold is_dir_empty, bind, call.
  set (r := os (length l) (NtQueryDirectoryFile h true)) in *.
  destruct H as [Hnone | [Hok Hshort]].
  - rewrite Hnone. reflexivity.
  - assert (Hne : (status_of r =? STATUS_NO_MORE_FILES) = false).
    { apply Z.eqb_neq. intros E. rewrite E in Hok. discriminate. }
    rewrite Hne, Hok. cbn [negb].
    destruct (next_entries_of r) as [|second [|third following]];
      [reflexivity | reflexivity | cbn in Hshort; lia].
Qed.

End Runs.

Lemma is_dir_empty_short_first_page_witness :
  is_dir_empty two_entries 0 5 []
  = Some (STATUS_SUCCESS,
          [(NtQueryDirectoryFile 5 true, with_page (L "a") [L "b"])]).
Proof.
  apply (is_dir_empty_short_first_page two_entries 0 5 []).
  right. split.
  - reflexivity.
  - cbn. lia.
Defined.

Lemma safe_unlink_moved_not_deleted_witness :
  exists l,
    safe_unlink busy_file stale_stack 1 sample_name [] 
    = Some ({| last_error_code := STATUS_SUCCESS; debug := 0x6 |}, l)
    /\ exists h a rest,
        l = (NtClose h, a) :: rest /\ forallb (rename_on h) rest = true.
Proof.
  destruct (safe_unlink busy_file stale_stack 1 sample_name []) as [[res l]|] eqn:E;
    [|vm_compute in E; discriminate E].
  exists l.
  assert (Hren : existsb renamed l = true).
  { vm_compute in E. injection E as _ <-. reflexivity. }
  assert (Hlast : exists s, last_delete_status l = Some s
                            /\ NT_SUCCESS s = false).
  { vm_compute in E. injection E as _ <-. eexists. split; reflexivity. }
  destruct (safe_unlink_moved_not_deleted busy_file stale_stack 1 sample_name res l
              E Hren Hlast) as [-> Hclose].
  split; [reflexivity | exact Hclose].
Defined.

(** C6 (as stated) fails when only the calls that set the
    delete disposition are counted: the disposition is refused with
    [STATUS_CANNOT_DELETE], the file is renamed, the reopening with
    [FILE_DELETE_ON_CLOSE] succeeds, and the result is a zero
    [last_error_code] with debug code 0. *)
Lemma safe_unlink_moved_not_deleted_counterexample :
  exists res l,
    safe_unlink reopened_file stale_stack 1 sample_name [] = Some (res, l)
    /\ existsb renamed l = true
    /\ last_disposition_status l = Some STATUS_CANNOT_DELETE
    /\ NT_SUCCESS STATUS_CANNOT_DELETE = false
    /\ res = {| last_error_code := STATUS_SUCCESS; debug := 0 |}
    /\ debug res <> 0x6.
Proof.
  eexists _, _. split; [vm_compute; reflexivity|].
  repeat split; try reflexivity. discriminate.
Qed.

(** C5.  The assignments that add [FILE_LIST_DIRECTORY | SYNCHRONIZE]
    to the access and [FILE_SYNCHRONOUS_IO_NONALERT] to the flags are
    made whatever the attributes say; only [is_dir] depends on them.
    An ordinary file is opened for deletion with the access 0x110001
    and the flags 0x4020, not with [DELETE] and
    [FILE_OPEN_FOR_BACKUP_INTENT]. *)
Theorem safe_unlink_file_access :
  (forall FileAttributes st h,
      access (before_open FileAttributes st h)
      = Z.lor (Z.lor DELETE FILE_LIST_DIRECTORY) SYNCHRONIZE
      /\ flags (before_open FileAttributes st h)
         = Z.lor FILE_OPEN_FOR_BACKUP_INTENT FILE_SYNCHRONOUS_IO_NONALERT
      /\ is_dir (before_open FileAttributes st h)
         = negb (Z.land FILE_ATTRIBUTE_DIRECTORY FileAttributes =? 0))
  /\ exists l,
      safe_unlink plain_file stale_stack 1 sample_name []
      = Some ({| last_error_code := STATUS_SUCCESS; debug := 0 |}, l)
      /\ calls_of l
         = [NtQueryAttributesFile
              {| ObjectName := sample_name;
                 Attributes := OBJ_CASE_INSENSITIVE;
                 RootDirectory := None |};
            NtOpenFile 0x110001
              {| ObjectName := sample_name;
                 Attributes := OBJ_CASE_INSENSITIVE;
                 RootDirectory := None |}
              FILE_SHARE_DELETE 0x4020;
            SetDispositionInformation 5 true;
            NtClose 5]
      /\ (0x110001 =? DELETE) = false
      /\ (0x4020 =? FILE_OPEN_FOR_BACKUP_INTENT) = false.
Proof.
  split.
  - intros. repeat split; reflexivity.
  - eexists. split; [vm_compute; reflexivity|].
    split; [reflexivity|]. split; reflexivity.
Qed.

(** C3.  A read-only directory that holds a file, whose read-only
    attribute cannot be cleared: the file system answers
    [STATUS_CANNOT_DELETE] to the delete disposition, and [safe_unlink]
    moves the directory into the trash directory without listing it,
    then reports success with debug code 0x6.  [is_dir_empty] on the
    same directory answers [STATUS_DIRECTORY_NOT_EMPTY]. *)
Theorem safe_unlink_moves_full_directory :
  (forall l0, exists l1,
        is_dir_empty full_directory 1 5 l0
        = Some (STATUS_DIRECTORY_NOT_EMPTY, l1))
  /\ exists l,
      safe_unlink full_directory stale_stack 1 sample_name []
      = Some ({| last_error_code := STATUS_SUCCESS; debug := 0x6 |}, l)
      /\ existsb renamed l = true
      /\ In (SetRenameInformation 5 true
               (L "\??\C:\tmp\trash\0000000000001234"))
            (calls_of l)
      /\ existsb is_listing (calls_of l) = false.
Proof.
  split.
  - intros l0. eexists. cbv. reflexivity.
  - eexists. split; [vm_compute; reflexivity|].
    split; [reflexivity|]. split; [|reflexivity].
    cbn. do 6 right. left. reflexivity.
Qed.

End WinLowFacts.

Module TrashNameFacts.
Import WinLow WinLowRuns.

(** ** The digits of a file id *)

Lemma digit_value_image k :
  0 <= k < 16 ->
  digit_value (nth (Z.to_nat k) digit_image 0) = Some k.
Proof.
  intros Hk.
  assert (E : k = 0 \/ k = 1 \/ k = 2 \/ k = 3 \/ k = 4 \/ k = 5 \/ k = 6
              \/ k = 7 \/ k = 8 \/ k = 9 \/ k = 10 \/ k = 11 \/ k = 12
              \/ k = 13 \/ k = 14 \/ k = 15) by lia.
  repeat (destruct E as [-> | E]; [reflexivity|]). subst k. reflexivity.
Qed.

Lemma low_digit id : Z.land id 0xF = id mod 16.
Proof. change 0xF with (Z.ones 4). now rewrite Z.land_ones by lia. Qed.

Lemma high_digits id : Z.shiftr id 4 = id / 16.
Proof. now rewrite Z.shiftr_div_pow2 by lia. Qed.

Lemma split_digits id n :
  0 <= n -> id mod (16 * 16 ^ n) = id mod 16 + 16 * ((id / 16) mod 16 ^ n).
Proof.
  intros Hn. apply Z.rem_mul_r; [lia|]. apply Z.pow_pos_nonneg; lia.
Qed.

Lemma file_id_digits_app n : forall id written,
  file_id_digits n id written
  = file_id_digits n id [] ++ written.
Proof.
  induction n as [|n IH]; intros id written; cbn [file_id_digits].
  - reflexivity.
  - rewrite IH. rewrite (IH _ [_]). rewrite <- app_assoc. reflexivity.
Qed.

Lemma file_id_digits_length n : forall id written,
  length (file_id_digits n id written) = (n + length written)%nat.
Proof.
  induction n as [|n IH]; intros id written; cbn [file_id_digits].
  - reflexivity.
  - rewrite IH. cbn [length]. lia.
Qed.

Lemma hex_value_digits n : forall id written acc,
  hex_value_from acc (file_id_digits n id written)
  = hex_value_from (acc * 16 ^ Z.of_nat n + id mod 16 ^ Z.of_nat n) written.
Proof.
  induction n as [|n IH]; intros id written acc.
  - cbn [file_id_digits]. change (16 ^ Z.of_nat 0) with 1.
    rewrite Z.mod_1_r. f_equal. lia.
  - cbn [file_id_digits]. rewrite IH. cbn [hex_value_from].
    rewrite low_digit, high_digits.
    rewrite digit_value_image by (apply Z.mod_pos_bound; lia).
    f_equal. rewrite Nat2Z.inj_succ, Z.pow_succ_r by lia.
    rewrite split_digits by lia. lia.
Qed.

Lemma file_id_digits_mod n : forall a b written,
  a mod 16 ^ Z.of_nat n = b mod 16 ^ Z.of_nat n ->
  file_id_digits n a written = file_id_digits n b written.
Proof.
  induction n as [|n IH]; intros a b written H; cbn [file_id_digits].
  - reflexivity.
  - rewrite Nat2Z.inj_succ, Z.pow_succ_r in H by lia.
    rewrite !split_digits in H by lia.
    assert (Ha := Z.mod_pos_bound a 16 ltac:(lia)).
    assert (Hb := Z.mod_pos_bound b 16 ltac:(lia)).
    assert (E : a mod 16 = b mod 16) by lia.
    rewrite !low_digit, !high_digits, E. apply IH. lia.
Qed.

(** X1.  The sixteen characters that [move_away] appends to the trash
    directory are the hexadecimal digits of the file id, most
    significant first: sixteen characters, and read back as a
    hexadecimal number they give the file id modulo 2^64 (the id itself
    when it is taken as an unsigned 64-bit number). *)
Theorem file_id_digits_hex id :
  length (file_id_digits 16 id []) = 16%nat
  /\ hex_value (file_id_digits 16 id []) = Some (id mod 2 ^ 64).
Proof.
  split.
  - rewrite file_id_digits_length. reflexivity.
  - unfold hex_value. rewrite hex_value_digits. cbn [hex_value_from].
    f_equal.
Qed.

(** X2.  Two files get the same name in the trash directory exactly
    when their ids agree modulo 2^64: distinct 64-bit file ids never
    collide. *)
Theorem file_id_digits_collide a b :
  file_id_digits 16 a [] = file_id_digits 16 b []
  <-> a mod 2 ^ 64 = b mod 2 ^ 64.
Proof.
  split.
  - intros E.
    assert (H : hex_value_from 0 (file_id_digits 16 a [])
                = hex_value_from 0 (file_id_digits 16 b []))
      by now rewrite E.
    rewrite !hex_value_digits in H. cbn [hex_value_from] in H.
    injection H as H. exact H.
  - intros E. apply file_id_digits_mod. exact E.
Qed.

End TrashNameFacts.

Module ListingFacts.
Import WinLow WinLowRuns WinLowFacts.

(** ** is_dir_empty: what it calls and what it answers *)

Lemma reads_app h n1 n2 : reads h n1 -> reads h n2 -> reads h (n1 ++ n2).
Proof. intros. apply Forall_app. split; assumption. Qed.

Lemma lookups_app n1 n2 : lookups (n1 ++ n2) = lookups n1 ++ lookups n2.
Proof. unfold lookups. apply flat_map_app. Qed.

Section Listing.

Variable os : system.

Lemma entries_loop_lookups h following : forall cursor l found l2,
  entries_loop os h cursor following l = Some (found, l2) ->
  exists attr a rest,
    l2 = (NtQueryAttributesFile attr, a) :: rest ++ l
    /\ reads h ((NtQueryAttributesFile attr, a) :: rest)
    /\ is_absent (status_of a) = negb found
    /\ forallb is_absent (lookups rest) = true.
Proof.
  induction following as [|next following IH]; intros cursor l found l2 H;
    cbn [entries_loop] in H; bindc H as r Er.
  - exists {| ObjectName := cursor; Attributes := 0;
              RootDirectory := Some h |}, r, [].
    assert (Hr : reads h [(NtQueryAttributesFile
                             {| ObjectName := cursor; Attributes := 0;
                                RootDirectory := Some h |}, r)]).
    { constructor; [|constructor]. cbn. apply Z.eqb_refl. }
    destruct (is_absent (status_of r)) eqn:E; cbn [negb] in H; retn H;
      repeat split; auto.
  - destruct (is_absent (status_of r)) eqn:E; cbn [negb] in H.
    + apply IH in H as (attr & a & rest & -> & Hr & Ha & Hrest).
      exists attr, a,
        (rest ++ [(NtQueryAttributesFile
                     {| ObjectName := cursor; Attributes := 0;
                        RootDirectory := Some h |}, r)]).
      split; [now rewrite <- app_assoc|]. split; [|split; [assumption|]].
      * change (reads h (((NtQueryAttributesFile attr, a) :: rest)
                         ++ [(NtQueryAttributesFile
                                {| ObjectName := cursor; Attributes := 0;
                                   RootDirectory := Some h |}, r)])).
        apply reads_app; [assumption|].
        constructor; [|constructor]. cbn. apply Z.eqb_refl.
      * rewrite lookups_app, forallb_app, Hrest. cbn. now rewrite E.
    + retn H.
      exists {| ObjectName := cursor; Attributes := 0;
                RootDirectory := Some h |}, r, [].
      repeat split; auto.
      constructor; [|constructor]. cbn. apply Z.eqb_refl.
Qed.

Lemma pages_loop_lookups pages h : forall cursor following l st l2,
  pages_loop os pages h cursor following l = Some (st, l2) ->
  exists new,
    l2 = new ++ l /\ reads h new
    /\ ((st = STATUS_DIRECTORY_NOT_EMPTY
         /\ exists attr a rest,
             new = (NtQueryAttributesFile attr, a) :: rest
             /\ is_absent (status_of a) = false
             /\ forallb is_absent (lookups rest) = true)
        \/ (st = STATUS_SUCCESS
            /\ forallb is_absent (lookups new) = true)).
Proof.
  induction pages as [|pages IH]; intros cursor following l st l2 H;
    cbn [pages_loop] in H; [discriminate|].
  bindm H as found l1 He.
  apply entries_loop_lookups in He as (attr & a & rest & -> & Hr & Ha & Hrest).
  destruct found; cbn [negb] in Ha.
  - retn H. exists ((NtQueryAttributesFile attr, a) :: rest).
    split; [reflexivity|]. split; [assumption|]. left.
    split; [reflexivity|]. exists attr, a, rest.
    split; [reflexivity|]. split; assumption.
  - bindc H as r Er.
    set (page := (NtQueryDirectoryFile h false, r)
                 :: (NtQueryAttributesFile attr, a) :: rest) in *.
    assert (Hp : reads h page).
    { constructor; [|assumption]. cbn. apply Z.eqb_refl. }
    assert (Hl : forallb is_absent (lookups page) = true).
    { change (lookups page) with (status_of a :: lookups rest).
      cbn [forallb]. now rewrite Ha, Hrest. }
    destruct (NT_SUCCESS (status_of r)).
    + change ((NtQueryDirectoryFile h false, r)
              :: (NtQueryAttributesFile attr, a) :: rest ++ l)
        with (page ++ l) in H.
      apply IH in H as (new & -> & Hn & Hres).
      exists (new ++ page). split; [now rewrite <- app_assoc|].
      split; [apply reads_app; assumption|].
      destruct Hres as [(-> & attr' & a' & rest' & -> & Ha' & Hrest')
                       | (-> & Hall)].
      * left. split; [reflexivity|].
        exists attr', a', (rest' ++ page). split; [reflexivity|].
        split; [assumption|].
        now rewrite lookups_app, forallb_app, Hrest', Hl.
      * right. split; [reflexivity|].
        now rewrite lookups_app, forallb_app, Hall, Hl.
    + retn H. exists page. split; [reflexivity|]. split; [assumption|].
      right. split; [reflexivity | assumption].
Qed.

Lemma is_dir_empty_lookups pages h l st l2 :
  is_dir_empty os pages h l = Some (st, l2) ->
  let first := os (length l) (NtQueryDirectoryFile h true) in
  exists new,
    l2 = new ++ [(NtQueryDirectoryFile h true, first)] ++ l
    /\ reads h new
    /\ ((st = STATUS_DIRECTORY_NOT_EMPTY
         /\ NT_SUCCESS (status_of first) = true
         /\ exists attr a rest,
             new = (NtQueryAttributesFile attr, a) :: rest
             /\ is_absent (status_of a) = false
             /\ forallb is_absent (lookups rest) = true)
        \/ (st = STATUS_SUCCESS
            /\ forallb is_absent (lookups new) = true)
        \/ (st = status_of first
            /\ NT_SUCCESS st = false
            /\ new = [])).
Proof.
  intros H first. unfold is_dir_empty in H. bindc H as r Er.
  fold first in Er. subst r.
  destruct (status_of first =? STATUS_NO_MORE_FILES).
  { retn H. exists []. split; [reflexivity|]. split; [constructor|].
    right. left. split; reflexivity. }
  destruct (NT_SUCCESS (status_of first)) eqn:Eok; cbn [negb] in H.
  2: { retn H. exists []. split; [reflexivity|]. split; [constructor|].
       right. right. repeat split; auto. }
  destruct (next_entries_of first) as [|second [|third following]].
  1, 2: retn H; exists []; (split; [reflexivity|]); (split; [constructor|]);
        right; left; split; reflexivity.
  apply pages_loop_lookups in H as (new & -> & Hn & Hres).
  exists new. split; [reflexivity|]. split; [assumption|].
  destruct Hres as [(-> & Hex) | (-> & Hall)].
  - left. repeat split; auto.
  - right. left. split; [reflexivity | assumption].
Qed.

(** X3.  [is_dir_empty] only reads the directory: its first call is a
    listing of [h] from the start, and every other call it makes is a
    listing of [h] or a query of the attributes of a name relative to
    [h].  It opens, closes, renames and deletes nothing. *)
Theorem is_dir_empty_reads_only pages h l st l2 :
  is_dir_empty os pages h l = Some (st, l2) ->
  exists new,
    l2 = new ++ [(NtQueryDirectoryFile h true,
                  os (length l) (NtQueryDirectoryFile h true))] ++ l
    /\ forallb (reads_through h) (map fst new) = true.
Proof.
  intros H. apply is_dir_empty_lookups in H as (new & -> & Hn & _).
  exists new. split; [reflexivity|].
  apply forallb_forall. intros c Hc. apply in_map_iff in Hc as (e & <- & He).
  unfold reads in Hn. rewrite Forall_forall in Hn. now apply Hn.
Qed.

(** X4.  What the three answers of [is_dir_empty] mean.  It answers
    [STATUS_DIRECTORY_NOT_EMPTY] right after an attribute query that
    did not say the entry is gone, every query before it having said
    so.  It answers [STATUS_SUCCESS] when every entry it looked up is
    gone (deletion pending, name or path not found), whatever ended
    the listing.  Otherwise its answer is the failure of the first
    listing, and it has made no other call. *)
Theorem is_dir_empty_answer pages h l st l2 :
  is_dir_empty os pages h l = Some (st, l2) ->
  exists new,
    l2 = new ++ [(NtQueryDirectoryFile h true,
                  os (length l) (NtQueryDirectoryFile h true))] ++ l
    /\ ((st = STATUS_DIRECTORY_NOT_EMPTY
         /\ exists attr a rest,
             new = (NtQueryAttributesFile attr, a) :: rest
             /\ is_absent (status_of a) = false
             /\ forallb is_absent (lookups rest) = true)
        \/ (st = STATUS_SUCCESS
            /\ forallb is_absent (lookups new) = true)
        \/ (st = status_of (os (length l) (NtQueryDirectoryFile h true))
            /\ NT_SUCCESS st = false
            /\ new = [])).
Proof.
  intros H. apply is_dir_empty_lookups in H as (new & -> & _ & Hres).
  exists new. split; [reflexivity|].
  destruct Hres as [(-> & _ & Hex) | [Hs | Hf]]; auto.
Qed.

End Listing.

Lemma is_dir_empty_reads_only_witness :
  exists st l2,
    is_dir_empty full_directory 1 5 [] = Some (st, l2)
    /\ exists new,
        l2 = new ++ [(NtQueryDirectoryFile 5 true,
                      full_directory 0%nat (NtQueryDirectoryFile 5 true))] ++ []
        /\ forallb (reads_through 5) (map fst new) = true.
Proof.
  destruct (is_dir_empty full_directory 1 5 []) as [[st l2]|] eqn:E;
    [|vm_compute in E; discriminate E].
  exists st, l2. split; [reflexivity|].
  exact (is_dir_empty_reads_only full_directory 1 5 [] st l2 E).
Defined.

Lemma is_dir_empty_answer_witness :
  exists st l2,
    is_dir_empty full_directory 1 5 [] = Some (st, l2)
    /\ st = STATUS_DIRECTORY_NOT_EMPTY
    /\ exists new,
        l2 = new ++ [(NtQueryDirectoryFile 5 true,
                      full_directory 0%nat (NtQueryDirectoryFile 5 true))] ++ []
        /\ ((st = STATUS_DIRECTORY_NOT_EMPTY
             /\ exists attr a rest,
                 new = (NtQueryAttributesFile attr, a) :: rest
                 /\ is_absent (status_of a) = false
                 /\ forallb is_absent (lookups rest) = true)
            \/ (st = STATUS_SUCCESS
                /\ forallb is_absent (lookups new) = true)
            \/ (st = status_of (full_directory 0%nat (NtQueryDirectoryFile 5 true))
                /\ NT_SUCCESS st = false
                /\ new = [])).
Proof.
  destruct (is_dir_empty full_directory 1 5 []) as [[st l2]|] eqn:E;
    [|vm_compute in E; discriminate E].
  exists st, l2. split; [reflexivity|]. split.
  - vm_compute in E. injection E as <- _. reflexivity.
  - exact (is_dir_empty_answer full_directory 1 5 [] st l2 E).
Defined.

End ListingFacts.

Module UnlinkFacts.
Import WinLow WinLowRuns WinLowFacts.
Local Open Scope run_scope.

(** ** Sleeps, handles and renames of a run *)

Lemma slept_ms_cons c a l :
  slept_ms ((c, a) :: l)
  = match c with Sleep n => n + slept_ms l | _ => slept_ms l end.
Proof. reflexivity. Qed.

Lemma opened_cons c a l :
  opened ((c, a) :: l)
  = match c with
    | NtOpenFile _ _ _ _ =>
      if NT_SUCCESS (status_of a) then handle_of a :: opened l
      else opened l
    | _ => opened l
    end.
Proof.
  destruct c; try reflexivity.
  unfold opened. cbn [flat_map fst snd]. now destruct (NT_SUCCESS _).
Qed.

Lemma closed_cons c a l :
  closed ((c, a) :: l)
  = match c with NtClose h => h :: closed l | _ => closed l end.
Proof. destruct c; reflexivity. Qed.

Lemma renames_cons c a l :
  renames ((c, a) :: l)
  = match c with
    | SetRenameInformation _ _ _ => S (renames l)
    | _ => renames l
    end.
Proof. destruct c; reflexivity. Qed.

Ltac tally :=
  rewrite ?slept_ms_cons, ?opened_cons, ?closed_cons, ?renames_cons;
  cbv beta iota.

Lemma reads_tally h new l :
  reads h new ->
  slept_ms (new ++ l) = slept_ms l
  /\ opened (new ++ l) = opened l
  /\ closed (new ++ l) = closed l
  /\ renames (new ++ l) = renames l.
Proof.
  induction 1 as [|e new He _ IH]; [repeat split|].
  destruct e as [c a]. cbn [fst] in He.
  destruct c; try discriminate He; cbn [app]; tally; exact IH.
Qed.

Section Tally.

Variable os : system.
Variable stack : wstring.

Lemma is_dir_empty_tally pages h l st l2 :
  is_dir_empty os pages h l = Some (st, l2) ->
  slept_ms l2 = slept_ms l
  /\ opened l2 = opened l
  /\ closed l2 = closed l
  /\ renames l2 = renames l.
Proof.
  intros H.
  apply ListingFacts.is_dir_empty_lookups in H as (new & -> & Hn & _).
  destruct (reads_tally h new
              ([(NtQueryDirectoryFile h true,
                 os (length l) (NtQueryDirectoryFile h true))] ++ l) Hn)
    as (-> & -> & -> & ->).
  repeat split.
Qed.

Lemma move_away_tally h name l st l2 :
  move_away os stack h name l = Some (st, l2) ->
  slept_ms l2 = slept_ms l
  /\ opened l2 = opened l
  /\ closed l2 = closed l
  /\ (renames l2 <= renames l + 1)%nat.
Proof.
  unfold move_away. intros H. in_bounds H. in_bounds H.
  bindc H as vol Evol. in_bounds H. bindc H as info Einfo.
  destruct (negb (NT_SUCCESS (status_of info))).
  - retn H. tally. repeat split. lia.
  - in_bounds H. bindc H as ren Eren.
    destruct (negb (NT_SUCCESS (status_of ren))).
    + bindc H as out Eout. retn H. tally. repeat split. lia.
    + retn H. tally. repeat split. lia.
Qed.

Lemma sharing_violation_fails st :
  (st =? STATUS_SHARING_VIOLATION) = true -> NT_SUCCESS st = false.
Proof. intros E. apply Z.eqb_eq in E. subst st. reflexivity. Qed.

Lemma delete_pending_fails st :
  (st =? STATUS_DELETE_PENDING) = true -> NT_SUCCESS st = false.
Proof. intros E. apply Z.eqb_eq in E. subst st. reflexivity. Qed.

(** The loop that opens the file: it closes and renames nothing, it
    sleeps 5 ms after each sharing violation but the last, and it goes
    on only with the handle of an open that succeeded. *)
Lemma open_loop_tally attr n : forall v l f l',
  open_loop os n attr v l = Some (f, l') ->
  closed l' = closed l
  /\ renames l' = renames l
  /\ slept_ms l <= slept_ms l' <= slept_ms l + 5 * Z.of_nat (pred n)
  /\ match f with
     | Return r =>
       opened l' = opened l
       /\ (r = {| last_error_code := STATUS_SHARING_VIOLATION;
                  debug := 0x4 |}
           \/ (r = {| last_error_code := STATUS_SUCCESS; debug := 0x2 |}
               /\ exists access share flags a rest,
                   l' = (NtOpenFile access attr share flags, a) :: rest
                   /\ status_of a = STATUS_DELETE_PENDING)
           \/ (debug r = 0x3 /\ NT_SUCCESS (last_error_code r) = false))
     | Go_on v' =>
       (n = 0%nat /\ v' = v /\ l' = l)
       \/ (opened l' = handle v' :: opened l
           /\ NT_SUCCESS (status v') = true
           /\ (slept_ms l < slept_ms l' -> try_to_move_away v' = true)
           /\ (try_to_move_away v = true -> try_to_move_away v' = true))
     end.
Proof.
  induction n as [|n IH]; intros v l f l' H; cbn [open_loop] in H.
  { retn H. repeat split; try lia. left. repeat split. }
  bindc H as r Er.
  destruct (status_of r =? STATUS_SHARING_VIOLATION) eqn:Esv.
  - assert (Hf := sharing_violation_fails _ Esv).
    destruct (S n <? 2)%nat eqn:En.
    + retn H. tally. rewrite Hf. repeat split; try lia.
      left. apply Z.eqb_eq in Esv. now rewrite Esv.
    + apply Nat.ltb_ge in En. bindc H as z Ez.
      apply IH in H as (I1 & I2 & I3 & I4). revert I1 I2 I3 I4.
      tally. rewrite Hf. intros I1 I2 I3 I4.
      split; [assumption|]. split; [assumption|].
      split; [cbn [pred]; lia|].
      destruct f as [res|v'].
      * destruct I4 as [I4 I5]. split; [assumption|].
        destruct I5 as [I5 | [(I5 & acc & sh & fl & a & rest & E1 & E2)
                             | I5]]; auto.
        right. left. split; [assumption|]. eauto 10.
      * destruct I4 as [(Hn & _) | (J1 & J2 & J3 & J4)]; [lia|].
        right. split; [assumption|]. split; [assumption|].
        split; intros _; apply J4; reflexivity.
  - destruct (status_of r =? STATUS_DELETE_PENDING) eqn:Edp.
    + assert (Hf := delete_pending_fails _ Edp).
      retn H. tally. rewrite Hf. repeat split; try lia.
      right. left. split; [reflexivity|].
      apply Z.eqb_eq in Edp. eauto 10.
    + destruct (NT_SUCCESS (status_of r)) eqn:Eok; cbn [negb] in H;
        retn H; tally; rewrite Eok; repeat split; try lia.
      * right. cbn [handle status try_to_move_away].
        repeat split; auto. lia.
      * right. right. split; reflexivity || assumption.
Qed.

(** The block that moves the file away: at most one rename, and only
    when [try_to_move_away] is set. *)
Lemma move_block_tally pages name v l v' l' :
  move_block os stack pages name v l = Some (v', l') ->
  slept_ms l' = slept_ms l
  /\ opened l' = opened l
  /\ closed l' = closed l
  /\ (renames l' <= renames l + (1 - moves_left v))%nat
  /\ try_to_move_away v' = try_to_move_away v
  /\ (try_to_move_away v = true -> NT_SUCCESS (status v') = true ->
      has_been_moved_away v' = true)
  /\ (try_to_move_away v = false -> v' = v)
  /\ handle v' = handle v.
Proof.
  unfold move_block, moves_left. intros H.
  destruct (try_to_move_away v) eqn:Et.
  - bindm H as st l1 Hst.
    assert (T1 : slept_ms l1 = slept_ms l /\ opened l1 = opened l
                 /\ closed l1 = closed l /\ renames l1 = renames l).
    { destruct (is_dir v).
      - now apply is_dir_empty_tally in Hst.
      - retn Hst. repeat split. }
    destruct T1 as (T1 & T2 & T3 & T4).
    destruct (NT_SUCCESS st) eqn:Est.
    + bindm H as st2 l2 Hmv. retn H.
      apply move_away_tally in Hmv as (M1 & M2 & M3 & M4).
      cbn [try_to_move_away status has_been_moved_away handle].
      repeat split; try congruence; try lia.
      intros _ E. now rewrite E.
    + retn H. unfold with_status.
      cbn [try_to_move_away status has_been_moved_away handle].
      repeat split; try congruence; try lia.
  - retn H. repeat split; auto; try lia.
Qed.

(** One turn of the loop that deletes, after the call that sets the
    delete disposition: a handle opened is closed at once, and a move
    is made only if none was tried before. *)
Lemma delete_loop_body_tally pages name v l v1 l1 ta :
  let e := (SetDispositionInformation (handle v) true,
            os (length l) (SetDispositionInformation (handle v) true)) in
  let st := status_of (snd e) in
  (if st =? STATUS_DIRECTORY_NOT_EMPTY then
     empty <- (if negb (dir_empty v)
               then e <- is_dir_empty os pages (handle v) ;;
                    ret (NT_SUCCESS e)
               else ret (dir_empty v)) ;;
     ret {| status := st; handle := handle v; share := share v;
            access := access v; flags := flags v;
            is_dir := is_dir v; dir_empty := empty;
            try_to_move_away := try_to_move_away v;
            has_been_moved_away := has_been_moved_away v;
            try_again := if negb empty then false
                         else ta |}
   else if st =? STATUS_CANNOT_DELETE then
     moved <- (if negb (try_to_move_away v)
               then s <- move_away os stack (handle v) name ;;
                    ret (if NT_SUCCESS s then true
                         else has_been_moved_away v)
               else ret (has_been_moved_away v)) ;;
     r2 <- call os (NtOpenFile (access v)
                   {| ObjectName := Empty_Unicode_String;
                      Attributes := OBJ_CASE_INSENSITIVE;
                      RootDirectory := Some (handle v) |}
                   (share v)
                   (Z.lor (flags v) FILE_DELETE_ON_CLOSE)) ;;
     (if NT_SUCCESS (status_of r2)
      then call os (NtClose (handle_of r2)) ;;; ret tt
      else ret tt) ;;;
     ret {| status := status_of r2; handle := handle v;
            share := share v; access := access v;
            flags := flags v; is_dir := is_dir v;
            dir_empty := dir_empty v; try_to_move_away := true;
            has_been_moved_away := moved;
            try_again := ta |}
   else
     ret {| status := st; handle := handle v; share := share v;
            access := access v; flags := flags v;
            is_dir := is_dir v; dir_empty := dir_empty v;
            try_to_move_away := try_to_move_away v;
            has_been_moved_away := has_been_moved_away v;
            try_again := if negb (NT_SUCCESS st) then false
                         else ta |})%run (e :: l)
  = Some (v1, l1) ->
  slept_ms l1 = slept_ms l
  /\ (exists hs, opened l1 = hs ++ opened l /\ closed l1 = hs ++ closed l)
  /\ (renames l1 + moves_left v1 <= renames l + moves_left v)%nat
  /\ handle v1 = handle v.
Proof.
  intros e st H.
  assert (T0 : slept_ms (e :: l) = slept_ms l
               /\ opened (e :: l) = opened l
               /\ closed (e :: l) = closed l
               /\ renames (e :: l) = renames l) by (repeat split).
  clearbody e. subst st. destruct T0 as (T1 & T2 & T3 & T4).
  destruct (status_of (snd e) =? STATUS_DIRECTORY_NOT_EMPTY).
  { bindm H as empty l2 He. retn H.
    assert (T : slept_ms l2 = slept_ms (e :: l)
                /\ opened l2 = opened (e :: l)
                /\ closed l2 = closed (e :: l)
                /\ renames l2 = renames (e :: l)).
    { destruct (negb (dir_empty v)).
      - bindm He as st' l3 Hd. retn He.
        now apply is_dir_empty_tally in Hd.
      - retn He. repeat split. }
    destruct T as (U1 & U2 & U3 & U4).
    unfold moves_left. cbn [handle try_to_move_away].
    split; [congruence|]. split; [exists []; split; cbn [app]; congruence|].
    split; [lia | reflexivity]. }
  destruct (status_of (snd e) =? STATUS_CANNOT_DELETE).
  { bindm H as moved l2 Hm.
    assert (T : slept_ms l2 = slept_ms (e :: l)
                /\ opened l2 = opened (e :: l)
                /\ closed l2 = closed (e :: l)
                /\ (renames l2 <= renames (e :: l) + moves_left v)%nat).
    { unfold moves_left. destruct (try_to_move_away v); cbn [negb] in Hm.
      - retn Hm. repeat split. lia.
      - bindm Hm as s l3 Hmv. retn Hm.
        now apply move_away_tally in Hmv. }
    clear Hm. destruct T as (U1 & U2 & U3 & U4).
    bindc H as r2 Er2. bindm H as u l3 Hc. retn H.
    unfold moves_left at 1. cbn [handle try_to_move_away].
    destruct (NT_SUCCESS (status_of r2)) eqn:Eok.
    - bindc Hc as c Ec. retn Hc. tally. rewrite Eok.
      split; [congruence|].
      split; [exists [handle_of r2]; split; cbn [app]; congruence|].
      split; [lia | reflexivity].
    - retn Hc. tally. rewrite Eok.
      split; [congruence|].
      split; [exists []; split; cbn [app]; congruence|].
      split; [lia | reflexivity]. }
  retn H. unfold moves_left. cbn [handle try_to_move_away].
  split; [congruence|]. split; [exists []; split; cbn [app]; congruence|].
  split; [lia | reflexivity].
Qed.

(** The loop that deletes sleeps 5 ms for each turn it has left. *)
Lemma delete_loop_tally pages name n : forall v l v' l',
  delete_loop os stack pages n name v l = Some (v', l') ->
  slept_ms l' <= slept_ms l + 5 * Z.of_nat n
  /\ (exists hs, opened l' = hs ++ opened l /\ closed l' = hs ++ closed l)
  /\ (renames l' + moves_left v' <= renames l + moves_left v)%nat
  /\ handle v' = handle v.
Proof.
  induction n as [|n IH]; intros v l v' l' H; cbn [delete_loop] in H.
  { retn H. split; [lia|]. split; [exists []; split; reflexivity|].
    split; [lia | reflexivity]. }
  destruct (try_again v) eqn:Hta; cbn [negb] in H.
  2: { retn H. split; [lia|]. split; [exists []; split; reflexivity|].
       split; [lia | reflexivity]. }
  bindc H as a Ea. bindm H as v1 l1 Hb. subst a.
  apply (delete_loop_body_tally pages name v l v1 l1 true) in Hb
    as (B1 & (hs & B2 & B3) & B4 & B5).
  destruct (negb (NT_SUCCESS (status v1)) && try_again v1).
  - bindc H as z Ez. apply IH in H as (I1 & (hs' & I2 & I3) & I4 & I5).
    revert I1 I2 I3 I4. tally. intros I1 I2 I3 I4.
    split; [lia|].
    split; [exists (hs' ++ hs); rewrite <- !app_assoc; split; congruence|].
    split; [lia | congruence].
  - retn H. unfold moves_left in *.
    cbn [handle try_to_move_away].
    split; [lia|]. split; [exists hs; split; assumption|].
    split; [lia | assumption].
Qed.

(** The end of [safe_unlink]: the loop that deletes runs only after a
    success, for 5 turns once the file has been moved and for 20
    otherwise, and the handle is closed last. *)
Lemma finish_tally pages name v l res l' :
  finish os stack pages name v l = Some (res, l') ->
  slept_ms l'
  <= slept_ms l
     + (if NT_SUCCESS (status v)
        then if has_been_moved_away v then 25 else 100
        else 0)
  /\ (exists hs, opened l' = hs ++ opened l
                 /\ closed l' = handle v :: hs ++ closed l)
  /\ (renames l' <= renames l + moves_left v)%nat.
Proof.
  unfold finish. intros H. bindm H as v1 l1 Hloop.
  assert (T : slept_ms l1
              <= slept_ms l
                 + (if NT_SUCCESS (status v)
                    then if has_been_moved_away v then 25 else 100
                    else 0)
              /\ (exists hs, opened l1 = hs ++ opened l
                             /\ closed l1 = hs ++ closed l)
              /\ (renames l1 + moves_left v1 <= renames l + moves_left v)%nat
              /\ handle v1 = handle v).
  { destruct (NT_SUCCESS (status v)).
    - apply delete_loop_tally in Hloop as (D1 & D2 & D3 & D4).
      repeat split; auto. destruct (has_been_moved_away v); cbn in D1; lia.
    - retn Hloop. split; [lia|].
      split; [exists []; split; reflexivity|]. split; [lia | reflexivity]. }
  destruct T as (T1 & (hs & T2 & T3) & T4 & T5).
  bindc H as c Ec.
  assert (E : l' = (NtClose (handle v1), c) :: l1).
  { destruct (has_been_moved_away v1 && negb (NT_SUCCESS (status v1)));
      retn H; reflexivity. }
  subst l'. tally. rewrite T5.
  split; [assumption|]. split; [exists hs; split; congruence|]. lia.
Qed.

Lemma open_and_delete_tally pages name attr v l res l' :
  open_and_delete os stack pages name attr v l = Some (res, l') ->
  try_to_move_away v = false ->
  slept_ms l' <= slept_ms l + 100
  /\ (exists hs1 hs2, opened l' = hs1 ++ opened l
                      /\ closed l' = hs2 ++ closed l
                      /\ Permutation hs1 hs2)
  /\ (renames l' <= renames l + 1)%nat.
Proof.
  unfold open_and_delete. intros H Ht.
  bindm H as f l1 Hopen.
  apply open_loop_tally in Hopen as (O1 & O2 & O3 & O4).
  cbn [pred Z.of_nat] in O3.
  destruct f as [r|v1].
  - retn H. destruct O4 as [O4 _].
    split; [lia|]. split; [|lia].
    exists [], []. repeat split; auto.
  - destruct O4 as [(Hn & _) | (O4 & O5 & O6 & _)]; [discriminate|].
    bindm H as v2 l2 Hblock.
    apply move_block_tally in Hblock
      as (B1 & B2 & B3 & B4 & B5 & B6 & B7 & B8).
    apply finish_tally in H as (F1 & (hs & F2 & F3) & F4).
    assert (Hml : moves_left v2 = moves_left v1)
      by (unfold moves_left; now rewrite B5).
    assert (Hle : (moves_left v1 <= 1)%nat)
      by (unfold moves_left; destruct (try_to_move_away v1); lia).
    split; [|split].
    + destruct (try_to_move_away v1) eqn:Et1.
      * specialize (B6 eq_refl).
        destruct (NT_SUCCESS (status v2)); [rewrite (B6 eq_refl) in F1|];
          lia.
      * assert (slept_ms l1 = slept_ms l).
        { destruct (Z.eq_dec (slept_ms l1) (slept_ms l)) as [E|E];
            [assumption|].
          assert (Hlt : slept_ms l < slept_ms l1) by lia.
          specialize (O6 Hlt). discriminate. }
        destruct (NT_SUCCESS (status v2));
          [destruct (has_been_moved_away v2)|]; lia.
    + exists (hs ++ [handle v1]), (handle v2 :: hs).
      rewrite F2, F3, B2, B3, O4, O1. rewrite <- app_assoc.
      split; [reflexivity|]. split; [reflexivity|].
      rewrite B8. apply Permutation_sym, Permutation_cons_append.
    + lia.
Qed.

Lemma safe_unlink_tally pages name res l :
  safe_unlink os stack pages name [] = Some (res, l) ->
  slept_ms l <= 100
  /\ Permutation (opened l) (closed l)
  /\ (renames l <= 1)%nat.
Proof.
  unfold safe_unlink. intros H.
  bindc H as q Eq.
  destruct (negb (NT_SUCCESS (status_of q))).
  { retn H. tally. cbn. repeat split; try lia. constructor. }
  destruct (negb (Z.land FILE_ATTRIBUTE_READONLY (FileAttributes_of q) =? 0)).
  - bindc H as o Eo.
    destruct (NT_SUCCESS (status_of o)) eqn:Eok.
    + bindc H as b Eb. bindc H as c Ec. bindc H as q2 Eq2.
      destruct (negb (NT_SUCCESS (status_of q2))).
      { retn H. tally. rewrite Eok. cbn. repeat split; try lia.
        apply Permutation_refl. }
      apply open_and_delete_tally in H
        as (T1 & (hs1 & hs2 & T2 & T3 & T4) & T5); [|reflexivity].
      revert T1 T2 T3 T5. tally. rewrite Eok. cbn. intros T1 T2 T3 T5.
      rewrite T2, T3. repeat split; try lia.
      apply Permutation_app; [assumption | apply Permutation_refl].
    + apply open_and_delete_tally in H
        as (T1 & (hs1 & hs2 & T2 & T3 & T4) & T5); [|reflexivity].
      revert T1 T2 T3 T5. tally. rewrite Eok. cbn. intros T1 T2 T3 T5.
      rewrite T2, T3, !app_nil_r. repeat split; try lia. assumption.
  - apply open_and_delete_tally in H
      as (T1 & (hs1 & hs2 & T2 & T3 & T4) & T5); [|reflexivity].
    revert T1 T2 T3 T5. tally. cbn. intros T1 T2 T3 T5.
    rewrite T2, T3, !app_nil_r. repeat split; try lia. assumption.
Qed.

(** *** Every sleep is of 5 ms *)

Lemma sleeps_cons c a l :
  sleeps ((c, a) :: l)
  = match c with Sleep n => n :: sleeps l | _ => sleeps l end.
Proof. destruct c; reflexivity. Qed.

Lemma slept_ms_sleeps l : slept_ms l = fold_right Z.add 0 (sleeps l).
Proof.
  induction l as [|[c a] l IH]; [reflexivity|].
  rewrite slept_ms_cons, sleeps_cons.
  destruct c; try exact IH. cbn [fold_right]. now rewrite IH.
Qed.

Lemma steady_ret {A} (a : A) : steady (ret a).
Proof. intros l b l' H. retn H. auto. Qed.

Lemma steady_call c :
  (forall n, c = Sleep n -> n = 5) -> steady (call os c).
Proof.
  intros Hc l a l' H. apply call_Some in H as [_ ->].
  rewrite sleeps_cons. destruct c; auto.
Qed.

Lemma steady_bind {A B} (m : run A) (k : A -> run B) :
  steady m -> (forall a, steady (k a)) -> steady (bind m k).
Proof.
  intros Hm Hk l b l' H. bindm H as a l1 Ha.
  intros Hl. eapply Hk; [eassumption|]. eapply Hm; eassumption.
Qed.

Lemma steady_none {A} : steady (fun _ : log => @None (A * log)).
Proof. intros l a l' H. discriminate H. Qed.

Ltac steady_step :=
  match goal with
  | |- steady (ret _) => apply steady_ret
  | |- steady (call _ _) =>
    apply steady_call; intros ? [=]; subst; reflexivity
  | |- steady (bind _ _) => apply steady_bind; [|intros ?]
  | |- steady out_of_bounds => apply steady_none
  | |- steady out_of_pages => apply steady_none
  | |- steady (if ?b then _ else _) => destruct b
  | |- steady (match ?f with Return _ => _ | Go_on _ => _ end) =>
    destruct f
  | |- steady (match ?f with Stored _ => _ | Out_of_bounds _ => _ end) =>
    destruct f
  end.

Lemma move_away_steady h name : steady (move_away os stack h name).
Proof. unfold move_away. repeat steady_step. Qed.

Lemma entries_loop_steady h following : forall cursor,
  steady (entries_loop os h cursor following).
Proof.
  induction following as [|next following IH]; intros cursor;
    cbn [entries_loop]; repeat steady_step. apply IH.
Qed.

Lemma pages_loop_steady pages h : forall cursor following,
  steady (pages_loop os pages h cursor following).
Proof.
  induction pages as [|pages IH]; intros cursor following;
    cbn [pages_loop]; repeat steady_step;
    try apply entries_loop_steady; try apply IH.
Qed.

Lemma is_dir_empty_steady pages h : steady (is_dir_empty os pages h).
Proof.
  unfold is_dir_empty.
  apply steady_bind; [steady_step|]. intros r.
  repeat steady_step.
  destruct (next_entries_of r) as [|second [|third following]];
    try apply steady_ret.
  apply pages_loop_steady.
Qed.

Lemma open_loop_steady attr n : forall v, steady (open_loop os n attr v).
Proof.
  induction n as [|n IH]; intros v; cbn [open_loop]; repeat steady_step.
  apply IH.
Qed.

Lemma move_block_steady pages name v :
  steady (move_block os stack pages name v).
Proof.
  unfold move_block. repeat steady_step;
    try apply move_away_steady; try apply is_dir_empty_steady.
Qed.

Lemma delete_loop_steady pages name n : forall v,
  steady (delete_loop os stack pages n name v).
Proof.
  induction n as [|n IH]; intros v; cbn [delete_loop];
    repeat steady_step;
    try apply move_away_steady; try apply is_dir_empty_steady;
    try apply IH.
Qed.

Lemma finish_steady pages name v : steady (finish os stack pages name v).
Proof.
  unfold finish. repeat steady_step; try apply delete_loop_steady.
Qed.

Lemma safe_unlink_steady pages name :
  steady (safe_unlink os stack pages name).
Proof.
  unfold safe_unlink, open_and_delete.
  repeat steady_step;
    try apply open_loop_steady; try apply move_block_steady;
    try apply finish_steady.
Qed.

Lemma sum_of_fives ns :
  Forall (fun ms => ms = 5) ns ->
  fold_right Z.add 0 ns = 5 * Z.of_nat (length ns).
Proof.
  induction 1 as [|n ns -> _ IH]; [reflexivity|].
  cbn [fold_right length]. rewrite IH. lia.
Qed.

(** X5.  In a run of [safe_unlink] every call to [Sleep] asks for
    5 ms, and there are 20 such calls at most: 100 ms in all, over the
    two retry loops. *)
Theorem safe_unlink_sleeps pages name res l :
  safe_unlink os stack pages name [] = Some (res, l) ->
  Forall (fun ms => ms = 5) (sleeps l)
  /\ (length (sleeps l) <= 20)%nat
  /\ slept_ms l <= 100.
Proof.
  intros H.
  assert (H5 : Forall (fun ms => ms = 5) (sleeps l))
    by (eapply safe_unlink_steady; [exact H | constructor]).
  apply safe_unlink_tally in H as (H100 & _).
  split; [assumption|]. split; [|assumption].
  rewrite slept_ms_sleeps, (sum_of_fives _ H5) in H100. lia.
Qed.

(** X6.  [safe_unlink] leaks no handle: whichever way it returns, the
    handles that [NtOpenFile] gave out are the handles given to
    [NtClose], each as many times as it was given out. *)
Theorem safe_unlink_closes_handles pages name res l :
  safe_unlink os stack pages name [] = Some (res, l) ->
  Permutation (opened l) (closed l).
Proof. intros H. now apply safe_unlink_tally in H. Qed.

(** X7.  [safe_unlink] asks for at most one rename: the move made
    after a sharing violation and the move made on
    [STATUS_CANNOT_DELETE] exclude each other, and neither is tried
    again when it failed. *)
Theorem safe_unlink_renames_once pages name res l :
  safe_unlink os stack pages name [] = Some (res, l) ->
  (renames l <= 1)%nat.
Proof. intros H. now apply safe_unlink_tally in H. Qed.

(** ** The four ways a run ends *)

Lemma finish_outcome pages name v l res l' :
  finish os stack pages name v l = Some (res, l') ->
  sound v l ->
  try_again v = true ->
  (has_been_moved_away v = true -> NT_SUCCESS (status v) = true) ->
  accepted res l' \/ moved res l' \/ refused res l'.
Proof.
  unfold finish. intros H Hs Hta Hmv.
  bindm H as v1 l1 Hloop.
  assert (Hv1 : sound v1 l1
                /\ (NT_SUCCESS (status v) = true ->
                    last_delete_status l1 = Some (status v1))
                /\ (NT_SUCCESS (status v) = false -> v1 = v /\ l1 = l)).
  { destruct (NT_SUCCESS (status v)).
    - apply delete_loop_spec in Hloop as (D1 & _ & _ & D4); [|assumption].
      repeat split; try apply D1; try discriminate.
      intros _. apply D4; [assumption|].
      destruct (has_been_moved_away v); lia.
    - retn Hloop. repeat split; try apply Hs; auto. discriminate. }
  destruct Hv1 as ([S1 S2] & Hd1 & Hsame).
  bindc H as c Ec.
  assert (Hren : existsb renamed ((NtClose (handle v1), c) :: l1)
                 = has_been_moved_away v1) by (now rewrite S1).
  assert (Hlast : last_delete_status ((NtClose (handle v1), c) :: l1)
                  = last_delete_status l1)
    by (now rewrite last_delete_neutral).
  destruct (NT_SUCCESS (status v)) eqn:Est.
  - specialize (Hd1 eq_refl).
    destruct (has_been_moved_away v1) eqn:Em;
      destruct (NT_SUCCESS (status v1)) eqn:E1; cbn [andb negb] in H;
      retn H.
    + left. unfold accepted. cbn [debug last_error_code].
      repeat split; congruence.
    + right. left. unfold moved. split; [reflexivity|].
      split; [assumption|]. exists (status v1). split; congruence.
    + left. unfold accepted. cbn [debug last_error_code].
      repeat split; congruence.
    + right. right. unfold refused. cbn [debug last_error_code].
      repeat split; auto.
  - destruct (Hsame eq_refl) as [-> ->].
    assert (Em : has_been_moved_away v = false).
    { destruct (has_been_moved_away v); [|reflexivity].
      specialize (Hmv eq_refl). congruence. }
    rewrite Em in H. cbn [andb] in H. retn H.
    right. right. unfold refused. cbn [debug last_error_code].
    repeat split; auto. congruence.
Qed.

Lemma open_and_delete_outcome pages name attr v l res l' :
  open_and_delete os stack pages name attr v l = Some (res, l') ->
  Z.testbit (flags v) 12 = false ->
  has_been_moved_away v = false ->
  try_again v = true ->
  quiet l ->
  accepted res l' \/ pending res l' \/ moved res l' \/ refused res l'.
Proof.
  unfold open_and_delete. intros H Hf Hm Hta Hq.
  bindm H as f l1 Hopen.
  assert (Hopen' := Hopen).
  apply open_loop_spec in Hopen as [Hq1 Hgo]; [|assumption..].
  apply open_loop_tally in Hopen' as (_ & _ & _ & O4).
  destruct f as [r|v1].
  - retn H.
    assert (Hren : existsb renamed l1 = false)
      by (rewrite <- (app_nil_r l1), quiet_renamed by assumption;
          reflexivity).
    destruct O4 as [_ [-> | [[-> Hp] | [Hd Hfail]]]].
    + right. right. right. unfold refused. cbn [debug last_error_code].
      repeat split; auto.
    + right. left. split; [reflexivity|].
      destruct Hp as (acc & sh & fl & a & rest & E1 & E2).
      exists acc, attr, sh, fl, a, rest. split; assumption.
    + right. right. right. unfold refused. repeat split; auto.
  - destruct Hgo as [Hm1 Hta1]. rewrite Hm in Hm1. rewrite Hta in Hta1.
    bindm H as v2 l2 Hblock.
    apply move_block_spec in Hblock as (B1 & _ & B3 & B4);
      [|apply quiet_sound; assumption|assumption].
    rewrite Hta1 in B3.
    destruct (finish_outcome _ _ _ _ _ _ H B1 B3 B4) as [A | [M | R]];
      auto.
Qed.

Lemma safe_unlink_outcome pages name res l :
  safe_unlink os stack pages name [] = Some (res, l) ->
  accepted res l \/ pending res l \/ moved res l \/ refused res l.
Proof.
  unfold safe_unlink. intros H.
  bindc H as q Eq.
  destruct (negb (NT_SUCCESS (status_of q))) eqn:E0.
  { retn H. apply negb_true_iff in E0.
    right. right. right. unfold refused. cbn [debug last_error_code].
    repeat split; auto. }
  destruct (negb (Z.land FILE_ATTRIBUTE_READONLY (FileAttributes_of q) =? 0)).
  - bindc H as o Eo.
    destruct (NT_SUCCESS (status_of o)).
    + bindc H as b Eb. bindc H as c Ec. bindc H as q2 Eq2.
      destruct (negb (NT_SUCCESS (status_of q2))) eqn:E2.
      { retn H. apply negb_true_iff in E2.
        right. right. right. unfold refused. cbn [debug last_error_code].
        repeat split; auto. }
      eapply open_and_delete_outcome; try eassumption; try reflexivity.
      repeat (apply quiet_cons; [reflexivity|]). apply quiet_nil.
    + eapply open_and_delete_outcome; try eassumption; try reflexivity.
      repeat (apply quiet_cons; [reflexivity|]). apply quiet_nil.
  - eapply open_and_delete_outcome; try eassumption; try reflexivity.
    repeat (apply quiet_cons; [reflexivity|]). apply quiet_nil.
Qed.

(** X8.  What the result of [safe_unlink] says about the run.  A
    success is reported in three cases only: the system accepted the
    deletion (the last attempt to delete succeeded, debug code 0); the
    open for deletion was answered [STATUS_DELETE_PENDING] (debug code
    2); the file was renamed into the trash directory and the last
    attempt to delete it failed (debug code 6).  A failure is reported
    with debug code 0, 1, 3 or 4, and then no rename has succeeded:
    once the file is in the trash directory, [safe_unlink] reports
    success. *)
Theorem safe_unlink_report pages name res l :
  safe_unlink os stack pages name [] = Some (res, l) ->
  (NT_SUCCESS (last_error_code res) = true ->
   accepted res l \/ pending res l \/ moved res l)
  /\ (NT_SUCCESS (last_error_code res) = false -> refused res l).
Proof.
  intros H. apply safe_unlink_outcome in H.
  destruct H as [A | [P | [M | R]]]; split; intros E; auto.
  - destruct A as (_ & A & _). congruence.
  - destruct P as (-> & _). discriminate.
  - destruct M as (-> & _). discriminate.
  - destruct R as (R & _). congruence.
Qed.

(** X9.  [py_safe_unlink] gives Python 0 or a negative [NTSTATUS].  It
    gives 0, and prints nothing, only if the system accepted the
    deletion, or answered that a deletion is pending, or the file has
    been renamed into the trash directory.  It gives a negative
    status, which it prints with the debug code, only if no rename has
    succeeded. *)
Theorem py_safe_unlink_value pages name r l :
  py_safe_unlink os stack pages name [] = Some (r, l) ->
  (py_value r = 0 /\ py_printed r = None
   /\ ((exists s, last_delete_status l = Some s /\ NT_SUCCESS s = true)
       \/ (exists access attr share flags a rest,
              l = (NtOpenFile access attr share flags, a) :: rest
              /\ status_of a = STATUS_DELETE_PENDING)
       \/ existsb renamed l = true))
  \/ (py_value r < 0
      /\ existsb renamed l = false
      /\ exists d, py_printed r = Some (py_value r, d)
                   /\ (d = 0 \/ d = 0x1 \/ d = 0x3 \/ d = 0x4)).
Proof.
  unfold py_safe_unlink. intros H. bindm H as res l1 Hrun.
  apply safe_unlink_outcome in Hrun.
  destruct (NT_SUCCESS (last_error_code res)) eqn:E; retn H;
    cbn [py_value py_printed].
  - left. split; [reflexivity|]. split; [reflexivity|].
    destruct Hrun as [A | [P | [M | R]]].
    + left. destruct A as (_ & A1 & A2). eauto.
    + right. left. apply P.
    + right. right. apply M.
    + destruct R as (R & _). congruence.
  - right. unfold NT_SUCCESS in E. apply Z.leb_gt in E.
    split; [assumption|].
    destruct Hrun as [A | [P | [M | R]]].
    + destruct A as (_ & A & _). unfold NT_SUCCESS in A.
      apply Z.leb_le in A. lia.
    + destruct P as (-> & _). vm_compute in E. discriminate E.
    + destruct M as (-> & _). vm_compute in E. discriminate E.
    + destruct R as (_ & R1 & R2). split; [assumption|].
      exists (debug res). split; [reflexivity | assumption].
Qed.

End Tally.

Lemma safe_unlink_sleeps_witness :
  exists res l,
    safe_unlink full_directory stale_stack 1 sample_name [] = Some (res, l)
    /\ sleeps l = repeat 5 20
    /\ Forall (fun ms => ms = 5) (sleeps l)
    /\ (length (sleeps l) <= 20)%nat
    /\ slept_ms l <= 100.
Proof.
  destruct (safe_unlink full_directory stale_stack 1 sample_name [])
    as [[res l]|] eqn:E; [|vm_compute in E; discriminate E].
  exists res, l. split; [reflexivity|]. split.
  - vm_compute in E. injection E as _ <-. reflexivity.
  - exact (safe_unlink_sleeps full_directory stale_stack 1 sample_name
             res l E).
Defined.

Lemma safe_unlink_closes_handles_witness :
  exists res l,
    safe_unlink full_directory stale_stack 1 sample_name [] = Some (res, l)
    /\ Permutation (opened l) (closed l).
Proof.
  destruct (safe_unlink full_directory stale_stack 1 sample_name []) as [[res l]|] eqn:E;
    [|vm_compute in E; discriminate E].
  exists res, l. split; [reflexivity|].
  exact (safe_unlink_closes_handles full_directory stale_stack 1 sample_name res l E).
Defined.

Lemma safe_unlink_renames_once_witness :
  exists res l,
    safe_unlink busy_file stale_stack 1 sample_name [] = Some (res, l)
    /\ renames l = 1%nat
    /\ (renames l <= 1)%nat.
Proof.
  destruct (safe_unlink busy_file stale_stack 1 sample_name []) as [[res l]|] eqn:E;
    [|vm_compute in E; discriminate E].
  exists res, l. split; [reflexivity|]. split.
  - vm_compute in E. injection E as _ <-. reflexivity.
  - exact (safe_unlink_renames_once busy_file stale_stack 1 sample_name res l E).
Defined.

Lemma safe_unlink_report_witness :
  exists res l,
    safe_unlink plain_file stale_stack 1 sample_name [] = Some (res, l)
    /\ (NT_SUCCESS (last_error_code res) = true ->
        accepted res l \/ pending res l \/ moved res l)
    /\ (NT_SUCCESS (last_error_code res) = false -> refused res l).
Proof.
  destruct (safe_unlink plain_file stale_stack 1 sample_name []) as [[res l]|] eqn:E;
    [|vm_compute in E; discriminate E].
  exists res, l. split; [reflexivity|].
  exact (safe_unlink_report plain_file stale_stack 1 sample_name res l E).
Defined.

Lemma py_safe_unlink_value_witness :
  exists r l,
    py_safe_unlink busy_file stale_stack 1 sample_name [] = Some (r, l)
    /\ ((py_value r = 0 /\ py_printed r = None
         /\ ((exists s, last_delete_status l = Some s
                        /\ NT_SUCCESS s = true)
             \/ (exists access attr share flags a rest,
                    l = (NtOpenFile access attr share flags, a) :: rest
                    /\ status_of a = STATUS_DELETE_PENDING)
             \/ existsb renamed l = true))
        \/ (py_value r < 0
            /\ existsb renamed l = false
            /\ exists d, py_printed r = Some (py_value r, d)
                         /\ (d = 0 \/ d = 0x1 \/ d = 0x3 \/ d = 0x4))).
Proof.
  destruct (py_safe_unlink busy_file stale_stack 1 sample_name []) as [[r l]|] eqn:E;
    [|vm_compute in E; discriminate E].
  exists r, l. split; [reflexivity|].
  exact (py_safe_unlink_value busy_file stale_stack 1 sample_name r l E).
Defined.

End UnlinkFacts.

Module FromBufferFacts.
Import WinLow WinLowRuns.

(** ** The terminator of from_buffer *)

Lemma string_at_app a b :
  Forall (fun c => c <> 0) a -> string_at (a ++ b) = a ++ string_at b.
Proof.
  induction 1 as [|c a Hc _ IH]; [reflexivity|].
  cbn [app string_at]. apply Z.eqb_neq in Hc. rewrite Hc. now rewrite IH.
Qed.

Lemma string_at_stop g rest : string_at (g ++ 0 :: rest) = string_at g.
Proof.
  induction g as [|c g IH]; [reflexivity|].
  cbn [app string_at]. destruct (c =? 0); [reflexivity | now rewrite IH].
Qed.

Lemma Forall_skipn {A} (P : A -> Prop) n (l : list A) :
  Forall P l -> Forall P (skipn n l).
Proof.
  intros H. rewrite <- (firstn_skipn n l) in H.
  now apply Forall_app in H.
Qed.

(** X10.  The terminator of [from_buffer] is stored at the index
    [filename.Length], which counts bytes, in an array of [MAX_PATH]
    two-byte characters.  For a name of 130 characters or more the
    store is outside the array.  For a shorter name the characters
    between the end of the name and the terminator are what the stack
    held: the name given to [GetVolumePathNameW] is the file name
    without its first four characters, followed by those characters
    up to the first zero among them. *)
Theorem fill_from_buffer_terminator stack filename :
  length stack = MAX_PATH ->
  ((130 <= length filename)%nat ->
   exists i, fill_from_buffer stack filename = Out_of_bounds i
             /\ (MAX_PATH <= i)%nat)
  /\ ((4 <= length filename < 130)%nat ->
      Forall (fun c => c <> 0) filename ->
      exists buffer,
        fill_from_buffer stack filename = Stored buffer
        /\ length buffer = MAX_PATH
        /\ volume_query buffer
           = skipn 4 filename
             ++ string_at (firstn (length filename)
                                  (skipn (length filename) stack))).
Proof.
  intros Hstack. unfold fill_from_buffer, Length, sizeof_WCHAR, MAX_PATH in *.
  rewrite Nat.div_mul by lia. split.
  - intros Hn. destruct (260 <? length filename)%nat eqn:E.
    + exists 260%nat. split; [reflexivity | lia].
    + assert (Ht : (length filename * 2 <? 260)%nat = false)
        by (apply Nat.ltb_ge; lia).
      rewrite Ht. eexists. split; [reflexivity | lia].
  - intros Hn Hnz.
    assert (E : (260 <? length filename)%nat = false)
      by (apply Nat.ltb_ge; lia).
    assert (Ht : (length filename * 2 <? 260)%nat = true)
      by (apply Nat.ltb_lt; lia).
    rewrite E, Ht. eexists. split; [reflexivity|].
    rewrite firstn_all.
    set (n := length filename) in *.
    set (rest := skipn n stack).
    assert (Hrest : length rest = (260 - n)%nat)
      by (unfold rest; rewrite length_skipn; lia).
    assert (F : firstn (n * 2) (filename ++ rest)
                = filename ++ firstn n rest).
    { rewrite firstn_app. fold n.
      rewrite firstn_all2 by (fold n; lia). f_equal. f_equal. lia. }
    rewrite F. split.
    + rewrite !length_app, length_firstn. cbn [length].
      rewrite length_skipn, length_app. fold n. lia.
    + unfold volume_query. rewrite <- app_assoc.
      rewrite skipn_app.
      replace (4 - length filename)%nat with 0%nat by (fold n; lia).
      rewrite skipn_O, string_at_app by now apply Forall_skipn.
      now rewrite string_at_stop.
Qed.

Lemma fill_from_buffer_terminator_witness :
  (exists i, fill_from_buffer (repeat 7 260) (repeat 65 130)
             = Out_of_bounds i /\ (MAX_PATH <= i)%nat)
  /\ exists buffer,
      fill_from_buffer (repeat 7 260) sample_name = Stored buffer
      /\ length buffer = MAX_PATH
      /\ volume_query buffer = L "C:\t\d" ++ repeat 7 10.
Proof.
  split.
  - apply (fill_from_buffer_terminator (repeat 7 260) (repeat 65 130)).
    + reflexivity.
    + cbn. lia.
  - destruct (fill_from_buffer_terminator (repeat 7 260) sample_name)
      as [_ H]; [reflexivity|].
    destruct H as (buffer & H1 & H2 & H3).
    + cbn. lia.
    + repeat constructor; discriminate.
    + exists buffer. repeat split; assumption.
Defined.

End FromBufferFacts.

Module ArraysFacts.
Import WinLow WinLowRuns WinLowFacts.

(** ** The arrays of move_away *)

Lemma terminated_app a b :
  terminated (a ++ b) = terminated a || terminated b.
Proof. unfold terminated. apply existsb_app. Qed.

(** A name of 2 to 129 characters fits in [from_buffer], and the string
    at [from_buffer + 4] ends inside the array. *)
Lemma short_name_fits stack name :
  length stack = MAX_PATH ->
  (2 <= length name < 130)%nat ->
  exists from_buffer,
    fill_from_buffer stack name = Stored from_buffer
    /\ terminated (skipn 4 from_buffer) = true.
Proof.
  intros Hstack Hn.
  unfold fill_from_buffer, Length, sizeof_WCHAR, MAX_PATH in *.
  rewrite Nat.div_mul by lia.
  assert (E : (260 <? length name)%nat = false)
    by (apply Nat.ltb_ge; lia).
  assert (Ht : (length name * 2 <? 260)%nat = true)
    by (apply Nat.ltb_lt; lia).
  rewrite E, Ht. eexists. split; [reflexivity|].
  rewrite firstn_all.
  set (n := length name) in *.
  set (buffer := name ++ skipn n stack).
  assert (Hlen : length (firstn (n * 2) buffer) = (n * 2)%nat).
  { rewrite length_firstn. unfold buffer.
    rewrite length_app, length_skipn. fold n. lia. }
  rewrite skipn_app, Hlen, terminated_app.
  replace (4 - n * 2)%nat with 0%nat by lia.
  rewrite skipn_O. cbn [terminated existsb Z.eqb orb].
  apply orb_true_r.
Qed.

Lemma long_name_leaves os stack h name l :
  (130 <= length name)%nat ->
  move_away os stack h name l = None.
Proof.
  intros Hn. unfold move_away, fill_from_buffer, Length, sizeof_WCHAR,
    MAX_PATH.
  rewrite Nat.div_mul by lia.
  destruct (260 <? length name)%nat; [reflexivity|].
  assert (Ht : (length name * 2 <? 260)%nat = false)
    by (apply Nat.ltb_ge; lia).
  rewrite Ht. reflexivity.
Qed.

Lemma full_directory_volumes n c :
  (length (volume_of (full_directory n c)) < 230)%nat.
Proof.
  unfold full_directory. destruct c; cbn [answers volume_of length];
    repeat match goal with
           | |- context [if ?b then _ else _] => destruct b
           | |- context [match ?x with Some _ => _ | None => _ end] =>
             destruct x
           end;
    cbn; lia.
Qed.

(** X11.  [move_away] and its arrays of [MAX_PATH] characters.  For a
    name of 130 characters or more the terminator of [from_buffer] is
    stored outside the array, before any call is made.  For a name of
    2 to 129 characters [move_away] stays inside its arrays and returns
    when the volume path has fewer than 230 characters; when it has 246
    or more, the copy of the trash directory leaves [dest_buffer]. *)
Theorem move_away_arrays os stack h name l :
  ((130 <= length name)%nat -> move_away os stack h name l = None)
  /\ (length stack = MAX_PATH ->
      (2 <= length name < 130)%nat ->
      ((forall n c, (length (volume_of (os n c)) < 230)%nat) ->
       exists st l', move_away os stack h name l = Some (st, l'))
      /\ (forall from_buffer,
            fill_from_buffer stack name = Stored from_buffer ->
            (246 <= length (volume_of
                              (os (length l)
                                  (GetVolumePathNameW
                                     (volume_query from_buffer)))))%nat ->
            move_away os stack h name l = None)).
Proof.
  split; [apply long_name_leaves|].
  intros Hstack Hn. split.
  - intros Hv. apply move_away_returns. split.
    + apply short_name_fits; assumption.
    + intros n c. specialize (Hv n c).
      change (length (L "\??\")) with 4%nat.
      change (length trash_dir) with 10%nat. unfold MAX_PATH. lia.
  - intros from_buffer Hfill Hlong.
    destruct (short_name_fits stack name Hstack Hn)
      as (from_buffer' & Hfill' & Hterm).
    rewrite Hfill in Hfill'. injection Hfill' as <-.
    unfold move_away. rewrite Hfill, Hterm. cbn [negb].
    unfold bind, call.
    match goal with
    | |- (if (?a <? ?b)%nat then _ else _) _ = None =>
      destruct (Nat.ltb_spec a b) as [_|Hle]; [reflexivity|]
    end.
    rewrite length_app in Hle. unfold sizeof_trash_dir, MAX_PATH in Hle.
    change (length (L "\??\")) with 4%nat in Hle.
    change (length trash_dir) with 10%nat in Hle. lia.
Qed.

Lemma move_away_arrays_witness :
  move_away full_directory stale_stack 5 (repeat 65 130) [] = None
  /\ exists st l',
      move_away full_directory stale_stack 5 sample_name []
      = Some (st, l').
Proof.
  destruct (move_away_arrays full_directory stale_stack 5
              (repeat 65 130) []) as [Hlong _].
  destruct (move_away_arrays full_directory stale_stack 5 sample_name [])
    as [_ Hshort].
  split.
  - apply Hlong. cbn. lia.
  - apply Hshort.
    + reflexivity.
    + cbn. lia.
    + apply full_directory_volumes.
Defined.

(** X12.  [safe_unlink] returns: every loop but the one over the pages
    of a listing has a bound of its own, so where a listing fits in one
    page, the name has 2 to 129 characters and the volume paths fewer
    than 230, the function gives a result. *)
Theorem safe_unlink_total os stack pages name :
  single_page os ->
  (0 < pages)%nat ->
  length stack = MAX_PATH ->
  (2 <= length name < 130)%nat ->
  (forall n c, (length (volume_of (os n c)) < 230)%nat) ->
  exists res l, safe_unlink os stack pages name [] = Some (res, l).
Proof.
  intros Hone Hp Hstack Hn Hv.
  apply safe_unlink_returns; try assumption. split.
  - apply short_name_fits; assumption.
  - intros n c. specialize (Hv n c).
    change (length (L "\??\")) with 4%nat.
    change (length trash_dir) with 10%nat. unfold MAX_PATH. lia.
Qed.

Lemma safe_unlink_total_witness :
  exists res l,
    safe_unlink full_directory stale_stack 1 sample_name []
    = Some (res, l).
Proof.
  apply (safe_unlink_total full_directory stale_stack 1 sample_name).
  - intros n h. reflexivity.
  - lia.
  - reflexivity.
  - cbn. lia.
  - apply full_directory_volumes.
Defined.

End ArraysFacts.

Module PEReadsFacts.
Import PE PEReads.

(** X13.  On an empty file [is_gui_app] decides from what the stack
    held: [ReadBytes] reports nothing when a read is short, so the
    three buffers keep their old bytes, and the signatures and the
    Subsystem are looked for there. *)
Theorem is_gui_app_empty_file fs stack exe :
  fs (exe_file exe) = Some [] ->
  is_gui_app fs stack exe
  = decision (image_dos_header stack) (ntSignature stack)
             (image_optional_header stack).
Proof.
  intros H. unfold is_gui_app, decision. rewrite H.
  rewrite PEFacts.ReadBytes_empty.
  destruct (negb _); [reflexivity|].
  rewrite PEFacts.ReadBytes_empty.
  assert (C := PEFacts.AbsoluteSeek_content {| content := []; fptr := 0 |}
                 (field (image_dos_header stack) offsetof_e_lfanew 4)).
  destruct (AbsoluteSeek _ _) as [[c3 p3] off]. cbn [fst content] in C.
  subst c3. rewrite PEFacts.CoffHeaderOffset_nonneg.
  rewrite PEFacts.ReadBytes_empty.
  destruct (negb _); [reflexivity|].
  now rewrite !PEFacts.ReadBytes_empty.
Qed.

Lemma is_gui_app_empty_file_witness :
  is_gui_app empty_files stale_console_frame (cstr "a.exe") = 0
  /\ is_gui_app empty_files stale_console_frame (cstr "a.exe")
     = decision (image_dos_header stale_console_frame)
                (ntSignature stale_console_frame)
                (image_optional_header stale_console_frame).
Proof.
  split; [reflexivity|].
  apply (is_gui_app_empty_file empty_files stale_console_frame (cstr "a.exe")).
  reflexivity.
Defined.

End PEReadsFacts.

Module PyPollFacts.
Import Poll PyPoll.

(** ** The sleeps of the Windows loop *)

Lemma naps_before_S j :
  Win.naps_before (S j) = Win.naps_before j ++ [Win.nap j].
Proof.
  unfold Win.naps_before. rewrite seq_S, map_app. reflexivity.
Qed.

Lemma naps_before_bounds k :
  Forall (fun d => 5 <= d <= Win.MAX_DELAY + 5) (Win.naps_before k).
Proof.
  unfold Win.naps_before. apply Forall_forall. intros d Hd.
  apply in_map_iff in Hd as (j & <- & _).
  unfold Win.MAX_DELAY. apply WinPollFacts.nap_bounds.
Qed.

(** X14.  The Windows [__gnat_expect_poll] sleeps 5 ms, then 15, 25 and
    so on, 10 ms more each time up to 105 ms, and 105 ms from then on:
    the [k]-th sleep (from 0) is of min (5 + 10 k, 105) ms, which is
    above [MAX_DELAY] from the eleventh sleep on.  With a timeout of
    [timeout] >= 0 ms it has asked for less than [timeout] + 105 ms of
    sleep when it returns, and when it returns 0 (a timeout) it has
    asked for [timeout] ms at least: no timeout is reported early, and
    none is overshot by 105 ms or more of sleep. *)
Theorem win_poll_timing env fd timeout r :
  Win.expect_poll env fd timeout = Some (Win.Returns r) ->
  Win.slept r = map Win.nap (seq 0 (length (Win.slept r)))
  /\ Forall (fun d => 5 <= d <= Win.MAX_DELAY + 5) (Win.slept r)
  /\ (0 <= timeout ->
      Win.total (Win.slept r) < timeout + 105
      /\ (Win.value r = 0 -> timeout <= Win.total (Win.slept r))).
Proof.
  intros H. apply WinPollFacts.win_poll_result in H
    as (k & p & Hk & Hs & Hbefore & Hend).
  rewrite Hs. split; [|split].
  - unfold Win.naps_before. now rewrite length_map, length_seq.
  - apply naps_before_bounds.
  - intros Ht. split.
    + destruct k as [|k]; [cbn; lia|].
      assert (Hq : exists q, nth_error env k = Some q).
      { destruct (nth_error env k) as [q|] eqn:E; [eauto|].
        apply nth_error_None in E.
        assert (nth_error env (S k) <> None) by congruence.
        apply nth_error_Some in H. lia. }
      destruct Hq as (q & Hq).
      destruct (Hbefore k q ltac:(lia) Hq) as [_ [Hneg | Hlt]]; [lia|].
      rewrite naps_before_S, WinPollFacts.total_app.
      pose proof (WinPollFacts.nap_bounds k). cbn [Win.total fold_right].
      lia.
    + intros Hv.
      destruct Hend as [[H1 _] | [(_ & _ & _ & H0) | [H1 _]]]; lia.
Qed.

Lemma win_poll_timing_witness :
  exists r,
    Win.expect_poll (repeat Win.no_data 30) [3] 1000 = Some (Win.Returns r)
    /\ length (Win.slept r) = 15%nat
    /\ Win.total (Win.slept r) = 1025
    /\ Win.slept r = map Win.nap (seq 0 (length (Win.slept r)))
    /\ Forall (fun d => 5 <= d <= Win.MAX_DELAY + 5) (Win.slept r)
    /\ (0 <= 1000 ->
        Win.total (Win.slept r) < 1000 + 105
        /\ (Win.value r = 0 -> 1000 <= Win.total (Win.slept r))).
Proof.
  eexists. split; [vm_compute; reflexivity|].
  split; [reflexivity|]. split; [reflexivity|].
  apply (win_poll_timing (repeat Win.no_data 30) [3] 1000).
  vm_compute. reflexivity.
Defined.

(** ** The POSIX loop: the array and the arguments of select *)

Lemma after_select_untouched b o fd n rset eset is1 v :
  Posix.hpux b = false ->
  fst (Posix.after_select b o fd n rset eset is1) = Some v ->
  v <= 0 ->
  snd (Posix.after_select b o fd n rset eset is1) = is1.
Proof.
  unfold Posix.after_select. intros Hb.
  destruct (Posix.select o n rset eset) as [[ready rset'] eset'].
  rewrite Hb. destruct (0 <? ready) eqn:E; cbn [fst snd].
  - apply Z.ltb_lt in E. intros [= <-] Hv. lia.
  - reflexivity.
Qed.

Lemma largest_bounds fd :
  0 <= largest fd /\ Forall (fun f => f <= largest fd) fd.
Proof.
  induction fd as [|f fd [IH1 IH2]]; cbn [largest fold_right].
  - split; [lia | constructor].
  - fold (largest fd). split; [lia|]. constructor; [lia|].
    eapply Forall_impl; [|exact IH2]. cbv beta. intros. lia.
Qed.

Lemma fill_sets_largest size fd : forall rset eset m rset' eset' m',
  Posix.fill_sets size fd rset eset m = Some (rset', eset', m') ->
  0 <= m ->
  m' = Z.max m (largest fd).
Proof.
  induction fd as [|f fd IH]; intros rset eset m rset' eset' m' H Hm;
    cbn [Posix.fill_sets largest fold_right] in *.
  - injection H as _ _ <-. lia.
  - fold (largest fd).
    destruct (Posix.FD_SET size f rset) as [r1|]; [|discriminate].
    destruct (Posix.FD_SET size f eset) as [e1|]; [|discriminate].
    apply IH in H.
    + destruct (m <? f) eqn:E;
        [apply Z.ltb_lt in E | apply Z.ltb_ge in E]; lia.
    + destruct (m <? f) eqn:E;
        [apply Z.ltb_lt in E | apply Z.ltb_ge in E]; lia.
Qed.

(** X15.  On a build without the [__hpux__] part, the POSIX
    [__gnat_expect_poll] does not write [is_set] when it returns 0 or
    -1, and [poll] does not initialise the array: on a timeout or an
    error Python gets, as the tuple of flags, what the stack held. *)
Theorem poll_posix_flags_not_written b env fd_list timeout stack status flags :
  poll_posix b env fd_list timeout stack = Some (status, flags) ->
  Posix.hpux b = false ->
  status <= 0 ->
  flags = firstn (length fd_list) stack.
Proof.
  unfold poll_posix, Posix.expect_poll. intros H Hb Hs.
  destruct (Posix.poll_loop b env fd_list timeout _ 0
              (firstn (length fd_list) stack) []) as [[r|]|] eqn:E;
    try discriminate.
  injection H as <- <-.
  apply PosixPollFacts.poll_loop_rounds in E
    as (rset & eset & m' & k & o & is1 & _ & _ & _ & _ & _ & Hv & His
        & Hkeep).
  rewrite (Hkeep Hb) in His. rewrite His.
  rewrite (PosixPollFacts.after_select_fst b o fd_list (m' + 1) rset eset
             [] (firstn (length fd_list) stack)) in Hv.
  destruct (fst (Posix.after_select b o fd_list (m' + 1) rset eset
                   (firstn (length fd_list) stack))) as [v|] eqn:Ef.
  - subst v. eapply after_select_untouched; eassumption.
  - exfalso. unfold Posix.after_select in Ef.
    destruct (Posix.select o (m' + 1) rset eset) as [[ready rset'] eset'].
    rewrite Hb in Ef. destruct (0 <? ready); discriminate Ef.
Qed.

Lemma poll_posix_flags_not_written_witness :
  poll_posix Posix.linux [Posix.SelectReturns Posix.nothing Posix.nothing]
             [3; 4] 1000 [7; 7; 7] = Some (0, [7; 7]).
Proof.
  assert (E : poll_posix Posix.linux
                [Posix.SelectReturns Posix.nothing Posix.nothing]
                [3; 4] 1000 [7; 7; 7]
              = Some (0, firstn (length [3; 4]) [7; 7; 7])).
  { destruct (poll_posix Posix.linux
                [Posix.SelectReturns Posix.nothing Posix.nothing]
                [3; 4] 1000 [7; 7; 7]) as [[status flags]|] eqn:E;
      [|vm_compute in E; discriminate E].
    assert (Hs : status = 0)
      by (vm_compute in E; injection E as <- _; reflexivity).
    subst status.
    rewrite (poll_posix_flags_not_written Posix.linux
               [Posix.SelectReturns Posix.nothing Posix.nothing]
               [3; 4] 1000 [7; 7; 7] 0 flags E eq_refl ltac:(lia)).
    reflexivity. }
  exact E.
Defined.

(** X16.  The arguments of [select] in the POSIX [__gnat_expect_poll].
    In every call the first argument is one more than the largest
    descriptor of the list (1 for an empty list), so every descriptor
    of the list is below it.  With a timeout of [timeout] >= 0 ms
    there is one call, and its timeval is worth [timeout] ms exactly,
    with [tv_sec] >= 0 and 0 <= [tv_usec] < 1000000. *)
Theorem posix_poll_select_arguments b env fd timeout is0 r :
  Posix.expect_poll b env fd timeout is0 = Some (Posix.Returns r) ->
  Forall (fun c => Posix.nfds c = largest fd + 1
                   /\ Forall (fun f => f < Posix.nfds c) fd)
         (Posix.calls r)
  /\ (0 <= timeout ->
      exists tv,
        Posix.calls r = [{| Posix.nfds := largest fd + 1;
                            Posix.timeout_arg := Some tv |}]
        /\ 0 <= Posix.tv_sec tv
        /\ 0 <= Posix.tv_usec tv < 1000000
        /\ 1000000 * Posix.tv_sec tv + Posix.tv_usec tv = 1000 * timeout).
Proof.
  unfold Posix.expect_poll. intros H.
  apply PosixPollFacts.poll_loop_rounds in H
    as (rset & eset & m' & k & o & is1 & Hfill & Hk & Hcalls & Hbefore
        & _).
  apply fill_sets_largest in Hfill; [|lia].
  destruct (largest_bounds fd) as [L0 L1].
  rewrite Z.max_r in Hfill by assumption. subst m'. cbn [app] in Hcalls.
  split.
  - rewrite Hcalls. apply Forall_forall. intros c Hc.
    apply repeat_spec in Hc. subst c. cbn [Posix.nfds].
    split; [reflexivity|].
    eapply Forall_impl; [|exact L1]. cbv beta. intros. lia.
  - intros Ht.
    assert (Hk0 : k = 0%nat).
    { destruct k as [|k]; [reflexivity|].
      destruct env as [|o0 env]; [discriminate|].
      destruct (Hbefore 0%nat o0) as [Hm _]; [lia | reflexivity | lia]. }
    subst k. assert (Hne : (timeout =? -1) = false)
      by (apply Z.eqb_neq; lia).
    rewrite Hne in Hcalls. eexists. split; [exact Hcalls|].
    cbn [Posix.tv_sec Posix.tv_usec].
    rewrite Z.quot_div_nonneg, Z.rem_mod_nonneg by lia.
    assert (Hm := Z.mod_pos_bound timeout 1000 ltac:(lia)).
    assert (Hd := Z.div_mod timeout 1000 ltac:(lia)).
    assert (0 <= timeout / 1000) by (apply Z.div_pos; lia).
    repeat split; lia.
Qed.

Lemma posix_poll_select_arguments_witness :
  exists r,
    Posix.expect_poll Posix.linux
      [Posix.SelectReturns (fun f => f =? 3) Posix.nothing]
      [3; 4] 1500 [7; 7] = Some (Posix.Returns r)
    /\ Posix.calls r
       = [{| Posix.nfds := 5;
             Posix.timeout_arg :=
               Some {| Posix.tv_sec := 1; Posix.tv_usec := 500000 |} |}]
    /\ Forall (fun c => Posix.nfds c = largest [3; 4] + 1
                        /\ Forall (fun f => f < Posix.nfds c) [3; 4])
              (Posix.calls r)
    /\ (0 <= 1500 ->
        exists tv,
          Posix.calls r = [{| Posix.nfds := largest [3; 4] + 1;
                              Posix.timeout_arg := Some tv |}]
          /\ 0 <= Posix.tv_sec tv
          /\ 0 <= Posix.tv_usec tv < 1000000
          /\ 1000000 * Posix.tv_sec tv + Posix.tv_usec tv = 1000 * 1500).
Proof.
  eexists. split; [vm_compute; reflexivity|]. split; [reflexivity|].
  apply (posix_poll_select_arguments Posix.linux
           [Posix.SelectReturns (fun f => f =? 3) Posix.nothing]
           [3; 4] 1500 [7; 7]).
  vm_compute. reflexivity.
Defined.

End PyPollFacts.

Module TtyFacts.
Import Tty.

(** ** Mode words, bit by bit *)

Ltac bit_specs :=
  repeat first [ rewrite Z.land_spec | rewrite Z.lor_spec
               | rewrite Z.lnot_spec by assumption
               | rewrite Z.bits_0 ].

Ltac bit_cases :=
  repeat match goal with
         | |- context [Z.testbit ?x ?n] => destruct (Z.testbit x n)
         | H : context [Z.testbit ?x ?n] |- _ => destruct (Z.testbit x n)
         end;
  cbn [andb orb negb] in *; try reflexivity; try discriminate.


Ltac bits := apply Z.bits_inj'; intros ?n ?Hn; bit_specs; bit_cases.

(** ** Control characters *)

Lemma length_set_cc cc i v : length (set_cc cc i v) = length cc.
Proof.
  unfold set_cc. revert i. induction cc as [|x cc IH]; intros [|i];
    cbn [Poll.store length]; auto.
Qed.

Lemma nth_set_cc cc i v j :
  nth j (set_cc cc i v) 0
  = if ((j =? i) && (i <? length cc))%nat then v else nth j cc 0.
Proof.
  unfold set_cc. revert i j.
  induction cc as [|x cc IH]; intros i j.
  - cbn [Poll.store length]. rewrite Nat.ltb_irrefl || idtac.
    destruct i; cbn; rewrite andb_false_r; reflexivity.
  - destruct i as [|i], j as [|j]; cbn [Poll.store nth length]; try reflexivity.
    rewrite IH. reflexivity.
Qed.

(** X17.  [child_setup_tty] changes the settings it reads in the same
    way whatever they are, and changing them again changes nothing:
    [gvd_reset_tty] after [gvd_new_tty], or twice in a row, pushes the
    same settings. *)
Theorem tty_settings_idempotent p s :
  tty_settings p (tty_settings p s) = tty_settings p s.
Proof.
  unfold tty_settings, __enable, __disable.
  cbn [c_iflag c_oflag c_cflag c_lflag c_cc].
  f_equal.
  - bits.
  - bits.
  - bits.
  - bits.
  - apply nth_ext with (d := 0) (d' := 0).
    + now rewrite !length_set_cc.
    + intros j _. rewrite !nth_set_cc, !length_set_cc.
      repeat match goal with
             | |- context [if ?c then _ else _] => destruct c
             end; reflexivity.
Qed.

(** The delay bits of the output modes. *)
Lemma delays_cleared p s :
  Z.land (c_oflag (tty_settings p s))
         (Z.lor (Z.lor (Z.lor (Z.lor (Z.lor (NLDLY p) (CRDLY p)) (TABDLY p))
                              (BSDLY p)) (VTDLY p)) (FFDLY p)) = 0.
Proof.
  unfold tty_settings, __enable, __disable. cbn [c_oflag]. bits.
Qed.



(** X19.  The characters that [send_signal_via_characters] writes are
    the ones that [child_setup_tty] installs.  On a system whose
    indices VINTR, VQUIT and VSUSP are inside [c_cc] and are not
    written again after their own assignment, and whose three signal
    numbers differ: ISIG is on in the settings pushed, and the byte
    written to the master side for SIGINT, SIGQUIT and SIGTSTP is
    [c_cc[VINTR]], [c_cc[VQUIT]] and [c_cc[VSUSP]] of those settings.
    For any other signal nothing is written. *)
Theorem signal_characters p s t :
  (VINTR p < length (c_cc s))%nat ->
  (VQUIT p < length (c_cc s))%nat ->
  (VSUSP p < length (c_cc s))%nat ->
  VQUIT p <> VINTR p -> VQUIT p <> VEOL p -> VQUIT p <> VSUSP p ->
  VINTR p <> VEOL p -> VINTR p <> VSUSP p ->
  SIGINT p <> SIGQUIT p -> SIGINT p <> SIGTSTP p ->
  SIGQUIT p <> SIGTSTP p ->
  let s' := tty_settings p s in
  Z.land (c_lflag s') (ISIG p) = ISIG p
  /\ send_signal_via_characters p t (SIGINT p)
     = [write (Pty.master_fd t) [nth (VINTR p) (c_cc s') 0]]
  /\ send_signal_via_characters p t (SIGQUIT p)
     = [write (Pty.master_fd t) [nth (VQUIT p) (c_cc s') 0]]
  /\ send_signal_via_characters p t (SIGTSTP p)
     = [write (Pty.master_fd t) [nth (VSUSP p) (c_cc s') 0]]
  /\ forall sig,
      sig <> SIGINT p -> sig <> SIGQUIT p -> sig <> SIGTSTP p ->
      send_signal_via_characters p t sig = [].
Proof.
  intros Li Lq Ls Nqi Nqe Nqs Nie Nis Siq Sit Sqt s'.
  assert (Ci : nth (VINTR p) (c_cc s') 0 = 3).
  { subst s'. unfold tty_settings. cbn [c_cc].
    rewrite !nth_set_cc, !length_set_cc.
    apply Nat.eqb_neq in Nie, Nis. rewrite Nie, Nis, Nat.eqb_refl.
    apply Nat.ltb_lt in Li. rewrite Li. reflexivity. }
  assert (Cq : nth (VQUIT p) (c_cc s') 0 = 28).
  { subst s'. unfold tty_settings. cbn [c_cc].
    rewrite !nth_set_cc, !length_set_cc.
    apply Nat.eqb_neq in Nqi, Nqe, Nqs.
    rewrite Nqi, Nqe, Nqs, Nat.eqb_refl.
    apply Nat.ltb_lt in Lq. rewrite Lq. reflexivity. }
  assert (Cs : nth (VSUSP p) (c_cc s') 0 = 26).
  { subst s'. unfold tty_settings. cbn [c_cc].
    rewrite !nth_set_cc, !length_set_cc. rewrite Nat.eqb_refl.
    apply Nat.ltb_lt in Ls. rewrite Ls. reflexivity. }
  rewrite Ci, Cq, Cs. unfold send_signal_via_characters.
  split; [|split; [|split; [|split]]].
  - subst s'. unfold tty_settings, __enable, __disable. cbn [c_lflag].
    bits.
  - now rewrite Z.eqb_refl.
  - apply not_eq_sym, Z.eqb_neq in Siq. now rewrite Siq, Z.eqb_refl.
  - apply not_eq_sym, Z.eqb_neq in Sit. apply not_eq_sym, Z.eqb_neq in Sqt.
    now rewrite Sit, Sqt, Z.eqb_refl.
  - intros sig N1 N2 N3. apply Z.eqb_neq in N1, N2, N3.
    now rewrite N1, N2, N3.
Qed.

Lemma signal_characters_witness :
  let s' := tty_settings linux raw_echo in
  let t := {| Pty.master_fd := 5; Pty.slave_fd := -1;
              Pty.slave_name := cstr "/dev/pts/7"; Pty.child_pid := 100 |} in
  Z.land (c_lflag s') (ISIG linux) = ISIG linux
  /\ send_signal_via_characters linux t (SIGINT linux)
     = [write 5 [nth (VINTR linux) (c_cc s') 0]]
  /\ send_signal_via_characters linux t (SIGQUIT linux)
     = [write 5 [nth (VQUIT linux) (c_cc s') 0]]
  /\ send_signal_via_characters linux t (SIGTSTP linux)
     = [write 5 [nth (VSUSP linux) (c_cc s') 0]]
  /\ forall sig,
      sig <> SIGINT linux -> sig <> SIGQUIT linux -> sig <> SIGTSTP linux ->
      send_signal_via_characters linux t sig = [].
Proof.
  apply (signal_characters linux raw_echo
           {| Pty.master_fd := 5; Pty.slave_fd := -1;
              Pty.slave_name := cstr "/dev/pts/7"; Pty.child_pid := 100 |});
    cbn; (lia || discriminate).
Defined.

(** ** allocate_pty_desc *)

Lemma copy_name_length name : (length (Pty.copy_name name) <= 31)%nat.
Proof. unfold Pty.copy_name. rewrite length_firstn. lia. Qed.

Lemma allocate_pty_desc_cases sys desc0 :
  let '(status, desc, m, evs) := Pty.allocate_pty_desc sys desc0 in
  (status = 0
   /\ closes (map pty evs) = []
   /\ desc = Pty.malloc sys
   /\ exists t,
       m = Pty.alloc Pty.empty_heap desc t
       /\ 0 <= Pty.master_fd t
       /\ filter (fun fd => 0 <=? fd) (handed_out sys)
          = Pty.master_fd t
            :: (if 0 <=? Pty.slave_fd t then [Pty.slave_fd t] else [])
       /\ (length (Pty.slave_name t) <= 31)%nat
       /\ Pty.child_pid t = -1
       /\ evs = [Pty.Grantpt (Pty.master_fd t);
                 Pty.Unlockpt (Pty.master_fd t)])
  \/ (status = -1
      /\ closes (map pty evs)
         = filter (fun fd => 0 <=? fd) (handed_out sys)
      /\ m = Pty.empty_heap
      /\ desc = (if match Pty.configured sys with
                    | Pty.Not_configured => true
                    | _ => false
                    end
                 then desc0 else Pty.NULL)
      /\ Forall (fun e => match e with
                          | Pty.Grantpt _ | Pty.Unlockpt _ => False
                          | _ => True
                          end) evs).
Proof.
  assert (Hclose : forall msg a b,
             closes (map pty (Pty.Printf msg
                              :: Pty.close_if_open a ++ Pty.close_if_open b))
             = filter (fun fd => 0 <=? fd) [a; b]).
  { intros msg a b. unfold Pty.close_if_open. cbn [filter].
    destruct (0 <=? a), (0 <=? b); reflexivity. }
  assert (Hquiet : forall msg a b,
             Forall (fun e => match e with
                              | Pty.Grantpt _ | Pty.Unlockpt _ => False
                              | _ => True
                              end)
                    (Pty.Printf msg
                     :: Pty.close_if_open a ++ Pty.close_if_open b)).
  { intros msg a b. unfold Pty.close_if_open.
    destruct (0 <=? a), (0 <=? b); repeat constructor. }
  assert (Hlen := copy_name_length).
  unfold Pty.allocate_pty_desc, handed_out.
  destruct (Pty.configured sys).
  - (* getpt *)
    cbv beta iota. change (negb true) with false. cbv iota.
    change (negb (0 =? 0)) with false. cbn [orb].
    destruct (Pty.getpt sys <? 0) eqn:Em.
    { right. rewrite Hclose. repeat split; auto. }
    apply Z.ltb_ge in Em.
    destruct (Pty.ptsname sys (Pty.getpt sys)) as [name|].
    + left. repeat split. eexists. split; [reflexivity|].
      cbn [Pty.master_fd Pty.slave_fd Pty.slave_name Pty.child_pid filter].
      apply Z.leb_le in Em. rewrite Em. repeat split; auto.
      now apply Z.leb_le.
    + right. rewrite Hclose. repeat split; auto.
  - (* openpty *)
    destruct (Pty.openpty sys) as [[st mfd] sfd].
    cbv beta iota. change (negb true) with false. cbv iota.
    destruct (negb (st =? 0) || (mfd <? 0)) eqn:Em.
    { right. rewrite Hclose. repeat split; auto. }
    apply orb_false_iff in Em as [_ Em]. apply Z.ltb_ge in Em.
    destruct (Pty.ptsname sys mfd) as [name|].
    + left. repeat split. eexists. split; [reflexivity|].
      cbn [Pty.master_fd Pty.slave_fd Pty.slave_name Pty.child_pid filter].
      apply Z.leb_le in Em. rewrite Em. repeat split; auto.
      now apply Z.leb_le.
    + right. rewrite Hclose. repeat split; auto.
  - (* _getpty *)
    destruct (Pty._getpty sys) as [[name|] mfd]; cbn [snd];
      cbv beta iota; change (negb true) with false; cbv iota.
    + change (negb (0 =? 0)) with false. cbn [orb].
      destruct (mfd <? 0) eqn:Em.
      { right. rewrite Hclose. repeat split; auto. }
      apply Z.ltb_ge in Em.
      left. repeat split. eexists. split; [reflexivity|].
      cbn [Pty.master_fd Pty.slave_fd Pty.slave_name Pty.child_pid filter].
      apply Z.leb_le in Em. rewrite Em. repeat split; auto.
      now apply Z.leb_le.
    + change (negb (-1 =? 0)) with true. cbn [orb].
      right. rewrite Hclose. repeat split; auto.
  - (* the clone device *)
    cbv beta iota. change (negb true) with false. cbv iota.
    change (negb (0 =? 0)) with false. cbn [orb].
    destruct (Pty.open_clone sys <? 0) eqn:Em.
    { right. rewrite Hclose. repeat split; auto. }
    apply Z.ltb_ge in Em.
    destruct (Pty.ptsname sys (Pty.open_clone sys)) as [name|].
    + left. repeat split. eexists. split; [reflexivity|].
      cbn [Pty.master_fd Pty.slave_fd Pty.slave_name Pty.child_pid filter].
      apply Z.leb_le in Em. rewrite Em. repeat split; auto.
      now apply Z.leb_le.
    + right. rewrite Hclose. repeat split; auto.
  - (* not configured *)
    cbv beta iota. change (negb false) with true. cbv iota.
    right. repeat split. repeat constructor.
Qed.

Lemma allocate_success sys desc0 desc m evs :
  Pty.allocate_pty_desc sys desc0 = (0, desc, m, evs) ->
  exists t,
    m = Pty.alloc Pty.empty_heap desc t
    /\ 0 <= Pty.master_fd t
    /\ Pty.child_pid t = -1.
Proof.
  intros H. assert (C := allocate_pty_desc_cases sys desc0).
  rewrite H in C. destruct C as [(_ & _ & _ & t & C1 & C2 & _ & _ & C3 & _)
                                | (C & _)]; [|discriminate].
  exists t. repeat split; assumption.
Qed.

Lemma deref_alloc m desc t :
  desc <> Pty.NULL ->
  deref (Pty.alloc m desc t) desc = Pty.Returns t.
Proof.
  intros H. unfold deref, Pty.alloc. apply Z.eqb_neq in H. rewrite H.
  now rewrite Z.eqb_refl.
Qed.

Lemma kills_app a b : kills (a ++ b) = kills a ++ kills b.
Proof. unfold kills. apply flat_map_app. Qed.

Lemma closes_app a b : closes (a ++ b) = closes a ++ closes b.
Proof. unfold closes. apply flat_map_app. Qed.

Lemma kills_pty evs : kills (map pty evs) = [].
Proof. induction evs as [|e evs IH]; [reflexivity | exact IH]. Qed.

Lemma kills_child_setup_tty p os fd : kills (snd (child_setup_tty p os fd)) = [].
Proof.
  unfold child_setup_tty. destruct (tcgetattr_of os fd) as [status s].
  destruct (negb (status =? 0)); reflexivity.
Qed.

(** X21.  [non_blocking_spawn] does not look at the status of
    [gvd_setup_communication].  Whenever [allocate_pty_desc] fails and
    stores a null pointer, the function forks all the same and then
    reads through the null pointer: in the parent (and when [fork]
    failed) in [gvd_setup_parent_communication], in the child in
    [gvd_setup_child_communication], right after [setsid]. *)
Theorem non_blocking_spawn_null_dereference p sys os desc0 cmd_args m evs :
  Pty.allocate_pty_desc sys desc0 = (-1, Pty.NULL, m, evs) ->
  non_blocking_spawn p sys os desc0 cmd_args
  = (Pty.Invalid_read Pty.NULL, m,
     map pty evs
     ++ fork :: (if fork_of os =? 0 then [getpid; setsid] else [])).
Proof.
  intros H. unfold non_blocking_spawn. rewrite H.
  unfold gvd_setup_child_communication, gvd_setup_parent_communication.
  change (deref m Pty.NULL) with (@Pty.Invalid_read Pty.term_handler Pty.NULL).
  destruct (fork_of os =? 0); cbv beta iota; rewrite <- app_assoc;
    reflexivity.
Qed.

Lemma non_blocking_spawn_null_dereference_witness :
  non_blocking_spawn linux Pty.out_of_ptys no_fork 12345 [cstr "ls"]
  = (Pty.Invalid_read Pty.NULL, Pty.empty_heap,
     [pty (Pty.Printf "[error]: cannot allocate master side of the pty");
      fork]).
Proof.
  apply (non_blocking_spawn_null_dereference linux Pty.out_of_ptys no_fork
           12345 [cstr "ls"] Pty.empty_heap
           [Pty.Printf "[error]: cannot allocate master side of the pty"]).
  reflexivity.
Defined.

(** X22.  The process in which [fork] does not return 0: the parent,
    or the only process when [fork] failed with -1.  After a
    successful allocation [non_blocking_spawn] returns the master
    descriptor as the three descriptors and the value of [fork] as the
    pid, unchecked; it sends no signal and closes the slave
    descriptor if the allocation had opened it.  A later
    [gvd_terminate_process] closes the master and sends SIGKILL to
    that pid, whatever it is: after a failed fork this is
    [kill (-1, SIGKILL)]. *)
Theorem non_blocking_spawn_parent p sys os desc0 cmd_args desc m evs :
  Pty.allocate_pty_desc sys desc0 = (0, desc, m, evs) ->
  desc <> Pty.NULL ->
  fork_of os <> 0 ->
  exists t m' calls,
    m desc = Some t
    /\ non_blocking_spawn p sys os desc0 cmd_args
       = (Pty.Returns
            (Some {| py_in_fd := Pty.master_fd t;
                     py_out_fd := Pty.master_fd t;
                     py_err_fd := Pty.master_fd t;
                     py_pid := fork_of os; py_desc := desc |}),
          m', calls)
    /\ kills calls = []
    /\ closes calls
       = (if 0 <=? Pty.slave_fd t then [Pty.slave_fd t] else [])
    /\ gvd_terminate_process p os m' desc
       = (Pty.Returns (kill_of os (fork_of os) (SIGKILL p)),
          [close (Pty.master_fd t); kill (fork_of os) (SIGKILL p)]).
Proof.
  intros H Hd Hf.
  assert (C := allocate_pty_desc_cases sys desc0). rewrite H in C.
  destruct C as [(_ & Hc & _ & t & -> & _) | (C & _)]; [|discriminate].
  unfold non_blocking_spawn. rewrite H.
  apply Z.eqb_neq in Hf. rewrite Hf.
  unfold gvd_setup_parent_communication. rewrite deref_alloc by assumption.
  exists t.
  destruct (0 <=? Pty.slave_fd t) eqn:Es; cbv beta iota;
    cbn [in_fd out_fd err_fd]; eexists; eexists;
    (split; [unfold Pty.alloc; now rewrite Z.eqb_refl|]);
    (split; [reflexivity|]);
    rewrite kills_app, closes_app, kills_app, closes_app, kills_pty, Hc;
    (split; [reflexivity|]); (split; [reflexivity|]);
    unfold gvd_terminate_process; rewrite deref_alloc by assumption;
    reflexivity.
Qed.

Lemma non_blocking_spawn_parent_witness :
  exists t m' calls,
    Pty.alloc Pty.empty_heap 4096
      {| Pty.master_fd := 5; Pty.slave_fd := -1;
         Pty.slave_name := Pty.copy_name (cstr "/dev/pts/7");
         Pty.child_pid := -1 |} 4096 = Some t
    /\ non_blocking_spawn linux one_pty no_fork 12345 [cstr "ls"]
       = (Pty.Returns
            (Some {| py_in_fd := Pty.master_fd t;
                     py_out_fd := Pty.master_fd t;
                     py_err_fd := Pty.master_fd t;
                     py_pid := -1; py_desc := 4096 |}),
          m', calls)
    /\ kills calls = []
    /\ closes calls
       = (if 0 <=? Pty.slave_fd t then [Pty.slave_fd t] else [])
    /\ gvd_terminate_process linux no_fork m' 4096
       = (Pty.Returns 0, [close (Pty.master_fd t); kill (-1) 9]).
Proof.
  apply (non_blocking_spawn_parent linux one_pty no_fork 12345 [cstr "ls"]
           4096 _
           [Pty.Grantpt 5; Pty.Unlockpt 5]).
  - reflexivity.
  - discriminate.
  - discriminate.
Defined.

Lemma kills_winsize p t rows columns :
  Pty.child_pid t <= 0 -> kills (gvd_setup_winsize p t rows columns) = [].
Proof.
  intros H. unfold gvd_setup_winsize.
  assert (E : (0 <? Pty.child_pid t) = false) by (apply Z.ltb_ge; lia).
  rewrite E, andb_false_r. destruct (has_TIOCGWINSZ p); reflexivity.
Qed.

(** The child side: no signal is sent, and the last call is [execvp]
    or, when it failed, the [printf] of its status. *)
Lemma gvd_setup_child_communication_calls p os m desc t argv :
  deref m desc = Pty.Returns t ->
  Pty.child_pid t <= 0 ->
  exists slave pre,
    kills pre = []
    /\ gvd_setup_child_communication p os m desc argv
       = (match execvp_of os argv with
          | None => Pty.Returns None
          | Some _ => Pty.Returns (Some (getpid_of os))
          end,
          Pty.alloc m desc
            {| Pty.master_fd := Pty.master_fd t; Pty.slave_fd := slave;
               Pty.slave_name := Pty.slave_name t;
               Pty.child_pid := Pty.child_pid t |},
          pre ++ execvp argv
              :: match execvp_of os argv with
                 | None => []
                 | Some status => [printf_status status]
                 end).
Proof.
  intros Hd Hc. unfold gvd_setup_child_communication. rewrite Hd.
  set (slave_opens := if Pty.slave_fd t =? -1
                      then (open_of os (Pty.slave_name t),
                            [open (Pty.slave_name t) (aix p)])
                      else (Pty.slave_fd t, [])).
  assert (Ho : kills (snd slave_opens) = [])
    by (unfold slave_opens; destruct (Pty.slave_fd t =? -1); reflexivity).
  destruct slave_opens as [slave opens]. cbn [snd] in Ho.
  exists slave.
  exists ([getpid; setsid] ++ opens
          ++ (if streams p
              then [ioctl_I_PUSH slave "ptem"; ioctl_I_PUSH slave "ldterm";
                    ioctl_I_PUSH slave "ttcompat"]
              else [])
          ++ (if has_TIOCSCTTY p then [ioctl_TIOCSCTTY slave] else [])
          ++ snd (child_setup_tty p os slave)
          ++ gvd_setup_winsize p
               {| Pty.master_fd := Pty.master_fd t; Pty.slave_fd := slave;
                  Pty.slave_name := Pty.slave_name t;
                  Pty.child_pid := Pty.child_pid t |} 24 80
          ++ [dup2 slave 0; dup2 slave 1; dup2 slave 2]
          ++ (if 2 <? slave then [close slave] else [])
          ++ [setpgid (getpid_of os) (getpid_of os);
              tcsetpgrp 0 (getpid_of os)]).
  split.
  - rewrite !kills_app, Ho, kills_child_setup_tty, kills_winsize
      by assumption.
    destruct (streams p), (has_TIOCSCTTY p), (2 <? slave); reflexivity.
  - destruct (execvp_of os argv) as [status|]; f_equal;
      repeat (rewrite <- app_assoc; cbn [app]); reflexivity.
Qed.

(** X23.  The child of the fork, after a successful allocation.  It
    sends no signal: the pid that [gvd_setup_winsize] would signal is
    still -1 there.  When [execvp] starts the program,
    [non_blocking_spawn] does not return and [execvp] is its last
    call.  When [execvp] fails the function goes on as the parent
    does: it returns to Python in the child too, with the pid 0, and a
    later [gvd_terminate_process] sends SIGKILL to the pid 0, the
    process group of the caller. *)
Theorem non_blocking_spawn_child p sys os desc0 cmd_args desc m evs :
  Pty.allocate_pty_desc sys desc0 = (0, desc, m, evs) ->
  desc <> Pty.NULL ->
  fork_of os = 0 ->
  exists t m' calls,
    m desc = Some t
    /\ kills calls = []
    /\ match execvp_of os cmd_args with
       | None =>
         non_blocking_spawn p sys os desc0 cmd_args
         = (Pty.Returns None, m', calls ++ [execvp cmd_args])
       | Some status =>
         non_blocking_spawn p sys os desc0 cmd_args
         = (Pty.Returns
              (Some {| py_in_fd := Pty.master_fd t;
                       py_out_fd := Pty.master_fd t;
                       py_err_fd := Pty.master_fd t;
                       py_pid := 0; py_desc := desc |}),
            m', calls)
         /\ In (printf_status status) calls
         /\ gvd_terminate_process p os m' desc
            = (Pty.Returns (kill_of os 0 (SIGKILL p)),
               [close (Pty.master_fd t); kill 0 (SIGKILL p)])
       end.
Proof.
  intros H Hd Hf.
  destruct (allocate_success _ _ _ _ _ H) as (t & -> & _ & Hpid).
  exists t.
  unfold non_blocking_spawn. rewrite H, Hf. cbn [Z.eqb].
  destruct (gvd_setup_child_communication_calls p os
              (Pty.alloc Pty.empty_heap desc t) desc t cmd_args)
    as (slave & pre & Hk & ->);
    [now apply deref_alloc | lia|].
  assert (Hm : Pty.alloc Pty.empty_heap desc t desc = Some t)
    by (unfold Pty.alloc; now rewrite Z.eqb_refl).
  destruct (execvp_of os cmd_args) as [status|].
  - unfold gvd_setup_parent_communication.
    rewrite deref_alloc by assumption.
    cbn [Pty.master_fd Pty.slave_fd Pty.slave_name].
    destruct (0 <=? slave); cbv beta iota; cbn [in_fd out_fd err_fd];
      eexists; eexists; (split; [exact Hm|]);
      (split; [|split; [reflexivity|split]]);
      try (rewrite !kills_app, kills_pty, Hk; reflexivity);
      try (apply in_or_app; left; apply in_or_app; right;
           apply in_or_app; right; right; left; reflexivity);
      try (unfold gvd_terminate_process; rewrite deref_alloc by assumption;
           reflexivity).
  - eexists; exists ((map pty evs ++ [fork]) ++ pre).
    split; [exact Hm|]. split.
    + rewrite !kills_app, kills_pty, Hk. reflexivity.
    + rewrite <- !app_assoc. reflexivity.
Qed.

Lemma non_blocking_spawn_child_witness :
  exists t m' calls,
    Pty.alloc Pty.empty_heap 4096
      {| Pty.master_fd := 5; Pty.slave_fd := -1;
         Pty.slave_name := Pty.copy_name (cstr "/dev/pts/7");
         Pty.child_pid := -1 |} 4096 = Some t
    /\ kills calls = []
    /\ non_blocking_spawn linux one_pty no_exec 12345 [cstr "ls"]
       = (Pty.Returns
            (Some {| py_in_fd := Pty.master_fd t;
                     py_out_fd := Pty.master_fd t;
                     py_err_fd := Pty.master_fd t;
                     py_pid := 0; py_desc := 4096 |}),
          m', calls)
    /\ In (printf_status (-1)) calls
    /\ gvd_terminate_process linux no_exec m' 4096
       = (Pty.Returns 0, [close (Pty.master_fd t); kill 0 9]).
Proof.
  exact (non_blocking_spawn_child linux one_pty no_exec 12345 [cstr "ls"]
           4096 _ [Pty.Grantpt 5; Pty.Unlockpt 5]
           eq_refl ltac:(discriminate) eq_refl).
Defined.

End TtyFacts.

Module PosixReapFacts.
Import Reap Reap.Posix.

Lemma signaled_below sig core : 0 <= signaled sig core < 256.
Proof.
  unfold signaled. change 0x7f with (Z.ones 7).
  rewrite Z.land_ones by lia.
  pose proof (Z.mod_pos_bound sig (2 ^ 7) ltac:(lia)) as Hx.
  set (x := sig mod 2 ^ 7) in *.
  destruct core.
  - assert (H0 : 0 <= Z.lor x 0x80) by (apply Z.lor_nonneg; lia).
    assert (Hn : Z.lor x 0x80 <> 0).
    { intros E. apply Z.lor_eq_0_iff in E. lia. }
    split; [assumption|].
    change 256 with (2 ^ 8).
    apply (proj2 (Z.log2_lt_pow2 (Z.lor x 0x80) 8 ltac:(lia))).
    rewrite Z.log2_lor by lia.
    change (Z.log2 0x80) with 7.
    assert (Z.log2 x < 7).
    { destruct (Z.eq_dec x 0) as [-> | Hx0]; [cbn; lia|].
      apply (proj1 (Z.log2_lt_pow2 x 7 ltac:(lia))). lia. }
    lia.
  - rewrite Z.lor_0_r. lia.
Qed.

(** X24.  The POSIX [gvd_waitpid] (with [waitpid]) returns only
    when the child has ended.  For a child that called [exit (code)]
    the value is [code] modulo 256; for a child that a signal killed it
    is 0, as it is when [waitpid] fails, since [status] starts at 0 and
    only [WEXITSTATUS] is looked at. *)
Theorem posix_gvd_waitpid_value :
  (forall code, gvd_waitpid (Ends (exited code)) = Some (code mod 256))
  /\ (forall sig core, gvd_waitpid (Ends (signaled sig core)) = Some 0)
  /\ gvd_waitpid NoSuchChild = Some 0
  /\ gvd_waitpid Runs_forever = None.
Proof.
  split; [|split; [|split; reflexivity]].
  - intros code.
    destruct (ReapFacts.posix_gvd_waitpid_exit_code code) as [-> _].
    f_equal. change 0xff with (Z.ones 8). now rewrite Z.land_ones by lia.
  - intros sig core. unfold gvd_waitpid, WEXITSTATUS. f_equal.
    pose proof (signaled_below sig core) as Hs.
    rewrite Z.shiftr_div_pow2 by lia.
    rewrite Z.div_small by (change (2 ^ 8) with 256; lia).
    reflexivity.
Qed.

End PosixReapFacts.

Module ConsoleFacts.
Import Console.

(** ** The console window that EnumWindows finds *)

Lemma same_string_eq a b : same_string a b = true <-> a = b.
Proof.
  unfold same_string. destruct (list_eq_dec ascii_dec a b); split;
    congruence.
Qed.

(** The 32 characters of the buffer are enough to tell the class. *)
Lemma GetClassName_console os w :
  same_string (GetClassName w (window_class_before os (hwnd w)) 32)
              (cstr "ConsoleWindowClass")
  = same_string (class_seen os w) (cstr "ConsoleWindowClass").
Proof.
  unfold GetClassName, class_seen. cbn [Nat.sub].
  destruct (class_name w) as [name|]; [|reflexivity].
  destruct (same_string name (cstr "ConsoleWindowClass")) eqn:E.
  - apply same_string_eq in E. rewrite E. reflexivity.
  - destruct (same_string (firstn 31 name)
                          (cstr "ConsoleWindowClass")) eqn:E'; [|reflexivity].
    apply same_string_eq in E'.
    assert (L : length (firstn 31 name) = 18%nat)
      by (rewrite E'; reflexivity).
    rewrite length_firstn in L.
    rewrite firstn_all2 in E' by lia.
    apply same_string_eq in E'. congruence.
Qed.

Lemma EnumWindows_find os pid ws : forall h0,
  EnumWindows os ws h0 pid
  = match find (is_console_of os pid) ws with
    | Some w => hwnd w
    | None => h0
    end.
Proof.
  induction ws as [|w ws IH]; intros h0; [reflexivity|].
  cbn [EnumWindows find]. unfold find_child_console, is_console_of.
  rewrite GetClassName_console.
  destruct (process_id w =? pid); cbn [andb]; [|apply IH].
  destruct (same_string (class_seen os w) (cstr "ConsoleWindowClass"));
    [reflexivity | apply IH].
Qed.

Lemma attach_to_calls os thread :
  keystrokes (snd (attach_to os thread)) = []
  /\ ctrl_events (snd (attach_to os thread)) = []
  /\ detached (snd (attach_to os thread)) = []
  /\ (AttachThreadInput os (GetCurrentThreadId os) 0 true = false ->
      attached os (snd (attach_to os thread))
      = detached (detach_from (fst (attach_to os thread)))).
Proof.
  unfold attach_to, detach_from.
  destruct (thread =? GetCurrentThreadId os); [repeat split|].
  destruct (AttachThreadInput os (GetCurrentThreadId os) thread true) eqn:E;
    cbn [negb fst snd]; repeat split; intros H0;
    cbn [attached flat_map app]; rewrite E.
  - destruct (thread =? 0) eqn:Z0; [|reflexivity].
    apply Z.eqb_eq in Z0. subst thread. congruence.
  - reflexivity.
Qed.

Lemma detach_from_calls os thread :
  keystrokes (detach_from thread) = []
  /\ ctrl_events (detach_from thread) = []
  /\ attached os (detach_from thread) = [].
Proof.
  unfold detach_from. destruct (negb (thread =? 0)); repeat split.
Qed.

Lemma keystrokes_app a b : keystrokes (a ++ b) = keystrokes a ++ keystrokes b.
Proof. unfold keystrokes. apply flat_map_app. Qed.

Lemma ctrl_events_app a b :
  ctrl_events (a ++ b) = ctrl_events a ++ ctrl_events b.
Proof. unfold ctrl_events. apply flat_map_app. Qed.

Lemma attached_app os a b : attached os (a ++ b) = attached os a ++ attached os b.
Proof. unfold attached. apply flat_map_app. Qed.

Lemma detached_app a b : detached (a ++ b) = detached a ++ detached b.
Proof. unfold detached. apply flat_map_app. Qed.

(** X25.  What [gvd_interrupt_pid] does and says.  When [malloc]
    gives a null pointer the function writes through it before any
    call.  Otherwise: when the process has no console window among the
    top-level windows, its one call is
    [GenerateConsoleCtrlEvent (CTRL_BREAK_EVENT, pid)], and it returns
    -1 if that call fails and 0 otherwise.  When the process has one
    (the first window of the process, in the order of [EnumWindows],
    whose class is seen as ConsoleWindowClass), no console event is
    generated and the value is 0 whatever happened: the keys Control
    and C are pressed and released, in that order and no other key, if
    there is a foreground window and the console window could be
    brought to the foreground; otherwise no key at all is sent, and the
    value is 0 all the same. *)
Theorem gvd_interrupt_pid_outcome os pid :
  match gvd_interrupt_pid os pid with
  | (Null_write, calls) => malloc os = 0 /\ calls = []
  | (Returns rc, calls) =>
    malloc os <> 0
    /\ match console_window os (as_DWORD pid) with
       | None =>
         calls = [console_ctrl_event CTRL_BREAK_EVENT (as_DWORD pid)]
         /\ rc = (if GenerateConsoleCtrlEvent os CTRL_BREAK_EVENT
                                              (as_DWORD pid)
                  then 0 else -1)
       | Some w =>
         w <> INVALID_HANDLE_VALUE ->
         rc = 0
         /\ ctrl_events calls = []
         /\ keystrokes calls
            = (if negb (GetForegroundWindow os =? 0)
                  && SetForegroundWindow os w
               then [(VK_CONTROL, false); (letter_C, false);
                     (letter_C, true); (VK_CONTROL, true)]
               else [])
       end
  end.
Proof.
  unfold gvd_interrupt_pid, console_window.
  destruct (malloc os =? 0) eqn:Em;
    [apply Z.eqb_eq in Em; split; [assumption | reflexivity]|].
  apply Z.eqb_neq in Em. rewrite EnumWindows_find.
  destruct (find (is_console_of os (as_DWORD pid)) (top_level_windows os))
    as [w|]; cbn [option_map].
  - destruct (hwnd w =? INVALID_HANDLE_VALUE) eqn:E; cbn [negb].
    { apply Z.eqb_eq in E.
      destruct (negb (GenerateConsoleCtrlEvent os CTRL_BREAK_EVENT
                        (as_DWORD pid)));
        (split; [assumption|]); intros H; contradiction. }
    destruct (GetForegroundWindow os =? 0); cbn [negb andb].
    { split; [assumption|]. intros _. repeat split. }
    destruct (attach_to_calls os
                (GetWindowThreadProcessId os (GetForegroundWindow os)))
      as (K1 & C1 & _).
    destruct (attach_to_calls os (GetWindowThreadProcessId os (hwnd w)))
      as (K2 & C2 & _).
    destruct (attach_to os
                (GetWindowThreadProcessId os (GetForegroundWindow os)))
      as [t1 c1].
    destruct (attach_to os (GetWindowThreadProcessId os (hwnd w)))
      as [t2 c2].
    cbn [snd] in *. split; [assumption|]. intros _.
    destruct (detach_from_calls os t1) as (K3 & C3 & _).
    destruct (detach_from_calls os t2) as (K4 & C4 & _).
    rewrite !keystrokes_app, !ctrl_events_app, K1, K2, K3, K4,
      C1, C2, C3, C4.
    destruct (SetForegroundWindow os (hwnd w)); repeat split.
  - change (INVALID_HANDLE_VALUE =? INVALID_HANDLE_VALUE) with true.
    cbn [negb].
    destruct (GenerateConsoleCtrlEvent os CTRL_BREAK_EVENT (as_DWORD pid));
      (split; [assumption|]); split; reflexivity.
Qed.

(** X26.  [gvd_interrupt_pid] detaches from every thread it attached
    to: on a system that refuses the attachment to the thread 0, the
    threads whose attachment was granted are the threads detached
    from, in the same order, whichever way the function goes. *)
Theorem gvd_interrupt_pid_detaches os pid :
  AttachThreadInput os (GetCurrentThreadId os) 0 true = false ->
  attached os (snd (gvd_interrupt_pid os pid))
  = detached (snd (gvd_interrupt_pid os pid)).
Proof.
  intros H0. unfold gvd_interrupt_pid.
  destruct (malloc os =? 0); [reflexivity|].
  destruct (negb (EnumWindows os (top_level_windows os) INVALID_HANDLE_VALUE
                    (as_DWORD pid) =? INVALID_HANDLE_VALUE)).
  2: { destruct (negb (GenerateConsoleCtrlEvent os CTRL_BREAK_EVENT
                         (as_DWORD pid))); reflexivity. }
  set (w := EnumWindows os (top_level_windows os) INVALID_HANDLE_VALUE
              (as_DWORD pid)).
  destruct (negb (GetForegroundWindow os =? 0)); [|reflexivity].
  destruct (attach_to_calls os
              (GetWindowThreadProcessId os (GetForegroundWindow os)))
    as (_ & _ & D1 & A1).
  destruct (attach_to_calls os (GetWindowThreadProcessId os w))
    as (_ & _ & D2 & A2).
  specialize (A1 H0). specialize (A2 H0).
  destruct (attach_to os
              (GetWindowThreadProcessId os (GetForegroundWindow os)))
    as [t1 c1].
  destruct (attach_to os (GetWindowThreadProcessId os w)) as [t2 c2].
  cbn [fst snd] in *.
  destruct (detach_from_calls os t1) as (_ & _ & A3).
  destruct (detach_from_calls os t2) as (_ & _ & A4).
  rewrite !attached_app, !detached_app, A1, A2, A3, A4, D1, D2.
  destruct (SetForegroundWindow os w); cbn [attached detached flat_map app];
    now rewrite !app_nil_r.
Qed.

Lemma gvd_interrupt_pid_detaches_witness :
  attached desktop (snd (gvd_interrupt_pid desktop 1234)) = [51; 1235]
  /\ attached desktop (snd (gvd_interrupt_pid desktop 1234))
     = detached (snd (gvd_interrupt_pid desktop 1234)).
Proof.
  split; [reflexivity|].
  apply (gvd_interrupt_pid_detaches desktop 1234). reflexivity.
Defined.

End ConsoleFacts.
